(** * Voice e-commerce assistant: catalog, vector index, inventory sync,
      bulk embedding job, product search and conversational router.

    A shallow embedding of the TypeScript sources
    ([lib/database.ts], [lib/pinecone-service.ts], [lib/ollama-service.ts],
    [tools/inventory-management.ts], [tools/product-search.ts],
    [scripts/full-embeddings.ts], [agents/ecommerce-agent.ts]) together with
    the properties stated about them.

    Conventions.
    - Catalog rows live in a [gmap string Product] keyed by the row id; the
      vector index is a [gmap string VectorRecord] keyed by the vector id.
    - Integers ([quantity], counters) are [Z] / [nat]; prices and similarity
      scores are rationals ([Q]); timestamps are [Z] readings of the clock.
    - An awaited call that can reject is a computation in the monad [Eff]:
      it returns the new world together with [Some v] (resolved) or [None]
      (thrown).  Effects performed before a throw stay in the world.
    - Whether a remote service call throws, and what the clock reads, is
      supplied from outside in a [Faults] record / a [now] argument. *)

From Stdlib Require Import ZArith QArith Qround Bool List Lia Ascii.
From stdpp Require Import base option list strings gmap fin_maps sorting.

Local Open Scope string_scope.
Local Open Scope Z_scope.

(** ** JavaScript value helpers *)

Module Js.

(** Truthiness of a possibly absent string: [undefined], [null] and the
    empty string are falsy. *)
Definition truthy (o : option string) : bool :=
  match o with
  | Some s => negb (String.eqb s "")
  | None => false
  end.

(** [a || b] on possibly absent strings. *)
Definition or_else (a b : option string) : option string :=
  if truthy a then a else b.

(** [o || ''] *)
Definition or_empty (o : option string) : string :=
  match o with
  | Some s => s
  | None => ""
  end.

(** [String.prototype.toLowerCase] on the ASCII range. *)
Definition lower_ascii (c : ascii) : ascii :=
  let n := nat_of_ascii c in
  if (Nat.leb 65 n && Nat.leb n 90)%bool then ascii_of_nat (n + 32) else c.

Fixpoint toLowerCase (s : string) : string :=
  match s with
  | EmptyString => EmptyString
  | String c rest => String (lower_ascii c) (toLowerCase rest)
  end.

(** [hay.includes(needle)] *)
Fixpoint includes (hay needle : string) : bool :=
  if String.prefix needle hay then true
  else match hay with
       | EmptyString => false
       | String _ rest => includes rest needle
       end.

(** White space removed by [String.prototype.trim] (ASCII range). *)
Definition is_space (c : ascii) : bool :=
  let n := nat_of_ascii c in
  (Nat.eqb n 32 || (Nat.leb 9 n && Nat.leb n 13))%bool.

Fixpoint trim_start (s : string) : string :=
  match s with
  | EmptyString => EmptyString
  | String c rest => if is_space c then trim_start rest else s
  end.

Definition trim (s : string) : string :=
  String.rev (trim_start (String.rev (trim_start s))).

(** [parts.join(sep)] *)
Definition join (sep : string) (parts : list string) : string :=
  String.concat sep parts.

End Js.

(** ** The relational catalog ([prisma/schema.prisma], [lib/database.ts]) *)

Module Catalog.

Record Product := mkProduct {
  id : string;
  name : string;
  description : option string;
  sku : string;
  price : Q;
  quantity : Z;
  category : option string;
  brand : option string;
  imageUrl : option string;
  pineconeId : option string;
  hasEmbedding : bool;
  lastEmbedded : option Z;
  isActive : bool;
  tags : list string;
  searchKeywords : option string;
  createdAt : Z;
  updatedAt : Z
}.

(** The argument of [createProduct]: the caller supplies neither [isActive]
    nor [hasEmbedding]. *)
Record ProductData := mkProductData {
  d_name : string;
  d_description : option string;
  d_sku : string;
  d_price : Q;
  d_quantity : Z;
  d_category : option string;
  d_brand : option string;
  d_imageUrl : option string;
  d_tags : option (list string);
  d_searchKeywords : option string
}.

Inductive JobStatus := PENDING | RUNNING | COMPLETED | FAILED.
Inductive JobType := SINGLE_EMBED | BULK_EMBED | REMOVE_EMBED | UPDATE_EMBED.

Record EmbeddingJob := mkJob {
  j_status : JobStatus;
  j_productId : option string;
  j_jobType : JobType;
  j_errorMessage : option string;
  j_totalItems : option nat;
  j_processedItems : nat;
  j_createdAt : Z;
  j_completedAt : option Z
}.

(** Field-wise updates written by [prisma.product.update]; the schema's
    [@updatedAt] stamps every update. *)
Definition set_inventory (now q : Z) (p : Product) : Product :=
  mkProduct (id p) (name p) (description p) (sku p) (price p)
    q (category p) (brand p) (imageUrl p) (pineconeId p)
    (hasEmbedding p) (lastEmbedded p) (0 <? q) (tags p)
    (searchKeywords p) (createdAt p) now.

Definition set_embedded (now : Z) (pid : option string) (p : Product) : Product :=
  mkProduct (id p) (name p) (description p) (sku p) (price p)
    (quantity p) (category p) (brand p) (imageUrl p)
    (if Js.truthy pid then pid else pineconeId p)
    true (Some now) (isActive p) (tags p)
    (searchKeywords p) (createdAt p) now.

Definition set_not_embedded (now : Z) (p : Product) : Product :=
  mkProduct (id p) (name p) (description p) (sku p) (price p)
    (quantity p) (category p) (brand p) (imageUrl p) (pineconeId p)
    false None (isActive p) (tags p)
    (searchKeywords p) (createdAt p) now.

Definition set_pineconeId (now : Z) (pid : string) (p : Product) : Product :=
  mkProduct (id p) (name p) (description p) (sku p) (price p)
    (quantity p) (category p) (brand p) (imageUrl p) (Some pid)
    (hasEmbedding p) (lastEmbedded p) (isActive p) (tags p)
    (searchKeywords p) (createdAt p) now.

Definition set_isActive (now : Z) (b : bool) (p : Product) : Product :=
  mkProduct (id p) (name p) (description p) (sku p) (price p)
    (quantity p) (category p) (brand p) (imageUrl p) (pineconeId p)
    (hasEmbedding p) (lastEmbedded p) b (tags p)
    (searchKeywords p) (createdAt p) now.

(** The embedding flags of a catalog row. *)
Definition embedding_flags (p : Product) : bool * option string :=
  (hasEmbedding p, pineconeId p).

(** The two uses of [updateProduct(id, data : Partial<Product>)]. *)
Inductive ProductPatch :=
| PatchPineconeId (pid : string)
| PatchIsActive (b : bool).

Definition apply_patch (now : Z) (patch : ProductPatch) (p : Product) : Product :=
  match patch with
  | PatchPineconeId pid => set_pineconeId now pid p
  | PatchIsActive b => set_isActive now b p
  end.

(** [prisma.product.update({ where: { id }, data })]: rejects when the row
    does not exist, otherwise stores and returns the updated row. *)
Definition prisma_update (rid : string) (f : Product -> Product)
    (db : gmap string Product) : option (gmap string Product * Product) :=
  match db !! rid with
  | Some p => let p' := f p in Some (<[rid := p']> db, p')
  | None => None
  end.

(** The [@unique] columns [sku] and [pineconeId] and the primary key. *)
Definition row_free (rid rsku : string) (pid : option string)
    (db : gmap string Product) : bool :=
  bool_decide (db !! rid = None)
  && bool_decide (map_Forall (fun _ p =>
       sku p <> rsku /\ (pid = None \/ pineconeId p <> pid)) db).

(** [createProduct(data)]: [rid] is the generated [cuid()], [suffix] the
    time-and-random part of the generated vector id.  [isActive] and
    [hasEmbedding] are not part of [data]; the row gets the column
    defaults [true] and [false]. *)
Definition createProduct (now : Z) (rid suffix : string) (data : ProductData)
    (db : gmap string Product) : option (gmap string Product * Product) :=
  let pid := Some ("product_" +:+ suffix) in
  if row_free rid (d_sku data) pid db then
    let p := mkProduct rid (d_name data) (d_description data) (d_sku data)
               (d_price data) (d_quantity data) (d_category data)
               (d_brand data) (d_imageUrl data) pid
               false None true (default [] (d_tags data))
               (d_searchKeywords data) now now in
    Some (<[rid := p]> db, p)
  else None.

Definition getProduct (rid : string) (db : gmap string Product) : option Product :=
  db !! rid.

Definition updateInventory (now : Z) (rid : string) (q : Z)
    (db : gmap string Product) : option (gmap string Product * Product) :=
  prisma_update rid (set_inventory now q) db.

Definition markProductEmbedded (now : Z) (rid : string) (pid : option string)
    (db : gmap string Product) : option (gmap string Product * Product) :=
  prisma_update rid (set_embedded now pid) db.

Definition markProductNotEmbedded (now : Z) (rid : string)
    (db : gmap string Product) : option (gmap string Product * Product) :=
  prisma_update rid (set_not_embedded now) db.

Definition updateProduct (now : Z) (rid : string) (patch : ProductPatch)
    (db : gmap string Product) : option (gmap string Product * Product) :=
  prisma_update rid (apply_patch now patch) db.

(** *** Listing *)

Record ListOptions := mkListOptions {
  lo_isActive : option bool;
  lo_hasStock : option bool;
  lo_category : option string;
  lo_limit : option nat;
  lo_offset : option nat
}.

(** [orderBy: { updatedAt: 'desc' }] *)
Definition newer (a b : Product) : Prop := updatedAt b <= updatedAt a.

#[global] Instance newer_dec (a b : Product) : Decision (newer a b) :=
  Z.le_dec _ _.

(** The [where] object of [getAllProducts]: [isActive] defaults to [true]
    in the destructuring, so the activity test is always present. *)
Definition list_where (o : ListOptions) (p : Product) : bool :=
  Bool.eqb (isActive p) (default true (lo_isActive o))
  && (if default false (lo_hasStock o) then 0 <? quantity p else true)
  && (if Js.truthy (lo_category o)
      then bool_decide (category p = lo_category o) else true).

Definition getAllProducts (o : ListOptions) (db : gmap string Product) : list Product :=
  take (default 100%nat (lo_limit o))
    (drop (default 0%nat (lo_offset o))
       (merge_sort newer
          (filter (fun p => list_where o p = true) (snd <$> map_to_list db)))).

(** *** Embedding jobs *)

Record JobPatch := mkJobPatch {
  jp_status : option JobStatus;
  jp_processedItems : option nat;
  jp_errorMessage : option string;
  jp_completedAt : option Z
}.

Definition createEmbeddingJob (now : Z) (jid : string) (ty : JobType)
    (total : option nat) (js : gmap string EmbeddingJob)
    : option (gmap string EmbeddingJob * EmbeddingJob) :=
  match js !! jid with
  | Some _ => None
  | None =>
      let j := mkJob PENDING None ty None total 0%nat now None in
      Some (<[jid := j]> js, j)
  end.

Definition patch_job (patch : JobPatch) (j : EmbeddingJob) : EmbeddingJob :=
  mkJob (default (j_status j) (jp_status patch))
    (j_productId j) (j_jobType j)
    (match jp_errorMessage patch with Some m => Some m | None => j_errorMessage j end)
    (j_totalItems j)
    (default (j_processedItems j) (jp_processedItems patch))
    (j_createdAt j)
    (match jp_completedAt patch with Some t => Some t | None => j_completedAt j end).

Definition updateEmbeddingJob (jid : string) (patch : JobPatch)
    (js : gmap string EmbeddingJob)
    : option (gmap string EmbeddingJob * EmbeddingJob) :=
  match js !! jid with
  | Some j => let j' := patch_job patch j in Some (<[jid := j']> js, j')
  | None => None
  end.

End Catalog.

(** ** The vector index ([lib/pinecone-service.ts]) *)

Module Pinecone.
Import Catalog.

Record ProductMetadata := mkMetadata {
  md_id : string;
  md_name : string;
  md_description : option string;
  md_price : Q;
  md_quantity : Z;
  md_category : option string;
  md_brand : option string;
  md_sku : string;
  md_isActive : bool
}.

(** What [index.upsert] stores under a vector id. *)
Record VectorRecord := mkRecord {
  values : list Q;
  metadata : option ProductMetadata
}.

(** *** The filter language used by the callers

A filter is an object from field names to conditions; a condition is
an object with some of the operators [$eq], [$gt], [$gte], [$lte]. *)

Inductive FieldValue :=
| VBool (b : bool)
| VNum (q : Q)
| VStr (s : string).

Record Cond := mkCond {
  c_eq : option FieldValue;
  c_gt : option Q;
  c_gte : option Q;
  c_lte : option Q
}.

Definition cond_eq (v : FieldValue) : Cond := mkCond (Some v) None None None.
Definition cond_gt (q : Q) : Cond := mkCond None (Some q) None None.
Definition cond_range (lo hi : option Q) : Cond := mkCond None None lo hi.

Definition value_eqb (a b : FieldValue) : bool :=
  match a, b with
  | VBool x, VBool y => Bool.eqb x y
  | VNum x, VNum y => Qeq_bool x y
  | VStr x, VStr y => String.eqb x y
  | _, _ => false
  end.

Definition Qlt_bool (a b : Q) : bool := negb (Qle_bool b a).

(** A numeric operator holds only of a numeric field value. *)
Definition num_op (op : Q -> Q -> bool) (bound : option Q) (v : FieldValue) : bool :=
  match bound with
  | None => true
  | Some b => match v with VNum x => op x b | _ => false end
  end.

Definition cond_holds (c : Cond) (v : FieldValue) : bool :=
  match c_eq c with Some e => value_eqb v e | None => true end
  && num_op (fun x b => Qlt_bool b x) (c_gt c) v
  && num_op (fun x b => Qle_bool b x) (c_gte c) v
  && num_op (fun x b => Qle_bool x b) (c_lte c) v.

Definition meta_field (m : ProductMetadata) (key : string) : option FieldValue :=
  if String.eqb key "id" then Some (VStr (md_id m))
  else if String.eqb key "name" then Some (VStr (md_name m))
  else if String.eqb key "description" then VStr <$> md_description m
  else if String.eqb key "price" then Some (VNum (md_price m))
  else if String.eqb key "quantity" then Some (VNum (inject_Z (md_quantity m)))
  else if String.eqb key "category" then VStr <$> md_category m
  else if String.eqb key "brand" then VStr <$> md_brand m
  else if String.eqb key "sku" then Some (VStr (md_sku m))
  else if String.eqb key "isActive" then Some (VBool (md_isActive m))
  else None.

(** One [key: condition] entry of a filter against a stored record: the
    record must carry the field, and the field must satisfy the
    condition.  A record stored without metadata has no field. *)
Definition entry_holds (md : option ProductMetadata) (key : string) (c : Cond) : bool :=
  match md with
  | Some m => match meta_field m key with
              | Some v => cond_holds c v
              | None => false
              end
  | None => false
  end.

Definition filter_matches (f : gmap string Cond) (md : option ProductMetadata) : bool :=
  bool_decide (map_Forall (fun key c => entry_holds md key c = true) f).

(** *** The remote index

The nearest-neighbour service itself is outside the repository.  Its
query is modelled by its documented contract: among the stored
records whose metadata satisfies the filter, the [topK] best by
similarity score, best first; metadata is returned on request. *)

Record Match := mkMatch {
  m_id : string;
  m_score : Q;
  m_metadata : option ProductMetadata
}.

Definition better (a b : Match) : Prop := (m_score b <= m_score a)%Q.

#[global] Instance better_dec (a b : Match) : Decision (better a b) :=
  Z.le_dec _ _.

Section Query.
(** The index's similarity metric (cosine in [initializeIndex]). *)
Variable similarity : list Q -> list Q -> Q.

Definition to_match (vector : list Q) (includeMetadata : bool)
    (entry : string * VectorRecord) : Match :=
  mkMatch (fst entry) (similarity vector (values (snd entry)))
    (if includeMetadata then metadata (snd entry) else None).

Definition index_query (idx : gmap string VectorRecord) (vector : list Q)
    (topK : nat) (f : gmap string Cond) (includeMetadata : bool) : list Match :=
  take topK
    (merge_sort better
       (to_match vector includeMetadata <$>
          filter (fun entry => filter_matches f (metadata (snd entry)) = true)
                 (map_to_list idx))).
End Query.

Definition index_upsert (vid : string) (r : VectorRecord)
    (idx : gmap string VectorRecord) : gmap string VectorRecord :=
  <[vid := r]> idx.

(** Deleting an absent id is accepted by the service. *)
Definition index_deleteOne (vid : string)
    (idx : gmap string VectorRecord) : gmap string VectorRecord :=
  delete vid idx.

End Pinecone.

(** ** The world the services act on, and awaited calls *)

Module Services.
Import Catalog Pinecone.

(** Requests issued to the embedding provider and the vector index, in
    the order they were sent (a request that is answered by an error is
    recorded too). *)
Inductive Call :=
| CallEmbed (text : string)
| CallUpsert (vid : string)
| CallDelete (vid : string)
| CallQuery.

Record World := mkWorld {
  db : gmap string Product;
  index : gmap string VectorRecord;
  jobs : gmap string EmbeddingJob;
  calls : list Call
}.

Definition with_db (d : gmap string Product) (w : World) : World :=
  mkWorld d (index w) (jobs w) (calls w).
Definition with_index (i : gmap string VectorRecord) (w : World) : World :=
  mkWorld (db w) i (jobs w) (calls w).
Definition with_jobs (j : gmap string EmbeddingJob) (w : World) : World :=
  mkWorld (db w) (index w) j (calls w).
Definition record_call (c : Call) (w : World) : World :=
  mkWorld (db w) (index w) (jobs w) (calls w ++ [c])%list.

(** Requests that create or refresh a vector: generating an embedding
    and upserting it. *)
Definition is_upload (c : Call) : bool :=
  match c with
  | CallEmbed _ | CallUpsert _ => true
  | CallDelete _ | CallQuery => false
  end.

(** The requests sent between world [w] and a later world [w']. *)
Definition calls_since (w w' : World) : list Call :=
  drop (length (calls w)) (calls w').

(** Which remote calls reject during one operation. *)
Record Faults := mkFaults {
  get_throws : bool;      (* dbService.getProduct *)
  update_throws : bool;   (* dbService.updateInventory *)
  mark_throws : bool;     (* dbService.markProductEmbedded / NotEmbedded *)
  patch_throws : bool;    (* dbService.updateProduct *)
  embed_throws : bool;    (* ollama.embeddings *)
  upsert_throws : bool;   (* index.upsert *)
  delete_throws : bool;   (* index.deleteOne *)
  query_throws : bool     (* index.query *)
}.

Definition no_faults : Faults :=
  mkFaults false false false false false false false false.

(** An awaited computation: the world after it, and its value unless it
    threw. *)
Definition Eff (A : Type) : Type := World -> World * option A.

Definition ret {A} (a : A) : Eff A := fun w => (w, Some a).
Definition throw {A} : Eff A := fun w => (w, None).
Definition bind {A B} (m : Eff A) (k : A -> Eff B) : Eff B :=
  fun w => match m w with
           | (w', Some a) => k a w'
           | (w', None) => (w', None)
           end.
(** [try { m } catch { h }] *)
Definition try_catch {A} (m : Eff A) (h : Eff A) : Eff A :=
  fun w => match m w with
           | (w', Some a) => (w', Some a)
           | (w', None) => h w'
           end.

Declare Scope eff_scope.
Delimit Scope eff_scope with eff.
Notation "'await' x <- m ; k" := (bind m (fun x => k))
  (at level 10, x name, m at level 100, k at level 200) : eff_scope.
Notation "'await_' m ; k" := (bind m (fun _ => k))
  (at level 10, m at level 100, k at level 200) : eff_scope.
Local Open Scope eff_scope.

(** *** Catalog store adapter *)

Definition db_write (throws : bool)
    (op : gmap string Product -> option (gmap string Product * Product))
    : Eff Product :=
  fun w =>
    if throws then (w, None)
    else match op (db w) with
         | Some (d, p) => (with_db d w, Some p)
         | None => (w, None)
         end.

Definition db_getProduct (F : Faults) (rid : string) : Eff (option Product) :=
  fun w => if get_throws F then (w, None) else (w, Some (getProduct rid (db w))).

Definition db_updateInventory (F : Faults) (now : Z) (rid : string) (q : Z) : Eff Product :=
  db_write (update_throws F) (updateInventory now rid q).

Definition db_markProductEmbedded (F : Faults) (now : Z) (rid : string)
    (pid : option string) : Eff Product :=
  db_write (mark_throws F) (markProductEmbedded now rid pid).

Definition db_markProductNotEmbedded (F : Faults) (now : Z) (rid : string) : Eff Product :=
  db_write (mark_throws F) (markProductNotEmbedded now rid).

Definition db_updateProduct (F : Faults) (now : Z) (rid : string)
    (patch : ProductPatch) : Eff Product :=
  db_write (patch_throws F) (updateProduct now rid patch).

(** *** Vector index adapter *)

(** [product.pineconeId || product.id] *)
Definition vector_id (p : Product) : string :=
  if Js.truthy (pineconeId p) then Js.or_empty (pineconeId p) else id p.

(** The metadata object [upsertProduct] builds. *)
Definition metadata_of (p : Product) : ProductMetadata :=
  mkMetadata (id p) (name p) (Some (Js.or_empty (description p))) (price p)
    (quantity p) (Some (Js.or_empty (category p)))
    (Some (Js.or_empty (brand p))) (sku p) (isActive p).

(** [upsertProduct(product, embedding)]: the record handed to
    [index.upsert] has the fields [id] and [values]; the [metadata]
    object built just before is not among them. *)
Definition upsertProduct (F : Faults) (p : Product) (embedding : list Q) : Eff bool :=
  fun w =>
    let _metadata := metadata_of p in
    let w1 := record_call (CallUpsert (vector_id p)) w in
    if upsert_throws F then (w1, None)
    else (with_index (index_upsert (vector_id p) (mkRecord embedding None) (index w1)) w1,
          Some true).

Definition deleteProduct (F : Faults) (vid : string) : Eff bool :=
  fun w =>
    let w1 := record_call (CallDelete vid) w in
    if delete_throws F then (w1, None)
    else (with_index (index_deleteOne vid (index w1)) w1, Some true).

Record SearchOptions := mkSearchOptions {
  o_topK : option nat;
  o_minScore : option Q;
  o_filter : option (gmap string Cond);
  o_includeMetadata : option bool
}.

Record SearchResult := mkSearchResult {
  sr_id : string;
  sr_score : Q;
  sr_metadata : option ProductMetadata
}.

(** Default filter: only active products with stock. *)
Definition defaultFilter : gmap string Cond :=
  <["isActive" := cond_eq (VBool true)]>
    (<["quantity" := cond_gt 0%Q]> ∅).

(** [{ ...defaultFilter, ...filter }]: the caller's entries win. *)
Definition queryFilter (f : gmap string Cond) : gmap string Cond :=
  f ∪ defaultFilter.

Section Search.
Variable similarity : list Q -> list Q -> Q.

Definition searchProducts (F : Faults) (queryEmbedding : list Q)
    (options : SearchOptions) : Eff (list SearchResult) :=
  fun w =>
    let topK := default 10%nat (o_topK options) in
    let minScore := default (7 # 10)%Q (o_minScore options) in
    let f := default ∅ (o_filter options) in
    let includeMetadata := default true (o_includeMetadata options) in
    let w1 := record_call CallQuery w in
    if query_throws F then (w1, None)
    else
      let matches :=
        index_query similarity (index w1) queryEmbedding topK
          (queryFilter f) includeMetadata in
      (w1, Some ((fun m => mkSearchResult (m_id m) (m_score m) (m_metadata m))
                   <$> filter (fun m => Qle_bool minScore (m_score m) = true) matches)).
End Search.

(** *** Embedding provider adapter ([lib/ollama-service.ts]) *)

Section Embedding.
(** The provider's answer for a text (the text clean-up done before
    the request is part of this function). *)
Variable ollama_embeddings : string -> list Q.

(** [generateEmbedding(text)]: an empty answer is turned into a throw. *)
Definition generateEmbedding (F : Faults) (text : string) : Eff (list Q) :=
  fun w =>
    let w1 := record_call (CallEmbed text) w in
    if embed_throws F then (w1, None)
    else match ollama_embeddings text with
         | [] => (w1, None)
         | e => (w1, Some e)
         end.
End Embedding.

End Services.

(** ** Inventory management tool ([tools/inventory-management.ts]) *)

Module Inventory.
Import Catalog Pinecone Services.
Local Open Scope eff_scope.

Record InventoryUpdateInput := mkUpdateInput {
  productId : string;
  in_quantity : Z;
  updateEmbedding : bool
}.

Inductive EmbeddingAction := added | removed | updated | none.

Record StatusChange := mkStatusChange {
  wasActive : bool;
  nowActive : bool;
  embeddingAction : EmbeddingAction
}.

Record InventoryUpdateResult := mkUpdateResult {
  success : bool;
  r_productId : string;
  previousQuantity : Z;
  newQuantity : Z;
  statusChange : option StatusChange;
  error : option string
}.

(** [[name, description, category, brand, ...tags, searchKeywords]
     .filter(Boolean).join(' ')] *)
Definition createProductEmbeddingText (p : Product) : string :=
  let parts :=
    ([Some (name p); description p; category p; brand p]
     ++ (Some <$> tags p) ++ [searchKeywords p])%list in
  Js.join " " (Js.or_empty <$> filter (fun o => Js.truthy o = true) parts).

Section Tool.
Variable ollama_embeddings : string -> list Q.
(** [parseInt(process.env.LOW_STOCK_THRESHOLD || '5')] *)
Variable threshold : Z.

(** Embed the updated row, upsert it and stamp the catalog row. *)
Definition embed_and_upsert (F : Faults) (now : Z) (rid : string)
    (updatedProduct : Product) : Eff Product :=
  let embeddingText := createProductEmbeddingText updatedProduct in
  await embedding <- generateEmbedding ollama_embeddings F embeddingText;
  await_ upsertProduct F updatedProduct embedding;
  db_markProductEmbedded F now rid (pineconeId updatedProduct).

(** The body of the inner [try] of [executeInventoryUpdate]; its value
    is the [embeddingAction] assigned last in the branch taken. *)
Definition syncEmbedding (F : Faults) (now : Z) (input : InventoryUpdateInput)
    (currentProduct updatedProduct : Product) : Eff EmbeddingAction :=
  let wasActive := isActive currentProduct in
  let isActive := isActive updatedProduct in
  let isLowStock := in_quantity input <? threshold in
  let isOutOfStock := in_quantity input <=? 0 in
  if isOutOfStock || isLowStock then
    if Js.truthy (pineconeId currentProduct) && hasEmbedding currentProduct then
      await_ deleteProduct F (Js.or_empty (pineconeId currentProduct));
      await_ db_markProductNotEmbedded F now (productId input);
      ret removed
    else ret none
  else if negb wasActive && isActive then
    await_ embed_and_upsert F now (productId input) updatedProduct;
    ret added
  else if isActive && hasEmbedding currentProduct then
    await_ embed_and_upsert F now (productId input) updatedProduct;
    ret updated
  else ret none.

(** [if (input.updateEmbedding) { try { ... } catch { log } }]: an
    error of the embedding step is swallowed and the action stays
    ['none']. *)
Definition bestEffortSync (F : Faults) (now : Z) (input : InventoryUpdateInput)
    (currentProduct updatedProduct : Product) : Eff EmbeddingAction :=
  if updateEmbedding input
  then try_catch (syncEmbedding F now input currentProduct updatedProduct)
                 (ret none)
  else ret none.

Definition failure (input : InventoryUpdateInput) (msg : string) : InventoryUpdateResult :=
  mkUpdateResult false (productId input) 0 (in_quantity input) None (Some msg).

(** The body of the outer [try]. *)
Definition inventoryUpdate (F : Faults) (now : Z) (input : InventoryUpdateInput)
    : Eff InventoryUpdateResult :=
  await found <- db_getProduct F (productId input);
  match found with
  | None => ret (failure input "Product not found")
  | Some currentProduct =>
      let previousQuantity := quantity currentProduct in
      await updatedProduct <-
        db_updateInventory F now (productId input) (in_quantity input);
      await action <-
        bestEffortSync F now input currentProduct updatedProduct;
      ret (mkUpdateResult true (productId input) previousQuantity
             (in_quantity input)
             (Some (mkStatusChange (isActive currentProduct)
                      (isActive updatedProduct) action))
             None)
  end.

(** [executeInventoryUpdate(input)]: never rejects; an exception that
    reaches the outer [catch] becomes a failure result (the message of
    the exception is kept abstract). *)
Definition executeInventoryUpdate (F : Faults) (now : Z)
    (input : InventoryUpdateInput) (w : World) : World * InventoryUpdateResult :=
  match inventoryUpdate F now input w with
  | (w', Some r) => (w', r)
  | (w', None) => (w', failure input "Unknown inventory update error")
  end.

(** *** Net effect of the embedding step

The definitions below are not in the source: they describe, as
plain functions of the fault record and the two rows, which branch
of [syncEmbedding] is entered and what [bestEffortSync] leaves
behind.  Lemma [bestEffortSync_effect] proves that the embedded
code does exactly this. *)

(** The branch of [syncEmbedding] that is entered. *)
Definition chosen_action (input : InventoryUpdateInput)
    (currentProduct updatedProduct : Product) : EmbeddingAction :=
  if (in_quantity input <=? 0) || (in_quantity input <? threshold) then
    if Js.truthy (pineconeId currentProduct) && hasEmbedding currentProduct
    then removed else none
  else if negb (isActive currentProduct) && isActive updatedProduct then added
  else if isActive updatedProduct && hasEmbedding currentProduct then updated
  else none.

(** [generateEmbedding] resolves for this text. *)
Definition embedding_resolves (F : Faults) (text : string) : bool :=
  negb (embed_throws F)
  && match ollama_embeddings text with [] => false | _ => true end.

(** The vector of the updated row reaches the index. *)
Definition upload_lands (F : Faults) (updatedProduct : Product) : bool :=
  embedding_resolves F (createProductEmbeddingText updatedProduct)
  && negb (upsert_throws F).

Definition index_after (F : Faults) (input : InventoryUpdateInput)
    (currentProduct updatedProduct : Product)
    (idx : gmap string VectorRecord) : gmap string VectorRecord :=
  if updateEmbedding input then
    match chosen_action input currentProduct updatedProduct with
    | removed =>
        if delete_throws F then idx
        else delete (Js.or_empty (pineconeId currentProduct)) idx
    | added | updated =>
        if upload_lands F updatedProduct
        then <[vector_id updatedProduct :=
                 mkRecord (ollama_embeddings
                             (createProductEmbeddingText updatedProduct)) None]> idx
        else idx
    | none => idx
    end
  else idx.

Definition row_after (F : Faults) (now : Z) (input : InventoryUpdateInput)
    (currentProduct updatedProduct : Product) (row : Product) : Product :=
  if updateEmbedding input then
    match chosen_action input currentProduct updatedProduct with
    | removed =>
        if negb (delete_throws F) && negb (mark_throws F)
        then set_not_embedded now row else row
    | added | updated =>
        if upload_lands F updatedProduct && negb (mark_throws F)
        then set_embedded now (pineconeId updatedProduct) row else row
    | none => row
    end
  else row.

Definition action_after (F : Faults) (input : InventoryUpdateInput)
    (currentProduct updatedProduct : Product) : EmbeddingAction :=
  if updateEmbedding input then
    match chosen_action input currentProduct updatedProduct with
    | removed =>
        if negb (delete_throws F) && negb (mark_throws F) then removed else none
    | added =>
        if upload_lands F updatedProduct && negb (mark_throws F) then added else none
    | updated =>
        if upload_lands F updatedProduct && negb (mark_throws F) then updated else none
    | none => none
    end
  else none.

Definition calls_after (F : Faults) (input : InventoryUpdateInput)
    (currentProduct updatedProduct : Product) : list Call :=
  if updateEmbedding input then
    match chosen_action input currentProduct updatedProduct with
    | removed => [CallDelete (Js.or_empty (pineconeId currentProduct))]
    | added | updated =>
        CallEmbed (createProductEmbeddingText updatedProduct)
        :: (if embedding_resolves F (createProductEmbeddingText updatedProduct)
            then [CallUpsert (vector_id updatedProduct)] else [])
    | none => []
    end
  else [].

(** The action reported by a result (['none'] when there is no
    [statusChange]). *)
Definition action_of (r : InventoryUpdateResult) : EmbeddingAction :=
  match statusChange r with
  | Some sc => embeddingAction sc
  | None => none
  end.
End Tool.

End Inventory.

(** ** Product search tool ([tools/product-search.ts]) *)

Module Search.
Import Catalog Pinecone Services.
Local Open Scope eff_scope.

Record ProductSearchInput := mkSearchInput {
  query : string;
  maxResults : nat;
  s_category : option string;
  minPrice : option Q;
  maxPrice : option Q;
  s_brand : option string;
  inStockOnly : bool
}.

(** The object parsed from the language model's answer; any field may be
    missing. *)
Record PriceRange := mkPriceRange {
  pr_min : option Q;
  pr_max : option Q
}.

Record SearchIntent := mkIntent {
  si_category : option string;
  si_priceRange : option PriceRange;
  si_brand : option string;
  si_searchTerms : option string
}.

Record FoundProduct := mkFound {
  f_id : string;
  f_name : string;
  f_description : string;
  f_price : Q;
  f_quantity : Z;
  f_category : option string;
  f_brand : option string;
  f_sku : string;
  relevanceScore : Q
}.

Record ProductSearchResult := mkSearchOutcome {
  s_success : bool;
  products : list FoundProduct;
  totalFound : nat;
  searchTerms : string;
  s_error : option string
}.

(** Truthiness of a possibly absent number: [undefined] and [0] are falsy. *)
Definition truthy_num (o : option Q) : bool :=
  match o with
  | Some q => negb (Qeq_bool q 0)
  | None => false
  end.

(** [explicit !== undefined ? explicit : (inferred truthy ? inferred : absent)] *)
Definition price_bound (explicit inferred : option Q) : option Q :=
  match explicit with
  | Some b => Some b
  | None => if truthy_num inferred then inferred else None
  end.

(** The [searchFilters] object built by [executeProductSearch]. *)
Definition buildSearchFilters (input : ProductSearchInput)
    (intent : SearchIntent) : gmap string Cond :=
  let f0 : gmap string Cond := ∅ in
  let f1 :=
    if inStockOnly input
    then <["isActive" := cond_eq (VBool true)]> (<["quantity" := cond_gt 0%Q]> f0)
    else f0 in
  let f2 :=
    if Js.truthy (s_category input) || Js.truthy (si_category intent)
    then <["category" :=
             cond_eq (VStr (Js.or_empty (Js.or_else (s_category input) (si_category intent))))]> f1
    else f1 in
  let f3 :=
    if Js.truthy (s_brand input) || Js.truthy (si_brand intent)
    then <["brand" :=
             cond_eq (VStr (Js.or_empty (Js.or_else (s_brand input) (si_brand intent))))]> f2
    else f2 in
  if bool_decide (is_Some (minPrice input)) || bool_decide (is_Some (maxPrice input))
     || bool_decide (is_Some (si_priceRange intent))
  then
    let gte := price_bound (minPrice input) (si_priceRange intent ≫= pr_min) in
    let lte := price_bound (maxPrice input) (si_priceRange intent ≫= pr_max) in
    if bool_decide (is_Some gte) || bool_decide (is_Some lte)
    then <["price" := cond_range gte lte]> f3
    else f3
  else f3.

(** [Math.round(score * 100) / 100] *)
Definition round2 (score : Q) : Q :=
  (inject_Z (Qfloor (score * 100 + (1 # 2))) / 100)%Q.

(** Formatting one result reads [result.metadata.id]: a result without
    metadata makes the [map] throw. *)
Definition format_result (r : SearchResult) : option FoundProduct :=
  match sr_metadata r with
  | Some m =>
      Some (mkFound (md_id m) (md_name m) (Js.or_empty (md_description m))
              (md_price m) (md_quantity m) (md_category m) (md_brand m)
              (md_sku m) (round2 (sr_score r)))
  | None => None
  end.

Definition format_results (rs : list SearchResult) : Eff (list FoundProduct) :=
  fun w => (w, mapM format_result rs).

Section Tool.
Variable similarity : list Q -> list Q -> Q.
Variable ollama_embeddings : string -> list Q.
(** [ollamaService.extractSearchIntent]: it catches its own errors and
    always yields an intent object. *)
Variable extractSearchIntent : string -> SearchIntent.

Definition search_terms (input : ProductSearchInput) (intent : SearchIntent) : string :=
  Js.or_empty (Js.or_else (si_searchTerms intent) (Some (query input))).

(** The body of the [try] of [executeProductSearch], up to the list of
    formatted products (the suggestion texts and the echo of the
    applied filters are presentation only and left out). *)
Definition productSearch (F : Faults) (input : ProductSearchInput)
    : Eff (list FoundProduct) :=
  let searchIntent := extractSearchIntent (query input) in
  await searchEmbedding <-
    generateEmbedding ollama_embeddings F (search_terms input searchIntent);
  let searchFilters := buildSearchFilters input searchIntent in
  await searchResults <-
    searchProducts similarity F searchEmbedding
      (mkSearchOptions (Some (maxResults input)) (Some (6 # 10)%Q)
         (Some searchFilters) None);
  format_results searchResults.

Definition executeProductSearch (F : Faults) (input : ProductSearchInput)
    (w : World) : World * ProductSearchResult :=
  match productSearch F input w with
  | (w', Some ps) =>
      (w', mkSearchOutcome true ps (length ps)
             (search_terms input (extractSearchIntent (query input))) None)
  | (w', None) =>
      (w', mkSearchOutcome false [] 0%nat (query input)
             (Some "Unknown search error"))
  end.
End Tool.

End Search.

(** ** Bulk embedding job ([scripts/full-embeddings.ts]) *)

Module BulkJob.
Import Catalog Pinecone Services.
Local Open Scope eff_scope.

Record EmbeddingProgress := mkProgress {
  total : nat;
  processed : nat;
  successful : nat;
  failed : nat;
  skipped : nat;
  startTime : Z
}.

Definition incr_processed (g : EmbeddingProgress) : EmbeddingProgress :=
  mkProgress (total g) (S (processed g)) (successful g) (failed g) (skipped g) (startTime g).
Definition incr_successful (g : EmbeddingProgress) : EmbeddingProgress :=
  mkProgress (total g) (processed g) (S (successful g)) (failed g) (skipped g) (startTime g).
Definition incr_failed (g : EmbeddingProgress) : EmbeddingProgress :=
  mkProgress (total g) (processed g) (successful g) (S (failed g)) (skipped g) (startTime g).
Definition incr_skipped (g : EmbeddingProgress) : EmbeddingProgress :=
  mkProgress (total g) (processed g) (successful g) (failed g) (S (skipped g)) (startTime g).

(** [successful + failed + skipped] *)
Definition tally (g : EmbeddingProgress) : nat :=
  (successful g + failed g + skipped g)%nat.

(** What the environment does while the job runs, item by item (items
    are numbered by the value of [progress.processed] when they start). *)
Record JobEnv := mkJobEnv {
  setup_throws : bool;              (* model check, index init, stats, getAllProducts *)
  create_job_throws : bool;         (* dbService.createEmbeddingJob *)
  job_write_throws : nat -> bool;   (* updateEmbeddingJob when [processed = n] *)
  final_throws : bool;              (* closing statistics and job update *)
  item_faults : nat -> Faults;
  item_suffix : nat -> string;      (* time-and-random part of a generated vector id *)
  clock : nat -> Z
}.

Inductive JobOutcome :=
| NothingToDo
| JobCompleted (g : EmbeddingProgress)
| JobAborted.

Section Job.
Variable ollama_embeddings : string -> list Q.
(** How a price is printed inside a template string. *)
Variable show_number : Q -> string.

(** The comprehensive text of the bulk job. *)
Definition createProductEmbeddingText (p : Product) : string :=
  let parts :=
    ([name p; Js.or_empty (description p); Js.or_empty (category p);
      Js.or_empty (brand p)]
     ++ tags p
     ++ [Js.or_empty (searchKeywords p); "SKU: " +:+ sku p;
         "Price: $" +:+ show_number (price p)])%list in
  Js.trim
    (Js.join " "
       (filter (fun part => (0 <? String.length (Js.trim part))%nat = true) parts)).

(** The statements of [processProductEmbedding] inside its [try]; the
    value is the updated progress record. *)
Definition embedProduct (F : Faults) (now : Z) (suffix : string)
    (product : Product) (progress : EmbeddingProgress) : Eff EmbeddingProgress :=
  if negb (isActive product) || (quantity product <=? 0) then
    ret (incr_skipped progress)
  else
    let embeddingText := createProductEmbeddingText product in
    if (String.length (Js.trim embeddingText) <? 10)%nat then
      ret (incr_skipped progress)
    else
      await embedding <- generateEmbedding ollama_embeddings F embeddingText;
      match embedding with
      | [] => throw
      | _ =>
          await product' <-
            (if negb (Js.truthy (pineconeId product)) then
               let vid := "product_" +:+ suffix in
               await_ db_updateProduct F now (id product) (PatchPineconeId vid);
               ret (set_pineconeId (updatedAt product) vid product)
             else ret product);
          await_ upsertProduct F product' embedding;
          await_ db_markProductEmbedded F now (id product) (pineconeId product');
          ret (incr_successful progress)
      end.

(** [processProductEmbedding(product, progress)]: never rejects. *)
Definition processProductEmbedding (F : Faults) (now : Z) (suffix : string)
    (product : Product) (progress : EmbeddingProgress) : Eff EmbeddingProgress :=
  try_catch (embedProduct F now suffix product progress)
            (ret (incr_failed progress)).

Definition job_write (throws : bool) (jid : string) (patch : JobPatch) : Eff unit :=
  fun w =>
    if throws then (w, None)
    else match updateEmbeddingJob jid patch (jobs w) with
         | Some (js, _) => (with_jobs js w, Some tt)
         | None => (w, None)
         end.

Definition batchSize : nat := 5.

(** [for (const product of batch) { ... }] *)
Fixpoint process_batch (env : JobEnv) (jid : string) (batch : list Product)
    (progress : EmbeddingProgress) : Eff EmbeddingProgress :=
  match batch with
  | [] => ret progress
  | product :: rest =>
      let n := processed progress in
      await progress1 <-
        processProductEmbedding (item_faults env n) (clock env n)
          (item_suffix env n) product progress;
      let progress2 := incr_processed progress1 in
      await_ (if (processed progress2 mod 10 =? 0)%nat
              then job_write (job_write_throws env (processed progress2)) jid
                     (mkJobPatch None (Some (processed progress2)) None None)
              else ret tt);
      process_batch env jid rest progress2
  end.

(** [for (let i = 0; i < allProducts.length; i += batchSize)]; every
    turn advances [i], so [length allProducts] turns are enough. *)
Fixpoint batches (fuel : nat) (env : JobEnv) (jid : string) (i : nat)
    (allProducts : list Product) (progress : EmbeddingProgress)
    : Eff EmbeddingProgress :=
  match fuel with
  | O => ret progress
  | S fuel' =>
      if (i <? length allProducts)%nat then
        let batch := take batchSize (drop i allProducts) in
        await progress' <- process_batch env jid batch progress;
        batches fuel' env jid (i + batchSize)%nat allProducts progress'
      else ret progress
  end.

(** The part of [generateFullEmbeddings] after the job row exists. *)
Definition run_job (env : JobEnv) (jid : string) (allProducts : list Product)
    (startTime : Z) : Eff EmbeddingProgress :=
  let progress := mkProgress (length allProducts) 0 0 0 0 startTime in
  await_ job_write (job_write_throws env 0) jid
           (mkJobPatch (Some RUNNING) None None None);
  await done <- batches (length allProducts) env jid 0 allProducts progress;
  await_ (fun w => if final_throws env then (w, None) else (w, Some tt));
  await_ job_write false jid
           (mkJobPatch (Some COMPLETED) (Some (processed done)) None
              (Some (clock env (processed done))));
  ret done.

Definition fetch_options : ListOptions :=
  mkListOptions (Some true) (Some false) None (Some (100 * 100)%nat) None.

(** [generateFullEmbeddings()]: [jid] is the id given to the job row.
    On a fatal error the job row, if created, is marked FAILED and the
    error is rethrown ([JobAborted]). *)
Definition generateFullEmbeddings (env : JobEnv) (jid : string)
    (startTime : Z) (w : World) : World * JobOutcome :=
  if setup_throws env then (w, JobAborted)
  else
    let allProducts := getAllProducts fetch_options (db w) in
    match allProducts with
    | [] => (w, NothingToDo)
    | _ =>
        if create_job_throws env then (w, JobAborted)
        else
          match createEmbeddingJob startTime jid BULK_EMBED
                  (Some (length allProducts)) (jobs w) with
          | None => (w, JobAborted)
          | Some (js, _) =>
              match run_job env jid allProducts startTime (with_jobs js w) with
              | (w', Some g) => (w', JobCompleted g)
              | (w', None) =>
                  (fst (job_write false jid
                          (mkJobPatch (Some FAILED) None
                             (Some "Unknown error") (Some startTime)) w'),
                   JobAborted)
              end
          end
    end.
End Job.

End BulkJob.

(** ** Conversational router ([agents/ecommerce-agent.ts]) *)

Module Agent.

Definition searchKeywords : list string :=
  ["find"; "search"; "looking for"; "need"; "want"; "show me"; "do you have";
   "available"; "sell"; "products"; "items"; "buy"; "purchase"; "browse"].

Definition inventoryKeywords : list string :=
  ["in stock"; "available"; "inventory"; "quantity"; "how many";
   "stock level"; "out of stock"; "sold out"].

Definition requiresProductSearch (message : string) : bool :=
  let lowerMessage := Js.toLowerCase message in
  existsb (fun keyword => Js.includes lowerMessage keyword) searchKeywords.

Definition requiresInventoryCheck (message : string) : bool :=
  let lowerMessage := Js.toLowerCase message in
  existsb (fun keyword => Js.includes lowerMessage keyword) inventoryKeywords.

(** The three handlers of [processMessage]. *)
Inductive Handler :=
| handleProductSearch     (* runs the product-search tool *)
| handleInventoryCheck    (* runs the inventory-check tool *)
| handleGeneralChat.      (* plain chat completion *)

Definition uses_tool (h : Handler) : bool :=
  match h with
  | handleGeneralChat => false
  | _ => true
  end.

(** The [if / else if / else] of [processMessage]. *)
Definition dispatch (userMessage : string) : Handler :=
  let needsProductSearch := requiresProductSearch userMessage in
  let needsInventoryCheck := requiresInventoryCheck userMessage in
  if needsProductSearch then handleProductSearch
  else if needsInventoryCheck then handleInventoryCheck
  else handleGeneralChat.

Inductive Role := user | assistant.

Record Turn := mkTurn { role : Role; content : string }.

Section Conversation.
(** The text a handler answers with (each handler catches its own
    errors and answers with a fixed apology). *)
Variable respond : Handler -> string -> string.

(** [processMessage(userMessage)] on the conversation history. *)
Definition processMessage (history : list Turn) (userMessage : string)
    : list Turn * string :=
  let h1 := (history ++ [mkTurn user userMessage])%list in
  let response := respond (dispatch userMessage) userMessage in
  let h2 := (h1 ++ [mkTurn assistant response])%list in
  let h3 := if (20 <? length h2)%nat
            then drop (length h2 - 16)%nat h2
            else h2 in
  (h3, response).
End Conversation.

End Agent.

(** ** Sample data used to exercise the model *)

Module Examples.
Import Catalog Pinecone Services.

Definition demo_embed (text : string) : list Q :=
  [inject_Z (Z.of_nat (String.length text)); 1%Q].

(** An inner product stands in for the index metric. *)
Definition demo_similarity (a b : list Q) : Q :=
  foldr Qplus 0%Q (zip_with Qmult a b).

Definition demo_show (q : Q) : string := "25".

Definition no_intent (query : string) : Search.SearchIntent :=
  Search.mkIntent None None None None.

Definition lamp : ProductData :=
  mkProductData "Desk Lamp" (Some "Warm light") "LAMP-1" (25 # 1) 0
    (Some "Home") (Some "Lumo") None (Some ["lamp"]) None.

(** The row [createProduct] stores for [lamp]: quantity 0, active. *)
Definition lamp_row : Product :=
  mkProduct "p1" "Desk Lamp" (Some "Warm light") "LAMP-1" (25 # 1) 0
    (Some "Home") (Some "Lumo") None (Some "product_1_abc") false None true
    ["lamp"] None 0 0.

(** The same row after [updateInventory("p1", 0)] and after
    [updateInventory("p1", 25)]. *)
Definition lamp_sold_out : Product := set_inventory 1 0 lamp_row.
Definition lamp_in_stock : Product := set_inventory 1 25 lamp_row.

Definition mug_row : Product :=
  mkProduct "p2" "Mug" None "MUG-1" (8 # 1) 12
    (Some "Home") None None None false None true [] None 0 3.

Definition chair_row : Product :=
  mkProduct "p3" "Chair" (Some "Oak") "CHAIR-1" (90 # 1) 4
    (Some "Home") (Some "Lumo") None (Some "product_3_xyz") false None true
    ["oak"] None 0 2.

Definition world_of (p : Product) : World :=
  mkWorld {[ id p := p ]} ∅ ∅ [].

(** Three active rows: one without stock, two with stock. *)
Definition shop : World :=
  mkWorld (<["p1" := lamp_row]> (<["p2" := mug_row]> {[ "p3" := chair_row ]}))
    ∅ ∅ [].

Definition provider_down : Faults :=
  mkFaults false false false false true false false false.

(** A run in which the embedding provider fails on the second item. *)
Definition shaky_run : BulkJob.JobEnv :=
  BulkJob.mkJobEnv false false (fun _ => false) false
    (fun n => if Nat.eqb n 1 then provider_down else no_faults)
    (fun n => "9_zzz") (fun n => 10 + Z.of_nat n).

(** An index holding two records with metadata, one of them without
    stock. *)
Definition lamp_md (q : Z) : ProductMetadata :=
  mkMetadata "p1" "Desk Lamp" (Some "Warm light") (25 # 1) q
    (Some "Home") (Some "Lumo") "LAMP-1" true.

Definition shelf : World :=
  mkWorld ∅
    (<["v1" := mkRecord [1%Q; 0%Q] (Some (lamp_md 25))]>
       {[ "v2" := mkRecord [1%Q; 0%Q] (Some (lamp_md 0)) ]})
    ∅ [].

Definition lamp_search : Search.ProductSearchInput :=
  Search.mkSearchInput "lamp" 10 None None None None true.

Definition home_filter : SearchOptions :=
  mkSearchOptions (Some 10%nat) (Some (6 # 10)%Q)
    (Some {[ "category" := cond_eq (VStr "Home") ]}) None.

End Examples.

(** ** Catalog queries ([lib/database.ts]) *)

Module CatalogQueries.
Import Catalog.

(** The rows a [findMany] ranges over. *)
Definition rows (db : gmap string Product) : list Product :=
  snd <$> map_to_list db.

(** Rows are stored under their own id. *)
Definition keyed_by_id (db : gmap string Product) : Prop :=
  forall k p, db !! k = Some p -> id p = k.

(** The [@unique] constraint on [sku]. *)
Definition unique_skus (db : gmap string Product) : Prop :=
  forall k1 k2 p1 p2,
    db !! k1 = Some p1 -> db !! k2 = Some p2 -> sku p1 = sku p2 -> k1 = k2.

Definition catalog_ok (db : gmap string Product) : Prop :=
  keyed_by_id db /\ unique_skus db.

(** [getProductBySku(sku)]: [findUnique({ where: { sku } })]. *)
Definition getProductBySku (s : string) (db : gmap string Product) : option Product :=
  head (filter (fun p => sku p = s) (rows db)).

(** [getLowStockProducts(threshold)]:
    [where: { quantity: { lt: threshold }, isActive: true }]. *)
Definition getLowStockProducts (threshold : Z) (db : gmap string Product) : list Product :=
  filter (fun p => quantity p < threshold /\ isActive p = true) (rows db).

(** [getOutOfStockProducts()]: [where: { quantity: { lte: 0 } }]. *)
Definition getOutOfStockProducts (db : gmap string Product) : list Product :=
  filter (fun p => quantity p <= 0) (rows db).

Record ProductStats := mkStats {
  totalProducts : nat;
  activeProducts : nat;
  productsWithEmbeddings : nat;
  lowStockProducts : nat;
  outOfStockProducts : nat;
  embeddingCoverage : Q
}.

(** [getProductStats()]; [threshold] is
    [parseInt(process.env.LOW_STOCK_THRESHOLD || '5')]. *)
Definition getProductStats (threshold : Z) (db : gmap string Product) : ProductStats :=
  let totalProducts := length (rows db) in
  let activeProducts := length (filter (fun p => isActive p = true) (rows db)) in
  let productsWithEmbeddings :=
    length (filter (fun p => hasEmbedding p = true) (rows db)) in
  let lowStockProducts :=
    length (filter (fun p => quantity p < threshold /\ 0 < quantity p) (rows db)) in
  let outOfStockProducts := length (filter (fun p => quantity p <= 0) (rows db)) in
  mkStats totalProducts activeProducts productsWithEmbeddings lowStockProducts
    outOfStockProducts
    (if (0 <? totalProducts)%nat
     then (inject_Z (Z.of_nat productsWithEmbeddings)
           / inject_Z (Z.of_nat totalProducts) * 100)%Q
     else 0%Q).

(** The order of [Array.prototype.sort()] on strings. *)
Definition str_le (a b : string) : Prop := String.leb a b = true.

#[global] Instance str_le_dec (a b : string) : Decision (str_le a b) :=
  bool_eq_dec _ _.

(** [findMany({ where: { <field>: { not: null }, isActive: true },
                select, distinct })] followed by
    [.map(p => p.<field>).filter(Boolean).sort()]. *)
Definition distinct_values (field : Product -> option string)
    (db : gmap string Product) : list string :=
  merge_sort str_le
    (filter (fun s => s <> "")
       (remove_dups
          (omap field (filter (fun p => isActive p = true) (rows db))))).

Definition getCategories (db : gmap string Product) : list string :=
  distinct_values category db.

Definition getBrands (db : gmap string Product) : list string :=
  distinct_values brand db.

End CatalogQueries.

(** ** Filtered searches ([lib/pinecone-service.ts]) *)

Module PineconeQueries.
Import Catalog Pinecone Services.

Section Queries.
Variable similarity : list Q -> list Q -> Q.

(** [searchByCategory(queryEmbedding, category, topK = 10)] *)
Definition searchByCategory (F : Faults) (queryEmbedding : list Q)
    (category : string) (topK : option nat) : Eff (list SearchResult) :=
  searchProducts similarity F queryEmbedding
    (mkSearchOptions (Some (default 10%nat topK)) None
       (Some {[ "category" := cond_eq (VStr category) ]}) None).

(** [searchByPriceRange(queryEmbedding, minPrice, maxPrice, topK = 10)] *)
Definition searchByPriceRange (F : Faults) (queryEmbedding : list Q)
    (minPrice maxPrice : Q) (topK : option nat) : Eff (list SearchResult) :=
  searchProducts similarity F queryEmbedding
    (mkSearchOptions (Some (default 10%nat topK)) None
       (Some {[ "price" := cond_range (Some minPrice) (Some maxPrice) ]}) None).

(** [searchByBrand(queryEmbedding, brand, topK = 10)] *)
Definition searchByBrand (F : Faults) (queryEmbedding : list Q)
    (brand : string) (topK : option nat) : Eff (list SearchResult) :=
  searchProducts similarity F queryEmbedding
    (mkSearchOptions (Some (default 10%nat topK)) None
       (Some {[ "brand" := cond_eq (VStr brand) ]}) None).
End Queries.

End PineconeQueries.

(** ** Search tool: reported filters and suggestions
       ([tools/product-search.ts]) *)

Module SearchExtras.
Import Catalog Pinecone Services Search CatalogQueries.

(** The same search input with another [inStockOnly] flag. *)
Definition with_inStockOnly (b : bool) (input : ProductSearchInput) : ProductSearchInput :=
  mkSearchInput (query input) (maxResults input) (s_category input)
    (minPrice input) (maxPrice input) (s_brand input) b.

(** [a || b] on possibly absent numbers. *)
Definition num_or (a b : option Q) : option Q :=
  if truthy_num a then a else b.

(** The [appliedFilters] object echoed in the result. *)
Record AppliedFilters := mkApplied {
  a_category : option string;
  a_priceRange : option (option Q * option Q);
  a_brand : option string
}.

Definition appliedFilters (input : ProductSearchInput) (intent : SearchIntent)
    : AppliedFilters :=
  mkApplied
    (if Js.truthy (s_category input) || Js.truthy (si_category intent)
     then Js.or_else (s_category input) (si_category intent) else None)
    (if bool_decide (is_Some (minPrice input)) || bool_decide (is_Some (maxPrice input))
        || bool_decide (is_Some (si_priceRange intent))
     then Some (num_or (minPrice input) (si_priceRange intent ≫= pr_min),
                num_or (maxPrice input) (si_priceRange intent ≫= pr_max))
     else None)
    (if Js.truthy (s_brand input) || Js.truthy (si_brand intent)
     then Js.or_else (s_brand input) (si_brand intent) else None).

(** [generateSearchSuggestions(originalQuery, searchIntent)]: [lookup_throws]
    says whether reading the categories and brands rejects (the function
    then answers with no suggestion). *)
Definition generateSearchSuggestions (lookup_throws : bool)
    (originalQuery : string) (intent : SearchIntent)
    (db : gmap string Product) : list string :=
  if lookup_throws then []
  else
    let categories := getCategories db in
    let brands := getBrands db in
    let s1 :=
      if negb (Js.truthy (si_category intent)) && (0 <? length categories)%nat
      then (fun cat => originalQuery +:+ " in " +:+ cat) <$> take 3 categories
      else [] in
    let s2 :=
      if negb (Js.truthy (si_brand intent)) && (0 <? length brands)%nat
      then (fun brand => brand +:+ " " +:+ originalQuery) <$> take 2 brands
      else [] in
    let s3 :=
      if negb (bool_decide (is_Some (si_priceRange intent)))
      then [originalQuery +:+ " under $50"; originalQuery +:+ " under $100";
            "affordable " +:+ originalQuery]
      else [] in
    take 5 (s1 ++ s2 ++ s3)%list.

End SearchExtras.

(** ** Inventory check and bulk update summary
       ([tools/inventory-management.ts]) *)

Module InventoryCheck.
Import Catalog Pinecone Services Inventory CatalogQueries.

Record InventoryCheckInput := mkCheckInput {
  c_productId : option string;
  c_sku : option string;
  c_threshold : Z
}.

Record CheckedProduct := mkChecked {
  cp_id : string;
  cp_name : string;
  cp_sku : string;
  cp_quantity : Z;
  cp_isActive : bool;
  isLowStock : bool;
  isOutOfStock : bool
}.

Record LowStockEntry := mkLowStock {
  ls_id : string;
  ls_name : string;
  ls_sku : string;
  ls_quantity : Z
}.

Record InventoryCheckResult := mkCheckResult {
  ck_success : bool;
  ck_product : option CheckedProduct;
  ck_lowStockProducts : option (list LowStockEntry);
  ck_error : option string
}.

(** [executeInventoryCheck(input)]; [read_throws] says whether the
    catalog read rejects (the message of the exception is kept
    abstract). *)
Definition executeInventoryCheck (read_throws : bool) (input : InventoryCheckInput)
    (db : gmap string Product) : InventoryCheckResult :=
  if read_throws then
    mkCheckResult false None None (Some "Unknown inventory check error")
  else if Js.truthy (c_productId input) || Js.truthy (c_sku input) then
    let product :=
      if Js.truthy (c_productId input)
      then getProduct (Js.or_empty (c_productId input)) db
      else getProductBySku (Js.or_empty (c_sku input)) db in
    match product with
    | None => mkCheckResult false None None (Some "Product not found")
    | Some product =>
        mkCheckResult true
          (Some (mkChecked (id product) (name product) (sku product)
                   (quantity product) (isActive product)
                   ((quantity product <? c_threshold input) && (0 <? quantity product))
                   (quantity product <=? 0)))
          None None
    end
  else
    let lowStockProducts := getLowStockProducts (c_threshold input) db in
    mkCheckResult true None
      (Some ((fun product => mkLowStock (id product) (name product) (sku product)
                               (quantity product)) <$> lowStockProducts))
      None.

#[global] Instance EmbeddingAction_eq_dec : EqDecision EmbeddingAction.
Proof. solve_decision. Defined.

(** A result that some call of [executeInventoryUpdate] settled with. *)
Definition settled_result (r : InventoryUpdateResult) : Prop :=
  exists ollama_embeddings threshold F now input w,
    r = snd (executeInventoryUpdate ollama_embeddings threshold F now input w).

Record BulkSummary := mkBulkSummary {
  b_total : nat;
  b_successful : nat;
  b_failed : nat;
  b_embeddingsUpdated : nat
}.

(** [result.statusChange?.embeddingAction !== 'none']: a result without
    [statusChange] compares [undefined] with ['none']. *)
Definition counts_as_embedding_update (r : InventoryUpdateResult) : bool :=
  match statusChange r with
  | Some sc => match embeddingAction sc with none => false | _ => true end
  | None => true
  end.

(** The bookkeeping of [executeBulkInventoryUpdate], given the results each
    batch settled with (the updates of one batch run concurrently and are
    not modelled here). *)
Definition bulk_summary (batchResults : list (list InventoryUpdateResult)) : BulkSummary :=
  let results := concat batchResults in
  let embeddingsUpdated :=
    foldl (fun acc batch =>
             (acc + length (filter (fun r => counts_as_embedding_update r = true) batch))%nat)
          0%nat batchResults in
  mkBulkSummary (length results)
    (length (filter (fun r => success r = true) results))
    (length (filter (fun r => success r = false) results))
    embeddingsUpdated.

End InventoryCheck.

(** ** More sample data *)

Module MoreExamples.
Import Catalog Pinecone Services.

Definition hose_row : Product :=
  mkProduct "p4" "Hose" None "HOSE-1" (15 # 1) 7
    (Some "Garden") (Some "Acme") None (Some "product_4_h") false None true [] None 0 4.

Definition kite_row : Product :=
  mkProduct "p5" "Kite" None "KITE-1" (12 # 1) 9
    (Some "Toys") (Some "Acme") None (Some "product_5_k") false None true [] None 0 5.

(** Three categories (Garden, Home, Toys) and two brands (Acme, Lumo). *)
Definition bazaar : gmap string Product :=
  <["p1" := Examples.lamp_in_stock]>
    (<["p4" := hose_row]> {[ "p5" := kite_row ]}).

Definition zero_floor_search : Search.ProductSearchInput :=
  Search.mkSearchInput "lamp" 10 None (Some 0%Q) None None true.

Definition budget_intent : Search.SearchIntent :=
  Search.mkIntent None (Some (Search.mkPriceRange (Some (50 # 1)) (Some (100 # 1))))
    None None.

(** The results of one batch: a known and an unknown product. *)
Definition mixed_batch : list (list Inventory.InventoryUpdateResult) :=
  [[snd (Inventory.executeInventoryUpdate Examples.demo_embed 5 no_faults 7
           (Inventory.mkUpdateInput "p2" 20 true) Examples.shop);
    snd (Inventory.executeInventoryUpdate Examples.demo_embed 5 no_faults 8
           (Inventory.mkUpdateInput "nope" 3 true) Examples.shop)]].

End MoreExamples.

(** ** Conversations and the search endpoint
       ([agents/ecommerce-agent.ts], [index.ts]) *)

Module Conversations.
Import Agent.

Section History.
Variable respond : Handler -> string -> string.

End History.




(** The message [POST /api/search] hands to [processMessage]:
    [`Find ${query}`]. *)
Definition search_endpoint_message (query : string) : string :=
  "Find " +:+ query.

End Conversations.

(** ** Inventory agent ([agents/inventory-agent.ts]) *)

Module InventoryAgent.
Import Catalog Pinecone Services CatalogQueries.
Local Open Scope eff_scope.

Record InventoryAgentConfig := mkConfig {
  lowStockThreshold : Z;
  autoEmbeddingManagement : bool;
  batchSize : nat
}.

(** The configuration the constructor sets; [threshold] is the value
    read from [LOW_STOCK_THRESHOLD] (5 when unset). *)
Definition initial_config (threshold : Z) : InventoryAgentConfig :=
  mkConfig threshold true 50.

(** What the environment does while a loop runs: the faults and the
    clock reading met by the item with a given number. *)
Record AgentEnv := mkAgentEnv {
  read_throws : bool;               (* the catalog listing before the loops *)
  item_faults : nat -> Faults;
  clock : nat -> Z
}.

Definition calm : AgentEnv := mkAgentEnv false (fun _ => no_faults) (fun n => Z.of_nat n).

Section Loops.
Context {C : Type}.
(** The statements run for one product, [try] and [catch] included: item
    number, product, counters. *)
Variable body : nat -> Product -> C -> World -> World * C.

(** [for (const product of batch) { try { ... } catch { ... } }]; the
    first item has number [n]. *)
Fixpoint for_each (n : nat) (batch : list Product) (c : C) (w : World)
    : World * C :=
  match batch with
  | [] => (w, c)
  | product :: rest =>
      let '(w', c') := body n product c w in
      for_each (S n) rest c' w'
  end.

(** [for (let i = 0; i < products.length; i += batchSize)] with
    [products.slice(i, i + batchSize)]; [None] when the loop is still
    running after [fuel] turns.  Items are numbered from [base]. *)
Fixpoint in_batches (fuel : nat) (batchSize base i : nat)
    (products : list Product) (c : C) (w : World) : option (World * C) :=
  if (i <? length products)%nat then
    match fuel with
    | O => None
    | S fuel' =>
        let batch := take batchSize (drop i products) in
        let '(w', c') := for_each (base + i) batch c w in
        in_batches fuel' batchSize base (i + batchSize) products c' w'
    end
  else Some (w, c).
End Loops.

(** The stored quantities are the same in both worlds. *)
Definition same_quantities (w w' : World) : Prop :=
  forall k, quantity <$> (db w' !! k) = quantity <$> (db w !! k).

(** The stored quantities and activity flags are the same in both
    worlds. *)
Definition same_stock (w w' : World) : Prop :=
  forall k, (fun p => (quantity p, isActive p)) <$> (db w' !! k)
            = (fun p => (quantity p, isActive p)) <$> (db w !! k).

(** Quantities and jobs kept and no vector added. *)
Definition only_unembeds (w w' : World) : Prop :=
  same_quantities w w' /\ index w' ⊆ index w /\ jobs w' = jobs w.

(** *** [performLowStockMaintenance] *)

Record MaintenanceResult := mkMaintenance {
  mt_success : bool;
  mt_processed : nat;
  mt_deactivated : nat;
  mt_embeddingsRemoved : nat;
  mt_message : string
}.

Section Agent.
(** How a count is printed inside a template string. *)
Variable show_count : nat -> string.

(** [product.quantity <= 0 && product.isActive] *)
Definition to_deactivate (product : Product) : bool :=
  (quantity product <=? 0) && isActive product.

(** [product.quantity < threshold && product.hasEmbedding &&
    product.pineconeId] *)
Definition to_unembed (threshold : Z) (product : Product) : bool :=
  (quantity product <? threshold) && hasEmbedding product
  && Js.truthy (pineconeId product).

(** The body of the inner loop; the counters are (deactivated,
    embeddingsRemoved).  An exception leaves the loop body at once, so a
    counter raised before it stays raised. *)
Definition maintain_product (threshold : Z) (env : AgentEnv) (n : nat)
    (product : Product) (c : nat * nat) (w : World) : World * (nat * nat) :=
  let F := item_faults env n in
  let now := clock env n in
  let '(deactivated, embeddingsRemoved) := c in
  match (if to_deactivate product
         then await _ <- db_updateProduct F now (id product) (PatchIsActive false);
              ret tt
         else ret tt) w with
  | (w1, None) => (w1, (deactivated, embeddingsRemoved))
  | (w1, Some _) =>
      let deactivated1 :=
        if to_deactivate product then S deactivated else deactivated in
      match (if to_unembed threshold product
             then await_ deleteProduct F (Js.or_empty (pineconeId product));
                  await _ <- db_markProductNotEmbedded F now (id product);
                  ret tt
             else ret tt) w1 with
      | (w2, None) => (w2, (deactivated1, embeddingsRemoved))
      | (w2, Some _) =>
          (w2, (deactivated1,
                if to_unembed threshold product
                then S embeddingsRemoved else embeddingsRemoved))
      end
  end.

(** Not in the source: the row a fault-free run of the loop body leaves
    for [product] (lemma [maintain_product_calm]). *)
Definition maintained (threshold now : Z) (product : Product) : Product :=
  let p1 := if to_deactivate product
            then set_isActive now false product else product in
  if to_unembed threshold product then set_not_embedded now p1 else p1.

(** [performLowStockMaintenance()]; [None] when the batch loop does not
    come to an end. *)
Definition performLowStockMaintenance (config : InventoryAgentConfig)
    (env : AgentEnv) (w : World) : option (World * MaintenanceResult) :=
  if read_throws env
  then Some (w, mkMaintenance false 0 0 0 "Failed to perform low stock maintenance")
  else
    let lowStockProducts := getLowStockProducts (lowStockThreshold config) (db w) in
    match in_batches (maintain_product (lowStockThreshold config) env)
            (length lowStockProducts) (batchSize config) 0 0
            lowStockProducts (0%nat, 0%nat) w with
    | Some (w', (deactivated, embeddingsRemoved)) =>
        Some (w', mkMaintenance true (length lowStockProducts)
                    deactivated embeddingsRemoved
                    ("Processed " +:+ show_count (length lowStockProducts)
                     +:+ " low stock products. Deactivated: "
                     +:+ show_count deactivated
                     +:+ ", Embeddings removed: "
                     +:+ show_count embeddingsRemoved))
    | None => None
    end.

(** *** [syncAllEmbeddings] *)

Record SyncResult := mkSync {
  sy_success : bool;
  sy_processed : nat;
  sy_added : nat;
  sy_updated : nat;
  sy_removed : nat;
  sy_message : string
}.

Variable ollama_embeddings : string -> list Q.

(** The agent's [createProductEmbeddingText] has the body of the one in
    the inventory tool. *)
Definition createProductEmbeddingText (product : Product) : string :=
  Inventory.createProductEmbeddingText product.

(** The body of the first inner loop; the counters are (added,
    updated). *)
Definition sync_active (env : AgentEnv) (n : nat) (product : Product)
    (c : nat * nat) (w : World) : World * (nat * nat) :=
  let F := item_faults env n in
  let now := clock env n in
  let '(added, updated) := c in
  match (let embeddingText := createProductEmbeddingText product in
         await embedding <- generateEmbedding ollama_embeddings F embeddingText;
         await_ upsertProduct F product embedding;
         await _ <- db_markProductEmbedded F now (id product) (pineconeId product);
         ret tt) w with
  | (w', None) => (w', (added, updated))
  | (w', Some _) =>
      (w', if negb (hasEmbedding product)
           then (S added, updated) else (added, S updated))
  end.

(** The body of the second inner loop; the counter is [removed]. *)
Definition sync_inactive (env : AgentEnv) (n : nat) (product : Product)
    (removed : nat) (w : World) : World * nat :=
  let F := item_faults env n in
  let now := clock env n in
  if hasEmbedding product && Js.truthy (pineconeId product) then
    match (await_ deleteProduct F (Js.or_empty (pineconeId product));
           await _ <- db_markProductNotEmbedded F now (id product);
           ret tt) w with
    | (w', None) => (w', removed)
    | (w', Some _) => (w', S removed)
    end
  else (w, removed).

Definition active_options : ListOptions :=
  mkListOptions (Some true) (Some true) None None None.

Definition inactive_options : ListOptions :=
  mkListOptions (Some false) None None None None.

(** [syncAllEmbeddings()]: both listings are read before the first loop;
    the items of the second loop are numbered after those of the
    first. *)
Definition syncAllEmbeddings (config : InventoryAgentConfig)
    (env : AgentEnv) (w : World) : option (World * SyncResult) :=
  if read_throws env
  then Some (w, mkSync false 0 0 0 0 "Failed to sync embeddings")
  else
    let activeProducts := getAllProducts active_options (db w) in
    let inactiveProducts := getAllProducts inactive_options (db w) in
    match in_batches (sync_active env) (length activeProducts)
            (batchSize config) 0 0 activeProducts (0%nat, 0%nat) w with
    | None => None
    | Some (w1, (added, updated)) =>
        match in_batches (sync_inactive env) (length inactiveProducts)
                (batchSize config) (length activeProducts) 0
                inactiveProducts 0%nat w1 with
        | None => None
        | Some (w2, removed) =>
            let total := (length activeProducts + length inactiveProducts)%nat in
            Some (w2, mkSync true total added updated removed
                        ("Embedding sync complete. Processed: " +:+ show_count total
                         +:+ ", Added: " +:+ show_count added
                         +:+ ", Updated: " +:+ show_count updated
                         +:+ ", Removed: " +:+ show_count removed))
        end
    end.
End Agent.

(** A row taken out of sale while its vector is still in the index. *)
Definition retired_row : Product :=
  mkProduct "p6" "Old Radio" None "RADIO-1" (30 # 1) 0
    (Some "Audio") None None (Some "product_6_r") true (Some 2) false [] None 0 6.

(** One active row with stock and no embedding, one inactive row with an
    embedding. *)
Definition warehouse : World :=
  mkWorld (<["p1" := Examples.lamp_in_stock]> {[ "p6" := retired_row ]})
    {[ "product_6_r" := mkRecord [1%Q; 0%Q] None ]} ∅ [].

(** Stands in for the printing of a count. *)
Definition demo_count (n : nat) : string := "n".

End InventoryAgent.

(** ** The job row of the bulk job ([scripts/full-embeddings.ts]) *)

Module JobRows.
Import Catalog Services.


End JobRows.

(** ** Seeding ([scripts/seed.ts]) *)

Module Seed.
Import Catalog CatalogQueries.

(** What the environment does for the item with a given number. *)
Record SeedEnv := mkSeedEnv {
  lookup_throws : nat -> bool;      (* dbService.getProductBySku *)
  create_throws : nat -> bool;      (* dbService.createProduct, other than a
                                       violated uniqueness constraint *)
  new_id : nat -> string;           (* the generated cuid() *)
  new_suffix : nat -> string;       (* time-and-random part of the vector id *)
  seed_clock : nat -> Z;
  summary_throws : bool             (* the statistics read for the summary *)
}.

(** The body of [for (const productData of sampleProducts)]; the counters
    are (created, skipped).  An exception is caught and logged. *)
Definition seed_product (env : SeedEnv) (n : nat) (productData : ProductData)
    (c : nat * nat) (db : gmap string Product) : gmap string Product * (nat * nat) :=
  let '(created, skipped) := c in
  if lookup_throws env n then (db, (created, skipped))
  else
    match getProductBySku (d_sku productData) db with
    | Some existing => (db, (created, S skipped))
    | None =>
        if create_throws env n then (db, (created, skipped))
        else
          match createProduct (seed_clock env n) (new_id env n) (new_suffix env n)
                  productData db with
          | Some (db', product) => (db', (S created, skipped))
          | None => (db, (created, skipped))
          end
    end.

Fixpoint seed_loop (env : SeedEnv) (n : nat) (products : list ProductData)
    (c : nat * nat) (db : gmap string Product) : gmap string Product * (nat * nat) :=
  match products with
  | [] => (db, c)
  | productData :: rest =>
      let '(db', c') := seed_product env n productData c db in
      seed_loop env (S n) rest c' db'
  end.

(** [seedDatabase()] over the seed data [sampleProducts]: the counters of
    the logged summary, or [None] when the closing statistics read
    rejects and the error is rethrown. *)
Definition seedDatabase (env : SeedEnv) (sampleProducts : list ProductData)
    (db : gmap string Product) : gmap string Product * option (nat * nat) :=
  let '(db', c) := seed_loop env 0 sampleProducts (0%nat, 0%nat) db in
  if summary_throws env then (db', None) else (db', Some c).

(** A run in which nothing fails; ids and suffixes are numbered. *)
Definition smooth (prefix : string) : SeedEnv :=
  mkSeedEnv (fun _ => false) (fun _ => false)
    (fun n => prefix +:+ String (ascii_of_nat (48 + n)) "")
    (fun n => prefix +:+ String (ascii_of_nat (48 + n)) "")
    (fun n => Z.of_nat n) false.

Definition mug : ProductData :=
  mkProductData "Mug" None "MUG-1" (8 # 1) 12 (Some "Home") None None None None.

End Seed.

(** * Properties *)

(** ** Catalog *)

Section CatalogFacts.
Import Catalog Examples.

Lemma prisma_update_Some rid f (db db' : gmap string Product) p' :
  prisma_update rid f db = Some (db', p') ->
  exists p, db !! rid = Some p /\ p' = f p /\ db' = <[rid := f p]> db.
Proof.
  unfold prisma_update. destruct (db !! rid) as [p|] eqn:E; [|discriminate].
  intros [= <- <-]. eauto.
Qed.

Lemma prisma_update_present rid f (db : gmap string Product) p :
  db !! rid = Some p ->
  prisma_update rid f db = Some (<[rid := f p]> db, f p).
Proof. unfold prisma_update. now intros ->. Qed.

(** [updateInventory] succeeds exactly on the rows that exist. *)
Lemma updateInventory_defined now rid q (db : gmap string Product) :
  is_Some (updateInventory now rid q db) <-> is_Some (db !! rid).
Proof.
  unfold updateInventory, prisma_update.
  destruct (db !! rid); split; intros [x H]; try discriminate; eauto.
Qed.

(** C3.  After a successful [updateInventory(id, q)] the stored row has
    the new quantity and [isActive] equal to [q > 0]. *)
Theorem updateInventory_isActive now rid q (db db' : gmap string Product) p :
  updateInventory now rid q db = Some (db', p) ->
  db' !! rid = Some p /\ quantity p = q /\ isActive p = (0 <? q).
Proof.
  unfold updateInventory. intros H.
  apply prisma_update_Some in H as (p0 & _ & -> & ->).
  split; [apply lookup_insert_eq | split; reflexivity].
Qed.

Lemma updateInventory_isActive_witness :
  let p := set_inventory 7 0 lamp_row in
  let db' : gmap string Product := <["p1" := p]> {["p1" := lamp_row]} in
  db' !! "p1" = Some p /\ quantity p = 0 /\ isActive p = (0 <? 0).
Proof.
  apply (updateInventory_isActive 7 "p1" 0 {["p1" := lamp_row]}).
  reflexivity.
Defined.

Lemma createProduct_Some now rid suffix data (db db' : gmap string Product) p :
  createProduct now rid suffix data db = Some (db', p) ->
  db' = <[rid := p]> db /\
  p = mkProduct rid (d_name data) (d_description data) (d_sku data)
        (d_price data) (d_quantity data) (d_category data) (d_brand data)
        (d_imageUrl data) (Some ("product_" +:+ suffix)) false None true
        (default [] (d_tags data)) (d_searchKeywords data) now now.
Proof.
  unfold createProduct. destruct (row_free _ _ _ _); [|discriminate].
  intros [= <- <-]. split; reflexivity.
Qed.

(** C10.  [createProduct] stores [isActive = true] whatever quantity is
    supplied, so the new row satisfies [isActive == (quantity > 0)] only
    when the quantity is positive (a row created with quantity 0 is
    active); the first [updateInventory] on the row re-establishes the
    equation. *)
Theorem createProduct_isActive_default now rid suffix data
    (db db' : gmap string Product) p :
  createProduct now rid suffix data db = Some (db', p) ->
  db' !! rid = Some p /\ quantity p = d_quantity data /\
  isActive p = true /\ hasEmbedding p = false /\
  (isActive p = (0 <? quantity p) <-> 0 < d_quantity data) /\
  (forall now' q, exists db'' p',
      updateInventory now' rid q db' = Some (db'', p') /\
      isActive p' = (0 <? q)).
Proof.
  intros H. apply createProduct_Some in H as [-> ->]. cbn.
  split; [apply lookup_insert_eq|].
  do 3 (split; [reflexivity|]).
  split; [split|].
  - intros E. symmetry in E. now apply Z.ltb_lt in E.
  - intros E. symmetry. now apply Z.ltb_lt.
  - intros now' q. unfold updateInventory.
    erewrite prisma_update_present by apply lookup_insert_eq.
    eauto.
Qed.

Lemma createProduct_isActive_default_witness :
  exists db' p,
    createProduct 0 "p1" "1_abc" lamp ∅ = Some (db', p) /\
    quantity p = 0 /\ isActive p = true /\
    ~ (isActive p = (0 <? quantity p)).
Proof.
  exists {["p1" := lamp_row]}, lamp_row.
  assert (E : createProduct 0 "p1" "1_abc" lamp ∅
              = Some ({["p1" := lamp_row]}, lamp_row)) by (vm_compute; reflexivity).
  destruct (createProduct_isActive_default _ _ _ _ _ _ _ E)
    as (_ & Hq & Ha & _ & Hinv & _).
  split; [exact E|]. split; [exact Hq|]. split; [exact Ha|].
  intros C. apply Hinv in C. vm_compute in C. discriminate.
Defined.
End CatalogFacts.

(** ** Conversational router *)

Section AgentFacts.
Import Agent.

(** C9 (as the code has it).  A message matching the search keywords is
    handled by the product search, also when it matches the inventory
    keywords as well; one matching only the inventory keywords by the
    inventory check; one matching neither by the plain chat completion.
    The answer of [processMessage] is the answer of that handler. *)
Theorem dispatch_priority message :
  (dispatch message = handleProductSearch
     <-> requiresProductSearch message = true) /\
  (dispatch message = handleInventoryCheck
     <-> requiresProductSearch message = false /\
         requiresInventoryCheck message = true) /\
  (dispatch message = handleGeneralChat
     <-> requiresProductSearch message = false /\
         requiresInventoryCheck message = false) /\
  (forall respond history,
      snd (processMessage respond history message)
      = respond (dispatch message) message).
Proof.
  assert (Hresp : forall respond history,
             snd (processMessage respond history message)
             = respond (dispatch message) message) by reflexivity.
  revert Hresp. unfold dispatch.
  destruct (requiresProductSearch message), (requiresInventoryCheck message);
    intros Hresp; (split; [|split; [|split; [|exact Hresp]]]);
    split; intros H; try reflexivity; try discriminate H;
    try (destruct H; discriminate); auto.
Qed.

(** C9, the claim as written fails: a message that matches both keyword
    sets is not answered by the plain chat completion but by the product
    search tool. *)
Lemma tie_dispatches_to_search :
  requiresProductSearch "Is the desk lamp available?" = true /\
  requiresInventoryCheck "Is the desk lamp available?" = true /\
  dispatch "Is the desk lamp available?" = handleProductSearch /\
  dispatch "Is the desk lamp available?" <> handleGeneralChat /\
  uses_tool (dispatch "Is the desk lamp available?") = true.
Proof. vm_compute. repeat split; congruence. Qed.

(** Messages of the other three kinds. *)
Example dispatch_samples :
  dispatch "show me desk lamps" = handleProductSearch /\
  dispatch "how many are left" = handleInventoryCheck /\
  dispatch "hello there" = handleGeneralChat.
Proof. vm_compute. repeat split. Qed.
End AgentFacts.

(** ** Inventory update *)

Section InventoryFacts.
Import Catalog Pinecone Services Inventory.

Variable ollama_embeddings : string -> list Q.
Variable threshold : Z.

Local Arguments createProductEmbeddingText : simpl never.
Local Arguments Js.truthy : simpl never.
Local Arguments Js.or_empty : simpl never.

(** Case analysis on the innermost scrutinee of the goal. *)
Ltac case_step :=
  match goal with
  | |- context [match ?x with _ => _ end] =>
      lazymatch x with
      | context [match _ with _ => _ end] => fail
      | _ => destruct x eqn:?
      end
  end.

Lemma world_eq d i j c d' i' c' :
  d = d' -> i = i' -> c = c' -> mkWorld d i j c = mkWorld d' i' j c'.
Proof. now intros -> -> ->. Qed.

(** The embedded embedding step does what its net-effect description
    says, in every branch and under every fault. *)
Lemma bestEffortSync_effect F now input cur upd w row :
  db w !! productId input = Some row ->
  bestEffortSync ollama_embeddings threshold F now input cur upd w
  = (mkWorld
       (<[productId input :=
            row_after ollama_embeddings threshold F now input cur upd row]> (db w))
       (index_after ollama_embeddings threshold F input cur upd (index w))
       (jobs w)
       (calls w ++ calls_after ollama_embeddings threshold F input cur upd),
     Some (action_after ollama_embeddings threshold F input cur upd)).
Proof.
  intros Hrow.
  unfold bestEffortSync, syncEmbedding, row_after, index_after, action_after,
    calls_after, chosen_action, upload_lands, embedding_resolves,
    embed_and_upsert, try_catch, bind, ret,
    db_markProductEmbedded, db_markProductNotEmbedded, db_write,
    markProductEmbedded, markProductNotEmbedded, prisma_update,
    generateEmbedding, upsertProduct, deleteProduct, record_call, with_index,
    with_db, index_upsert, index_deleteOne.
  destruct w as [d i j c]; cbn in Hrow |- *.
  repeat (case_step; cbn; rewrite ?Hrow; cbn).
  all: f_equal; apply world_eq; rewrite ?app_nil_r, <- ?app_assoc;
    try reflexivity; try (symmetry; now apply insert_id).
Qed.

(** A call that reaches the catalog write is described by the net effect
    of the embedding step on the updated row. *)
Lemma exec_committed F now input w p :
  get_throws F = false -> update_throws F = false ->
  db w !! productId input = Some p ->
  let u := set_inventory now (in_quantity input) p in
  executeInventoryUpdate ollama_embeddings threshold F now input w
  = (mkWorld
       (<[productId input :=
            row_after ollama_embeddings threshold F now input p u u]> (db w))
       (index_after ollama_embeddings threshold F input p u (index w))
       (jobs w)
       (calls w ++ calls_after ollama_embeddings threshold F input p u),
     mkUpdateResult true (productId input) (quantity p) (in_quantity input)
       (Some (mkStatusChange (isActive p) (isActive u)
                (action_after ollama_embeddings threshold F input p u)))
       None).
Proof.
  intros Hget Hupd Hrow u.
  unfold executeInventoryUpdate, inventoryUpdate, bind, db_getProduct,
    db_updateInventory, db_write, getProduct, updateInventory, prisma_update.
  rewrite Hget, Hupd, Hrow. cbn -[bestEffortSync].
  rewrite Hrow. cbn -[bestEffortSync].
  rewrite (bestEffortSync_effect _ _ _ _ _ _ u) by apply lookup_insert_eq.
  cbn. now rewrite insert_insert_eq.
Qed.

(** A call that does not reach the catalog write changes nothing. *)
Lemma exec_uncommitted F now input w :
  get_throws F = true \/ db w !! productId input = None \/ update_throws F = true ->
  exists msg,
    executeInventoryUpdate ollama_embeddings threshold F now input w
    = (w, failure input msg).
Proof.
  intros H.
  unfold executeInventoryUpdate, inventoryUpdate, bind, db_getProduct,
    db_updateInventory, db_write, getProduct, updateInventory, prisma_update, ret.
  destruct (get_throws F) eqn:Hget; [eauto|].
  destruct (db w !! productId input) as [p|] eqn:Hrow; cbn; [|eauto].
  destruct (update_throws F) eqn:Hupd; cbn; [eauto|].
  destruct H as [H|[H|H]]; discriminate.
Qed.

Lemma exec_cases F input w :
  (exists p, get_throws F = false /\ update_throws F = false /\
             db w !! productId input = Some p)
  \/ (get_throws F = true \/ db w !! productId input = None
      \/ update_throws F = true).
Proof.
  destruct (get_throws F); [tauto|].
  destruct (update_throws F); [tauto|].
  destruct (db w !! productId input) as [p|]; [left; eauto | tauto].
Qed.

(** Rows written by the catalog keep the fields the embedding text is
    computed from. *)
Lemma text_set_inventory n q p :
  createProductEmbeddingText (set_inventory n q p) = createProductEmbeddingText p.
Proof. reflexivity. Qed.
Lemma text_set_embedded n o p :
  createProductEmbeddingText (set_embedded n o p) = createProductEmbeddingText p.
Proof. reflexivity. Qed.
Lemma text_set_not_embedded n p :
  createProductEmbeddingText (set_not_embedded n p) = createProductEmbeddingText p.
Proof. reflexivity. Qed.

Lemma row_after_committed F now input p row :
  let r := row_after ollama_embeddings threshold F now input p row row in
  quantity r = quantity row /\ isActive r = isActive row.
Proof.
  unfold row_after.
  destruct (updateEmbedding input); [|now split].
  destruct (chosen_action _ _ _ _);
    match goal with
    | |- context [if ?b then _ else _] => destruct b
    | _ => idtac
    end;
    now split.
Qed.

(** Applying the net effect a second time, to the row and index the
    first application produced, changes neither the index nor the
    embedding flags. *)
Lemma net_effect_idempotent F now1 now2 input p idx :
  let u := set_inventory now1 (in_quantity input) p in
  let p1 := row_after ollama_embeddings threshold F now1 input p u u in
  let u1 := set_inventory now2 (in_quantity input) p1 in
  index_after ollama_embeddings threshold F input p1 u1
    (index_after ollama_embeddings threshold F input p u idx)
  = index_after ollama_embeddings threshold F input p u idx /\
  embedding_flags (row_after ollama_embeddings threshold F now2 input p1 u1 u1)
  = embedding_flags p1.
Proof.
  intros u p1 u1. subst u p1 u1.
  unfold index_after, row_after, chosen_action, upload_lands, embedding_flags.
  rewrite !text_set_inventory.
  destruct (updateEmbedding input); [|split; reflexivity].
  destruct (in_quantity input <=? 0) eqn:Hout,
           (in_quantity input <? threshold) eqn:Hlow;
    repeat (cbn; rewrite ?(Z.ltb_antisym (in_quantity input) 0), ?Hout, ?Hlow);
    destruct (Js.truthy (pineconeId p)) eqn:Htr,
             (hasEmbedding p) eqn:Hemb,
             (isActive p) eqn:Hact;
    repeat (unfold vector_id; cbn;
            rewrite ?text_set_inventory, ?text_set_embedded, ?text_set_not_embedded,
              ?(Z.ltb_antisym (in_quantity input) 0), ?Hout, ?Hlow, ?Htr, ?Hemb, ?Hact);
    try (split; reflexivity);
    destruct (delete_throws F) eqn:Hdel,
             (mark_throws F) eqn:Hmark,
             (embedding_resolves ollama_embeddings F (createProductEmbeddingText p)) eqn:Hres,
             (upsert_throws F) eqn:Hups;
    repeat (unfold vector_id; cbn;
            rewrite ?text_set_inventory, ?text_set_embedded, ?text_set_not_embedded,
              ?(Z.ltb_antisym (in_quantity input) 0), ?Hout, ?Hlow, ?Htr, ?Hemb, ?Hact, ?Hres);
    rewrite ?insert_insert_eq, ?delete_delete_eq; split; reflexivity.
Qed.

(** C5.  Once the quantity is written, whatever the embedding provider,
    the vector index or the flag updates do afterwards (throw or not),
    the call reports success with the previous and the new quantity and
    no error, and the catalog keeps the new quantity. *)
Theorem embedding_errors_do_not_fail_update F now input w p :
  get_throws F = false -> update_throws F = false ->
  db w !! productId input = Some p ->
  let out := executeInventoryUpdate ollama_embeddings threshold F now input w in
  success (snd out) = true /\ error (snd out) = None /\
  previousQuantity (snd out) = quantity p /\
  newQuantity (snd out) = in_quantity input /\
  exists p', db (fst out) !! productId input = Some p' /\
             quantity p' = in_quantity input /\
             isActive p' = (0 <? in_quantity input).
Proof.
  intros Hget Hupd Hrow out. subst out.
  rewrite (exec_committed _ _ _ _ _ Hget Hupd Hrow). cbn.
  do 4 (split; [reflexivity|]).
  eexists. split; [apply lookup_insert_eq|].
  apply row_after_committed.
Qed.

(** C7.  A second call with the same target quantity, made in the state
    the first one left and meeting the same service behaviour, leaves the
    vector index and the embedding flags [(hasEmbedding, pineconeId)] of
    every row as the first call left them. *)
Theorem reconcile_twice_same_end_state F now1 now2 input w :
  let w1 := fst (executeInventoryUpdate ollama_embeddings threshold F now1 input w) in
  let w2 := fst (executeInventoryUpdate ollama_embeddings threshold F now2 input w1) in
  index w2 = index w1 /\
  forall rid, embedding_flags <$> db w2 !! rid = embedding_flags <$> db w1 !! rid.
Proof.
  intros w1 w2. subst w1 w2.
  destruct (exec_cases F input w) as [(p & Hget & Hupd & Hrow)|Hno].
  - rewrite (exec_committed _ _ _ _ _ Hget Hupd Hrow). cbn.
    erewrite exec_committed; [|exact Hget|exact Hupd|apply lookup_insert_eq].
    cbn.
    destruct (net_effect_idempotent F now1 now2 input p (index w)) as [Hidx Hflags].
    split; [exact Hidx|].
    intros rid. rewrite insert_insert_eq.
    destruct (decide (productId input = rid)) as [<-|Hne].
    + rewrite !lookup_insert_eq. cbn. f_equal. exact Hflags.
    + now rewrite !lookup_insert_ne.
  - destruct (exec_uncommitted F now1 input w Hno) as [msg1 ->]. cbn.
    destruct (exec_uncommitted F now2 input w Hno) as [msg2 ->]. cbn.
    split; reflexivity.
Qed.

(** Below the threshold the branch entered is the removal branch. *)
Lemma chosen_action_low input cur upd :
  in_quantity input < threshold ->
  chosen_action threshold input cur upd = removed \/
  chosen_action threshold input cur upd = none.
Proof.
  intros Hlt. unfold chosen_action.
  apply Z.ltb_lt in Hlt. rewrite Hlt, orb_true_r.
  destruct (_ && _); auto.
Qed.

Lemma below_threshold_never_adds F now input w :
  in_quantity input < threshold ->
  let out := executeInventoryUpdate ollama_embeddings threshold F now input w in
  (action_of (snd out) = removed \/ action_of (snd out) = none) /\
  forallb (fun c => negb (is_upload c)) (calls_since w (fst out)) = true /\
  (forall vid, index (fst out) !! vid = None \/
               index (fst out) !! vid = index w !! vid).
Proof.
  intros Hlt out. subst out.
  destruct (exec_cases F input w) as [(p & Hget & Hupd & Hrow)|Hno].
  - rewrite (exec_committed _ _ _ _ _ Hget Hupd Hrow).
    unfold calls_since, action_of, action_after, calls_after, index_after. cbn.
    rewrite drop_app_length.
    destruct (updateEmbedding input); [|cbn; auto].
    destruct (chosen_action_low input p
                (set_inventory now (in_quantity input) p) Hlt) as [-> | ->]; cbn.
    + split; [destruct (_ && _); auto|]. split; [reflexivity|].
      intros vid. destruct (delete_throws F); [auto|].
      destruct (decide (Js.or_empty (pineconeId p) = vid)) as [->|Hne].
      * left. apply lookup_delete_eq.
      * right. now apply lookup_delete_ne.
    + auto.
  - destruct (exec_uncommitted F now input w Hno) as [msg ->].
    unfold calls_since. cbn. rewrite drop_all. auto.
Qed.

(** A row that is marked inactive and is restocked to at least the
    threshold while every service answers is embedded, upserted and
    marked. *)
Lemma restock_inactive_is_added now input w p :
  db w !! productId input = Some p ->
  isActive p = false ->
  0 < in_quantity input -> threshold <= in_quantity input ->
  updateEmbedding input = true ->
  let u := set_inventory now (in_quantity input) p in
  let text := createProductEmbeddingText u in
  ollama_embeddings text <> [] ->
  executeInventoryUpdate ollama_embeddings threshold no_faults now input w
  = (mkWorld
       (<[productId input := set_embedded now (pineconeId p) u]> (db w))
       (<[vector_id p := mkRecord (ollama_embeddings text) None]> (index w))
       (jobs w)
       (calls w ++ [CallEmbed text; CallUpsert (vector_id p)]),
     mkUpdateResult true (productId input) (quantity p) (in_quantity input)
       (Some (mkStatusChange false true added)) None).
Proof.
  intros Hrow Hact Hpos Hge Hue u text Hemb.
  rewrite (exec_committed no_faults now input w p eq_refl eq_refl Hrow).
  fold u.
  assert (Hc : chosen_action threshold input p u = added).
  { unfold chosen_action.
    replace (in_quantity input <=? 0) with false by (symmetry; apply Z.leb_gt; lia).
    replace (in_quantity input <? threshold) with false by (symmetry; apply Z.ltb_ge; lia).
    rewrite Hact. cbn.
    replace (0 <? in_quantity input) with true by (symmetry; apply Z.ltb_lt; lia).
    reflexivity. }
  assert (Hres : embedding_resolves ollama_embeddings no_faults text = true).
  { unfold embedding_resolves. cbn. destruct (ollama_embeddings text); congruence. }
  unfold row_after, index_after, action_after, calls_after, upload_lands.
  fold text. rewrite Hue, Hc, Hres, Hact. cbn.
  replace (0 <? in_quantity input) with true by (symmetry; apply Z.ltb_lt; lia).
  reflexivity.
Qed.

(** A row that is already marked active and has no embedding gets none
    from a restock, whatever its previous quantity. *)
Lemma restock_active_unembedded_is_none F now input w p :
  get_throws F = false -> update_throws F = false ->
  db w !! productId input = Some p ->
  isActive p = true -> hasEmbedding p = false ->
  action_of (snd (executeInventoryUpdate ollama_embeddings threshold F now input w))
  = none.
Proof.
  intros Hget Hupd Hrow Hact Hemb.
  rewrite (exec_committed _ _ _ _ _ Hget Hupd Hrow).
  unfold action_of, action_after, chosen_action. cbn.
  rewrite Hact, Hemb. cbn. rewrite !andb_false_r.
  destruct (updateEmbedding input); [|reflexivity].
  destruct (_ || _); reflexivity.
Qed.
End InventoryFacts.

(** ** Inventory update with the default threshold of 5 *)

Section ThresholdFive.
Import Catalog Pinecone Services Inventory Examples.

Variable ollama_embeddings : string -> list Q.

(** C1.  With threshold 5, an update from quantity 0 to quantity 3
    reports ['removed'] or ['none'], never ['added']: it requests no
    embedding, upserts no vector, and leaves no vector in the index
    that was not there before. *)
Theorem low_stock_update_never_adds F now input w p :
  db w !! productId input = Some p -> quantity p = 0 ->
  in_quantity input = 3 ->
  let out := executeInventoryUpdate ollama_embeddings 5 F now input w in
  (action_of (snd out) = removed \/ action_of (snd out) = none) /\
  action_of (snd out) <> added /\
  forallb (fun c => negb (is_upload c)) (calls_since w (fst out)) = true /\
  (forall vid, index (fst out) !! vid = None \/
               index (fst out) !! vid = index w !! vid).
Proof.
  intros _ _ Hq out.
  destruct (below_threshold_never_adds ollama_embeddings 5 F now input w)
    as (Hact & Hcalls & Hidx); [lia|].
  fold out in Hact, Hcalls, Hidx.
  split; [exact Hact|]. split; [|split; assumption].
  destruct Hact as [-> | ->]; discriminate.
Qed.

(** C4 (as the code has it).  With threshold 5, a row with quantity 0
    whose stored [isActive] flag is [false], updated to quantity 10 with
    [updateEmbedding] set while every service answers, is added: the text
    of the row is embedded, the vector is upserted under the row's vector
    id, the row is marked embedded, and the result reports
    [wasActive = false] (the stored flag), [isActive = true] (the flag of
    the updated row) and ['added']. *)
Theorem restock_to_ten_is_added now input w p :
  db w !! productId input = Some p ->
  quantity p = 0 -> isActive p = false ->
  in_quantity input = 10 -> updateEmbedding input = true ->
  ollama_embeddings (createProductEmbeddingText p) <> [] ->
  let text := createProductEmbeddingText p in
  let out := executeInventoryUpdate ollama_embeddings 5 no_faults now input w in
  snd out = mkUpdateResult true (productId input) 0 10
              (Some (mkStatusChange false true added)) None /\
  calls_since w (fst out) = [CallEmbed text; CallUpsert (vector_id p)] /\
  index (fst out)
    = <[vector_id p := mkRecord (ollama_embeddings text) None]> (index w) /\
  exists p', db (fst out) !! productId input = Some p' /\
             quantity p' = 10 /\ isActive p' = true /\
             hasEmbedding p' = true /\ lastEmbedded p' = Some now /\
             pineconeId p' = pineconeId p.
Proof.
  intros Hrow Hq Hact Hin Hue Hemb text out. subst out.
  rewrite (restock_inactive_is_added ollama_embeddings 5 now input w p Hrow Hact)
    by (try exact Hue; try exact Hemb; lia).
  unfold calls_since. cbn [fst snd calls index db].
  rewrite drop_app_length, Hq, Hin.
  do 3 (split; [reflexivity|]).
  eexists. split; [apply lookup_insert_eq|]. cbn.
  do 4 (split; [reflexivity|]).
  now destruct (Js.truthy (pineconeId p)).
Qed.
End ThresholdFive.

Section InventoryExamples.
Import Catalog Pinecone Services Inventory Examples.

Lemma low_stock_update_never_adds_witness :
  let out := executeInventoryUpdate demo_embed 5 no_faults 2
               (mkUpdateInput "p1" 3 true) (world_of lamp_sold_out) in
  (action_of (snd out) = removed \/ action_of (snd out) = none) /\
  action_of (snd out) <> added /\
  forallb (fun c => negb (is_upload c))
    (calls_since (world_of lamp_sold_out) (fst out)) = true /\
  (forall vid, index (fst out) !! vid = None \/
               index (fst out) !! vid = index (world_of lamp_sold_out) !! vid).
Proof.
  apply (low_stock_update_never_adds demo_embed no_faults 2
           (mkUpdateInput "p1" 3 true) (world_of lamp_sold_out) lamp_sold_out);
    reflexivity.
Defined.

Lemma restock_to_ten_is_added_witness :
  let text := createProductEmbeddingText lamp_sold_out in
  let out := executeInventoryUpdate demo_embed 5 no_faults 2
               (mkUpdateInput "p1" 10 true) (world_of lamp_sold_out) in
  snd out = mkUpdateResult true "p1" 0 10
              (Some (mkStatusChange false true added)) None /\
  calls_since (world_of lamp_sold_out) (fst out)
    = [CallEmbed text; CallUpsert (vector_id lamp_sold_out)] /\
  index (fst out)
    = <[vector_id lamp_sold_out := mkRecord (demo_embed text) None]>
        (index (world_of lamp_sold_out)) /\
  exists p', db (fst out) !! "p1" = Some p' /\
             quantity p' = 10 /\ isActive p' = true /\
             hasEmbedding p' = true /\ lastEmbedded p' = Some 2 /\
             pineconeId p' = pineconeId lamp_sold_out.
Proof.
  apply (restock_to_ten_is_added demo_embed 2 (mkUpdateInput "p1" 10 true)
           (world_of lamp_sold_out) lamp_sold_out);
    try reflexivity.
  vm_compute. discriminate.
Defined.

(** C4, the claim as written fails.  (1) The row that [createProduct]
    stores for a product with quantity 0 is flagged active; restocking it
    to 10 with threshold 5, every service answering, reports ['none']:
    nothing is embedded or upserted and the row stays unembedded.
    (2) With [updateEmbedding = false], and (3) with the embedding
    provider throwing, a sold-out row flagged inactive is not added
    either. *)
Lemma restock_is_not_always_added :
  (createProduct 0 "p1" "1_abc" lamp ∅ = Some (db (world_of lamp_row), lamp_row) /\
   quantity lamp_row = 0 /\
   let out := executeInventoryUpdate demo_embed 5 no_faults 2
                (mkUpdateInput "p1" 10 true) (world_of lamp_row) in
   success (snd out) = true /\
   previousQuantity (snd out) = 0 /\ newQuantity (snd out) = 10 /\
   action_of (snd out) = none /\ action_of (snd out) <> added /\
   calls (fst out) = [] /\ index (fst out) = ∅ /\
   (hasEmbedding <$> db (fst out) !! "p1") = Some false) /\
  (quantity lamp_sold_out = 0 /\ isActive lamp_sold_out = false /\
   let out := executeInventoryUpdate demo_embed 5 no_faults 2
                (mkUpdateInput "p1" 10 false) (world_of lamp_sold_out) in
   success (snd out) = true /\ action_of (snd out) = none /\
   calls (fst out) = [] /\ index (fst out) = ∅) /\
  (let out := executeInventoryUpdate demo_embed 5 provider_down 2
                (mkUpdateInput "p1" 10 true) (world_of lamp_sold_out) in
   success (snd out) = true /\ action_of (snd out) = none /\
   index (fst out) = ∅).
Proof. vm_compute. repeat split; congruence. Qed.

Lemma embedding_errors_do_not_fail_update_witness :
  let out := executeInventoryUpdate demo_embed 5 provider_down 2
               (mkUpdateInput "p1" 10 true) (world_of lamp_sold_out) in
  success (snd out) = true /\ error (snd out) = None /\
  previousQuantity (snd out) = quantity lamp_sold_out /\
  newQuantity (snd out) = 10 /\
  exists p', db (fst out) !! "p1" = Some p' /\
             quantity p' = 10 /\ isActive p' = (0 <? 10).
Proof.
  apply (embedding_errors_do_not_fail_update demo_embed 5 provider_down 2
           (mkUpdateInput "p1" 10 true) (world_of lamp_sold_out) lamp_sold_out);
    reflexivity.
Defined.

(** Restocking the sold-out lamp twice: the first call adds the vector,
    the second refreshes it; index and flags are the same after both. *)
Example reconcile_twice_lamp :
  let w1 := fst (executeInventoryUpdate demo_embed 5 no_faults 2
                   (mkUpdateInput "p1" 10 true) (world_of lamp_sold_out)) in
  let out2 := executeInventoryUpdate demo_embed 5 no_faults 3
                (mkUpdateInput "p1" 10 true) w1 in
  action_of (snd out2) = updated /\
  index (fst out2) = index w1 /\
  (embedding_flags <$> db (fst out2) !! "p1")
  = (embedding_flags <$> db w1 !! "p1") /\
  (embedding_flags <$> db w1 !! "p1") = Some (true, Some "product_1_abc").
Proof. vm_compute. repeat split. Qed.

(** In that run the provider is asked, throws, and the action stays
    ['none']. *)
Example provider_down_run :
  let out := executeInventoryUpdate demo_embed 5 provider_down 2
               (mkUpdateInput "p1" 10 true) (world_of lamp_sold_out) in
  action_of (snd out) = none /\
  calls (fst out) = [CallEmbed "Desk Lamp Warm light Home Lumo lamp"] /\
  index (fst out) = ∅.
Proof. vm_compute. repeat split. Qed.
End InventoryExamples.

(** ** Vector index and product search *)

Section SearchFacts.
Import Catalog Pinecone Services Search.

Variable similarity : list Q -> list Q -> Q.
Variable ollama_embeddings : string -> list Q.
Variable extractSearchIntent : string -> SearchIntent.

(** The index only answers with stored records whose metadata passes
    the filter. *)
Lemma index_query_sound idx vector topK f incl m :
  m ∈ index_query similarity idx vector topK f incl ->
  exists vid r, idx !! vid = Some r /\ m_id m = vid /\
                m_score m = similarity vector (values r) /\
                m_metadata m = (if incl then metadata r else None) /\
                filter_matches f (metadata r) = true.
Proof.
  unfold index_query. intros Hm.
  apply subseteq_take in Hm.
  rewrite merge_sort_Permutation in Hm.
  apply list_elem_of_fmap in Hm as ([vid r] & -> & Hin).
  apply list_elem_of_filter in Hin as [Hf Hin].
  apply elem_of_map_to_list in Hin.
  exists vid, r. cbn in *. auto.
Qed.

Lemma filter_matches_entry f md key c :
  filter_matches f md = true -> f !! key = Some c ->
  entry_holds md key c = true.
Proof.
  unfold filter_matches. intros H Hk.
  apply bool_decide_eq_true in H.
  exact (map_Forall_lookup_1 _ _ _ _ H Hk).
Qed.

Lemma stock_condition md :
  entry_holds md "quantity" (cond_gt 0%Q) = true ->
  exists m, md = Some m /\ 0 < md_quantity m.
Proof.
  destruct md as [m|]; [|discriminate]. cbn.
  unfold cond_holds, Qlt_bool, Qle_bool. cbn.
  rewrite !andb_true_r. intros H. exists m. split; [reflexivity|].
  apply negb_true_iff, Z.leb_gt in H. lia.
Qed.

(** With [inStockOnly] the tool's own filter carries both conditions;
    the category, brand and price entries do not displace them. *)
Lemma buildSearchFilters_in_stock input intent :
  inStockOnly input = true ->
  buildSearchFilters input intent !! "quantity" = Some (cond_gt 0%Q) /\
  buildSearchFilters input intent !! "isActive" = Some (cond_eq (VBool true)).
Proof.
  intros H. unfold buildSearchFilters. rewrite H.
  repeat match goal with
         | |- context [if ?b then _ else _] => destruct b
         end;
    split; repeat (rewrite lookup_insert_ne by discriminate);
    try apply lookup_insert_eq.
Qed.

Lemma queryFilter_keeps f key c :
  f !! key = Some c -> queryFilter f !! key = Some c.
Proof. intros H. unfold queryFilter. now apply lookup_union_Some_l. Qed.

(** Whatever the caller passes, the merged filter has an entry for
    [quantity]. *)
Lemma queryFilter_has_quantity f : is_Some (queryFilter f !! "quantity").
Proof.
  unfold queryFilter. apply lookup_union_is_Some. right. eexists. reflexivity.
Qed.

Lemma searchProducts_sound F vector options w rs r :
  snd (searchProducts similarity F vector options w) = Some rs ->
  r ∈ rs ->
  exists vid rec, index w !! vid = Some rec /\ sr_id r = vid /\
    sr_metadata r = (if default true (o_includeMetadata options)
                     then metadata rec else None) /\
    filter_matches (queryFilter (default ∅ (o_filter options))) (metadata rec) = true.
Proof.
  unfold searchProducts. destruct (query_throws F); [discriminate|]. cbn.
  intros [= <-] Hr.
  apply list_elem_of_fmap in Hr as (m & -> & Hm).
  apply list_elem_of_filter in Hm as [_ Hm].
  apply index_query_sound in Hm as (vid & rec & H1 & H2 & _ & H4 & H5).
  exists vid, rec. cbn. auto.
Qed.

(** C8.  With [inStockOnly = true] the filter sent to the index requires
    [quantity > 0] and [isActive = true], and every product returned has
    a positive quantity, whatever the query and the category, brand and
    price filters are. *)
Theorem in_stock_only_results_have_stock F input w :
  inStockOnly input = true ->
  let flt := queryFilter (buildSearchFilters input (extractSearchIntent (query input))) in
  flt !! "quantity" = Some (cond_gt 0%Q) /\
  flt !! "isActive" = Some (cond_eq (VBool true)) /\
  Forall (fun fp => 0 < f_quantity fp)
    (products (snd (executeProductSearch similarity ollama_embeddings
                      extractSearchIntent F input w))).
Proof.
  intros Hin flt.
  destruct (buildSearchFilters_in_stock input (extractSearchIntent (query input)) Hin)
    as [Hq Ha].
  apply queryFilter_keeps in Hq, Ha. fold flt in Hq, Ha.
  split; [exact Hq|]. split; [exact Ha|].
  unfold executeProductSearch, productSearch, bind, format_results.
  destruct (generateEmbedding _ _ _ _) as [w1 [e|]]; cbn; [|constructor].
  destruct (searchProducts _ _ _ _ _) as [w2 [rs|]] eqn:Hs; cbn; [|constructor].
  destruct (mapM format_result rs) as [ps|] eqn:Hps; cbn; [|constructor].
  apply mapM_Some in Hps.
  apply Forall_forall. intros fp Hfp.
  apply list_elem_of_lookup_1 in Hfp as [i Hi].
  destruct (Forall2_lookup_r _ _ _ _ _ Hps Hi) as (r & Hr & Hfmt).
  apply list_elem_of_lookup_2 in Hr.
  assert (Hs' : snd (searchProducts similarity F e
                (mkSearchOptions (Some (maxResults input)) (Some (6 # 10)%Q)
                   (Some (buildSearchFilters input (extractSearchIntent (query input))))
                   None) w1) = Some rs) by now rewrite Hs.
  destruct (searchProducts_sound _ _ _ _ _ _ Hs' Hr)
    as (vid & rec & _ & _ & Hmd & Hflt).
  cbn in Hmd, Hflt.
  apply (filter_matches_entry _ _ _ _ Hflt) in Hq.
  apply stock_condition in Hq as (m & Hm & Hpos).
  unfold format_result in Hfmt. rewrite Hmd, Hm in Hfmt.
  injection Hfmt as <-. exact Hpos.
Qed.

(** C2, on the code: after [upsertProduct(P, v)] the index holds [v]
    under P's vector id with no metadata, and a [searchProducts] query
    with the same vector, whatever its options and filter, succeeds
    without returning P. *)
Theorem upserted_product_is_not_found p embedding options w :
  let w1 := fst (upsertProduct no_faults p embedding w) in
  index w1 !! vector_id p = Some (mkRecord embedding None) /\
  exists rs,
    snd (searchProducts similarity no_faults embedding options w1) = Some rs /\
    Forall (fun r => sr_id r <> vector_id p) rs.
Proof.
  intros w1.
  assert (Hrec : index w1 !! vector_id p = Some (mkRecord embedding None)).
  { subst w1. unfold upsertProduct, index_upsert. cbn. apply lookup_insert_eq. }
  split; [exact Hrec|].
  destruct (searchProducts similarity no_faults embedding options w1)
    as [w2 [rs|]] eqn:Hs.
  - exists rs. split; [reflexivity|].
    apply Forall_forall. intros r Hr Hid.
    assert (Hs' : snd (searchProducts similarity no_faults embedding options w1)
                  = Some rs) by now rewrite Hs.
    destruct (searchProducts_sound _ _ _ _ _ _ Hs' Hr)
      as (vid & rec & Hvid & Hsr & _ & Hflt).
    rewrite <- Hsr, Hid, Hrec in Hvid. injection Hvid as <-.
    destruct (queryFilter_has_quantity (default ∅ (o_filter options))) as [c Hc].
    apply (filter_matches_entry _ _ _ _ Hflt) in Hc. discriminate.
  - unfold searchProducts in Hs. cbn in Hs. discriminate.
Qed.
End SearchFacts.

Section SearchExamples.
Import Catalog Pinecone Services Search Examples.

Lemma in_stock_only_results_have_stock_witness :
  let flt := queryFilter (buildSearchFilters lamp_search (no_intent "lamp")) in
  flt !! "quantity" = Some (cond_gt 0%Q) /\
  flt !! "isActive" = Some (cond_eq (VBool true)) /\
  Forall (fun fp => 0 < f_quantity fp)
    (products (snd (executeProductSearch demo_similarity demo_embed no_intent
                      no_faults lamp_search shelf))).
Proof.
  apply (in_stock_only_results_have_stock demo_similarity demo_embed no_intent
           no_faults lamp_search shelf).
  reflexivity.
Defined.

(** Of the two records on the shelf only the one in stock is returned. *)
Example shelf_search :
  (fun fp => (f_id fp, f_quantity fp))
    <$> products (snd (executeProductSearch demo_similarity demo_embed no_intent
                         no_faults lamp_search shelf))
  = [("p1", 25)].
Proof. vm_compute. reflexivity. Qed.

(** C2 at a concrete product: the lamp, in stock and active, is upserted
    and then searched for with its own vector and its own category; the
    index holds the vector, the search returns nothing. *)
Example upsert_then_search_lamp :
  let v := demo_embed (Inventory.createProductEmbeddingText lamp_in_stock) in
  let w1 := fst (upsertProduct no_faults lamp_in_stock v (world_of lamp_in_stock)) in
  index w1 = {[ "product_1_abc" := mkRecord v None ]} /\
  snd (searchProducts demo_similarity no_faults v home_filter w1) = Some [].
Proof. vm_compute. split; reflexivity. Qed.

(** Had the record been stored with the metadata object that
    [upsertProduct] builds, the same query would return the lamp with
    its metadata. *)
Example search_with_metadata_lamp :
  let v := demo_embed (Inventory.createProductEmbeddingText lamp_in_stock) in
  let w1 := with_index
              {[ "product_1_abc" := mkRecord v (Some (metadata_of lamp_in_stock)) ]}
              (world_of lamp_in_stock) in
  (fun r => (sr_id r, sr_metadata r))
    <$> default [] (snd (searchProducts demo_similarity no_faults v home_filter w1))
  = [("product_1_abc", Some (metadata_of lamp_in_stock))].
Proof. vm_compute. reflexivity. Qed.
End SearchExamples.

(** ** Bulk embedding job *)

Section BulkJobFacts.
Import Catalog Pinecone Services BulkJob.

Variable ollama_embeddings : string -> list Q.
Variable show_number : Q -> string.

Local Arguments createProductEmbeddingText : simpl never.
Local Arguments Js.truthy : simpl never.
Local Arguments Js.trim : simpl never.
Local Arguments String.length : simpl never.
Local Arguments Nat.ltb : simpl never.
Local Arguments Z.leb : simpl never.
Local Arguments Nat.modulo : simpl never.

Ltac case_item :=
  match goal with
  | |- context [match ?x with _ => _ end] =>
      lazymatch x with
      | context [match _ with _ => _ end] => fail
      | _ => destruct x eqn:?
      end
  end.

(** Each processed item bumps exactly one of the three outcome counters
    and never rejects; the job table is not touched. *)
Lemma processProductEmbedding_outcome F now suffix product g w :
  exists w' g',
    processProductEmbedding ollama_embeddings show_number F now suffix product g w
    = (w', Some g') /\
    jobs w' = jobs w /\
    (g' = incr_successful g \/ g' = incr_failed g \/ g' = incr_skipped g).
Proof.
  unfold processProductEmbedding, embedProduct, try_catch, bind, ret, throw,
    generateEmbedding, upsertProduct, db_updateProduct, db_markProductEmbedded,
    db_write, record_call, with_index, with_db.
  destruct w as [d i j c]. cbn.
  repeat (case_item; cbn);
    repeat match goal with
           | H : (_, _) = (_, _) |- _ => injection H as <- <-
           end;
    try discriminate; eauto 10.
Qed.

Lemma job_write_ok jid patch w :
  is_Some (jobs w !! jid) ->
  exists w', job_write false jid patch w = (w', Some tt) /\
             jobs w' !! jid = patch_job patch <$> jobs w !! jid.
Proof.
  intros [j Hj]. unfold job_write, updateEmbeddingJob. rewrite Hj.
  eexists. split; [reflexivity|]. cbn. now rewrite lookup_insert_eq.
Qed.

(** One batch: every item is counted once. *)
Lemma process_batch_counts env jid batch : forall g w w' g',
  process_batch ollama_embeddings show_number env jid batch g w = (w', Some g') ->
  total g' = total g /\
  processed g' = (processed g + length batch)%nat /\
  tally g' = (tally g + length batch)%nat.
Proof.
  induction batch as [|product rest IH]; intros g w w' g' H.
  - cbn in H. injection H as <- <-. cbn. lia.
  - cbn [process_batch] in H. unfold bind in H.
    destruct (processProductEmbedding_outcome (item_faults env (processed g))
                (clock env (processed g)) (item_suffix env (processed g))
                product g w) as (w1 & g1 & E & _ & Hg1).
    rewrite E in H.
    match type of H with
    | context [if ?c then _ else _] => destruct c
    end.
    + destruct (job_write _ _ _ _) as [w2 [[]|]]; [|discriminate].
      apply IH in H. cbn in H.
      destruct Hg1 as [-> | [-> | ->]]; cbn in *; unfold tally in *; cbn in *; lia.
    + unfold ret in H. apply IH in H. cbn in H.
      destruct Hg1 as [-> | [-> | ->]]; cbn in *; unfold tally in *; cbn in *; lia.
Qed.

(** The batch loop: with fuel for every remaining item, all items from
    position [i] on are counted. *)
Lemma batches_counts env jid allProducts : forall fuel i g w w' g',
  (length allProducts - i <= fuel)%nat ->
  batches ollama_embeddings show_number fuel env jid i allProducts g w = (w', Some g') ->
  total g' = total g /\
  processed g' = (processed g + (length allProducts - i))%nat /\
  tally g' = (tally g + (length allProducts - i))%nat.
Proof.
  induction fuel as [|fuel IH]; intros i g w w' g' Hfuel H.
  - cbn in H. injection H as <- <-.
    replace (length allProducts - i)%nat with 0%nat by lia. lia.
  - cbn [batches] in H.
    destruct (i <? length allProducts)%nat eqn:Hi.
    + apply Nat.ltb_lt in Hi. unfold bind in H.
      destruct (process_batch _ _ _ _ _ _ _) as [w1 [g1|]] eqn:Hb; [|discriminate].
      apply process_batch_counts in Hb as (Ht & Hp & Hs).
      rewrite length_take, length_drop in Hp, Hs.
      unfold batchSize in *. apply IH in H; [|lia]. lia.
    + apply Nat.ltb_ge in Hi. unfold ret in H. injection H as <- <-.
      replace (length allProducts - i)%nat with 0%nat by lia. lia.
Qed.

Lemma run_job_counts env jid allProducts start w w' g :
  run_job ollama_embeddings show_number env jid allProducts start w = (w', Some g) ->
  total g = length allProducts /\
  processed g = total g /\
  processed g = tally g.
Proof.
  unfold run_job, bind, ret. intros H.
  destruct (job_write _ _ _ w) as [w1 [[]|]]; [|discriminate].
  destruct (batches _ _ _ _ _ _ _ _ _) as [w2 [g2|]] eqn:Hb; [|discriminate].
  destruct (final_throws env); [discriminate|].
  destruct (job_write _ _ _ w2) as [w3 [[]|]]; [|discriminate].
  injection H as <- <-.
  apply batches_counts in Hb as (Ht & Hp & Hs); [|lia].
  cbn in *. unfold tally in *. cbn in *. lia.
Qed.

Lemma process_batch_completes env jid batch : forall g w,
  (forall n, job_write_throws env n = false) ->
  is_Some (jobs w !! jid) ->
  exists w' g',
    process_batch ollama_embeddings show_number env jid batch g w = (w', Some g') /\
    is_Some (jobs w' !! jid).
Proof.
  intros g w Hw. revert g w.
  induction batch as [|product rest IH]; intros g w Hj.
  - cbn. unfold ret. eauto.
  - cbn [process_batch]. unfold bind.
    destruct (processProductEmbedding_outcome (item_faults env (processed g))
                (clock env (processed g)) (item_suffix env (processed g))
                product g w) as (w1 & g1 & -> & Hjobs & _).
    rewrite <- Hjobs in Hj.
    match goal with
    | |- context [if ?c then _ else _] => destruct c
    end.
    + rewrite Hw.
      destruct (job_write_ok jid
                  (mkJobPatch None (Some (processed (incr_processed g1))) None None)
                  w1 Hj) as (w2 & -> & Hj2).
      apply IH. rewrite Hj2. destruct Hj as [j ->]. cbn. eauto.
    + unfold ret. now apply IH.
Qed.

Lemma batches_completes env jid allProducts : forall fuel i g w,
  (forall n, job_write_throws env n = false) ->
  is_Some (jobs w !! jid) ->
  exists w' g',
    batches ollama_embeddings show_number fuel env jid i allProducts g w
    = (w', Some g') /\
    is_Some (jobs w' !! jid).
Proof.
  induction fuel as [|fuel IH]; intros i g w Hw Hj.
  - cbn. unfold ret. eauto.
  - cbn [batches]. destruct (i <? length allProducts)%nat.
    + unfold bind.
      destruct (process_batch_completes env jid
                  (take batchSize (drop i allProducts)) g w Hw Hj)
        as (w1 & g1 & -> & Hj1).
      now apply IH.
    + unfold ret. eauto.
Qed.

(** Without a fatal fault the job runs to completion. *)
Lemma bulk_job_completes env jid start w :
  setup_throws env = false -> create_job_throws env = false ->
  (forall n, job_write_throws env n = false) -> final_throws env = false ->
  jobs w !! jid = None ->
  getAllProducts fetch_options (db w) <> [] ->
  exists w' g,
    generateFullEmbeddings ollama_embeddings show_number env jid start w
    = (w', JobCompleted g).
Proof.
  intros Hs Hc Hw Hf Hfree Hne.
  unfold generateFullEmbeddings. rewrite Hs, Hc.
  destruct (getAllProducts fetch_options (db w)) as [|p ps] eqn:Hall; [congruence|].
  unfold createEmbeddingJob. rewrite Hfree.
  unfold run_job, bind. rewrite Hw, Hf.
  set (w0 := with_jobs _ w).
  assert (Hj0 : is_Some (jobs w0 !! jid)).
  { subst w0. cbn. rewrite lookup_insert_eq. eauto. }
  destruct (job_write_ok jid (mkJobPatch (Some RUNNING) None None None) w0 Hj0)
    as (w1 & -> & Hj1).
  assert (Hj1' : is_Some (jobs w1 !! jid)).
  { rewrite Hj1. destruct Hj0 as [j ->]. cbn. eauto. }
  destruct (batches_completes env jid (p :: ps) (length (p :: ps)) 0%nat
              (mkProgress (length (p :: ps)) 0 0 0 0 start) w1 Hw Hj1')
    as (w2 & g2 & -> & Hj2).
  destruct (job_write_ok jid
              (mkJobPatch (Some COMPLETED) (Some (processed g2)) None
                 (Some (clock env (processed g2)))) w2 Hj2)
    as (w3 & -> & _).
  unfold ret. eauto.
Qed.

(** C6.  When the bulk job completes, [processed] equals the sum of
    [successful], [failed] and [skipped], and equals [total], the number
    of products fetched. *)
Theorem bulk_job_counters env jid start w w' g :
  generateFullEmbeddings ollama_embeddings show_number env jid start w
  = (w', JobCompleted g) ->
  processed g = (successful g + failed g + skipped g)%nat /\
  processed g = total g /\
  total g = length (getAllProducts fetch_options (db w)).
Proof.
  unfold generateFullEmbeddings.
  destruct (setup_throws env); [discriminate|].
  destruct (getAllProducts fetch_options (db w)) as [|p ps] eqn:Hall; [discriminate|].
  destruct (create_job_throws env); [discriminate|].
  destruct (createEmbeddingJob _ _ _ _ _) as [[js j]|]; [|discriminate].
  destruct (run_job _ _ _ _ _ _ _) as [w1 [g1|]] eqn:Hrun; [|discriminate].
  intros [= <- <-].
  apply run_job_counts in Hrun as (Ht & Hp & Hs).
  unfold tally in Hs. lia.
Qed.
End BulkJobFacts.

Section BulkJobExamples.
Import Catalog Pinecone Services BulkJob Examples.

(** A run over three rows: one is embedded, one fails at the provider,
    one is skipped for lack of stock. *)
Lemma bulk_job_counters_witness :
  let g := mkProgress 3 3 1 1 1 0 in
  processed g = (successful g + failed g + skipped g)%nat /\
  processed g = total g /\
  total g = length (getAllProducts fetch_options (db shop)).
Proof.
  apply (bulk_job_counters demo_embed demo_show shaky_run "job1" 0 shop
           (fst (generateFullEmbeddings demo_embed demo_show shaky_run "job1" 0 shop))).
  vm_compute. reflexivity.
Defined.

Example shaky_run_job_row :
  (fun j => (j_status j, j_totalItems j, j_processedItems j))
    <$> jobs (fst (generateFullEmbeddings demo_embed demo_show shaky_run
                     "job1" 0 shop)) !! "job1"
  = Some (COMPLETED, Some 3%nat, 3%nat).
Proof. vm_compute. reflexivity. Qed.
End BulkJobExamples.

Section CatalogQueryFacts.
Import Catalog CatalogQueries Examples.

Lemma elem_of_rows (db : gmap string Product) p :
  p ∈ rows db <-> exists k, db !! k = Some p.
Proof.
  unfold rows. rewrite list_elem_of_fmap. split.
  - intros ([k q] & -> & H). apply elem_of_map_to_list in H. eauto.
  - intros [k H]. exists (k, p). split; [reflexivity|].
    now apply elem_of_map_to_list.
Qed.

#[local] Instance newer_trans : Transitive newer.
Proof. intros a b c. unfold newer. lia. Qed.

#[local] Instance newer_total : Total newer.
Proof. intros a b. unfold newer. lia. Qed.

Lemma getAllProducts_sound o (db : gmap string Product) p :
  p ∈ getAllProducts o db ->
  (exists k, db !! k = Some p) /\ list_where o p = true.
Proof.
  unfold getAllProducts. intros Hp.
  apply subseteq_take, subseteq_drop in Hp.
  rewrite merge_sort_Permutation in Hp.
  apply list_elem_of_filter in Hp as [Hw Hp].
  split; [now apply elem_of_rows | exact Hw].
Qed.

(** X1.  [getAllProducts] returns at most [limit] rows (100 when no limit
    is given), each a row of the catalog that passes the [where] test,
    ordered from the most to the least recently updated. *)
Theorem getAllProducts_bounded_sorted o (db : gmap string Product) :
  (length (getAllProducts o db) <= default 100 (lo_limit o))%nat /\
  Forall (fun p => (exists k, db !! k = Some p) /\ list_where o p = true)
    (getAllProducts o db) /\
  StronglySorted newer (getAllProducts o db).
Proof.
  unfold getAllProducts. split; [rewrite length_take; lia|]. split.
  - apply Forall_forall. intros p Hp. now apply getAllProducts_sound.
  - set (l := merge_sort _ _).
    assert (Hs : StronglySorted newer l) by (apply StronglySorted_merge_sort; apply _).
    rewrite <- (take_drop (default 0%nat (lo_offset o)) l) in Hs.
    apply StronglySorted_app_1_r in Hs.
    set (l' := drop _ l) in *.
    rewrite <- (take_drop (default 100%nat (lo_limit o)) l') in Hs.
    now apply StronglySorted_app_1_l in Hs.
Qed.

Lemma prisma_update_ok rid f (db db' : gmap string Product) p' :
  (forall p, id (f p) = id p /\ sku (f p) = sku p) ->
  catalog_ok db ->
  prisma_update rid f db = Some (db', p') -> catalog_ok db'.
Proof.
  intros Hf [Hid Hsku] H.
  unfold prisma_update in H. destruct (db !! rid) as [p|] eqn:Hrow; [|discriminate].
  injection H as <- <-. split.
  - intros k q Hk. destruct (decide (rid = k)) as [<-|Hne].
    + rewrite lookup_insert_eq in Hk. injection Hk as <-.
      destruct (Hf p) as [-> _]. eauto.
    + rewrite lookup_insert_ne in Hk by done. eauto.
  - assert (Hold : forall k q, <[rid := f p]> db !! k = Some q ->
                     exists q0, db !! k = Some q0 /\ sku q = sku q0).
    { intros k q Hk. destruct (decide (rid = k)) as [<-|Hne].
      - rewrite lookup_insert_eq in Hk. injection Hk as <-.
        exists p. split; [done|]. apply Hf.
      - rewrite lookup_insert_ne in Hk by done. eauto. }
    intros k1 k2 p1 p2 H1 H2 E.
    apply Hold in H1 as (q1 & H1 & E1). apply Hold in H2 as (q2 & H2 & E2).
    apply (Hsku k1 k2 q1 q2 H1 H2). congruence.
Qed.

Lemma row_free_spec rid rsku pid (db : gmap string Product) :
  row_free rid rsku pid db = true ->
  db !! rid = None /\ forall k p, db !! k = Some p -> sku p <> rsku.
Proof.
  unfold row_free. intros H. apply andb_true_iff in H as [H1 H2].
  apply bool_decide_eq_true in H1, H2. split; [exact H1|].
  intros k p Hk. exact (proj1 (map_Forall_lookup_1 _ _ _ _ H2 Hk)).
Qed.

Lemma createProduct_keeps_ok now rid suffix data (db db' : gmap string Product) p :
  catalog_ok db ->
  createProduct now rid suffix data db = Some (db', p) -> catalog_ok db'.
Proof.
  intros Hok H.
  unfold createProduct in H.
  destruct (row_free _ _ _ _) eqn:Hfree; [|discriminate].
  apply row_free_spec in Hfree as [Hnone Hskus].
  injection H as <- <-. destruct Hok as [Hid Hsku]. split.
  - intros k q Hk. destruct (decide (rid = k)) as [<-|Hne].
    + rewrite lookup_insert_eq in Hk. now injection Hk as <-.
    + rewrite lookup_insert_ne in Hk by done. eauto.
  - intros k1 k2 p1 p2 H1 H2 E.
    destruct (decide (rid = k1)) as [<-|Hne1], (decide (rid = k2)) as [<-|Hne2];
      try reflexivity.
    + rewrite lookup_insert_eq in H1. rewrite lookup_insert_ne in H2 by done.
      injection H1 as <-. cbn in E. symmetry in E. now apply Hskus in H2.
    + rewrite lookup_insert_eq in H2. rewrite lookup_insert_ne in H1 by done.
      injection H2 as <-. cbn in E. now apply Hskus in H1.
    + rewrite lookup_insert_ne in H1, H2 by done. eauto.
Qed.

(** X2.  The catalog stays well formed: if every row is stored under its
    own id and no two rows share a sku, the same holds after
    [createProduct], [updateInventory], [markProductEmbedded],
    [markProductNotEmbedded] and [updateProduct]. *)
Theorem catalog_ok_preserved (db db' : gmap string Product) p :
  catalog_ok db ->
  (exists now rid suffix data, createProduct now rid suffix data db = Some (db', p)) \/
  (exists now rid q, updateInventory now rid q db = Some (db', p)) \/
  (exists now rid pid, markProductEmbedded now rid pid db = Some (db', p)) \/
  (exists now rid, markProductNotEmbedded now rid db = Some (db', p)) \/
  (exists now rid patch, updateProduct now rid patch db = Some (db', p)) ->
  catalog_ok db'.
Proof.
  intros Hok [H|[H|[H|[H|H]]]].
  - destruct H as (now & rid & suffix & data & H).
    eapply createProduct_keeps_ok; eauto.
  - destruct H as (now & rid & q & H).
    eapply prisma_update_ok; [|exact Hok|exact H]. intros; now split.
  - destruct H as (now & rid & pid & H).
    eapply prisma_update_ok; [|exact Hok|exact H]. intros; now split.
  - destruct H as (now & rid & H).
    eapply prisma_update_ok; [|exact Hok|exact H]. intros; now split.
  - destruct H as (now & rid & patch & H).
    eapply prisma_update_ok; [|exact Hok|exact H]. intros; destruct patch; now split.
Qed.

Lemma catalog_ok_empty : catalog_ok ∅.
Proof.
  split.
  - intros k p H. rewrite lookup_empty in H. discriminate.
  - intros k1 k2 p1 p2 H. rewrite lookup_empty in H. discriminate.
Qed.

Lemma lamp_catalog_ok : catalog_ok {[ "p1" := lamp_row ]}.
Proof.
  apply (createProduct_keeps_ok 0 "p1" "1_abc" lamp ∅ _ lamp_row catalog_ok_empty).
  vm_compute. reflexivity.
Qed.

Lemma catalog_ok_preserved_witness : catalog_ok {[ "p1" := lamp_row ]}.
Proof.
  apply (catalog_ok_preserved ∅ {[ "p1" := lamp_row ]} lamp_row catalog_ok_empty).
  left. exists 0, "p1", "1_abc", lamp. vm_compute. reflexivity.
Defined.

Lemma getProductBySku_Some s (db : gmap string Product) p :
  getProductBySku s db = Some p -> sku p = s /\ exists k, db !! k = Some p.
Proof.
  unfold getProductBySku. intros H. apply head_Some_elem_of in H.
  apply list_elem_of_filter in H as [Hs Hp]. split; [exact Hs|].
  now apply elem_of_rows.
Qed.

Lemma getProductBySku_None s (db : gmap string Product) :
  getProductBySku s db = None <-> forall k p, db !! k = Some p -> sku p <> s.
Proof.
  unfold getProductBySku. rewrite head_None. split.
  - intros H k p Hk Hs.
    assert (Hin : p ∈ filter (fun p => sku p = s) (rows db)).
    { apply list_elem_of_filter. split; [exact Hs|]. apply elem_of_rows. eauto. }
    rewrite H in Hin. inversion Hin.
  - intros H. destruct (filter _ _) as [|p l] eqn:E; [reflexivity|].
    assert (Hin : p ∈ filter (fun p => sku p = s) (rows db)) by (rewrite E; left).
    apply list_elem_of_filter in Hin as [Hs Hp].
    apply elem_of_rows in Hp as [k Hk]. now apply H in Hk.
Qed.

(** With unique skus the lookup by sku finds the row that holds it. *)
Lemma getProductBySku_found (db : gmap string Product) k p :
  unique_skus db -> db !! k = Some p -> getProductBySku (sku p) db = Some p.
Proof.
  intros Hu Hk.
  destruct (getProductBySku (sku p) db) as [r|] eqn:E.
  - apply getProductBySku_Some in E as [Hs [k' Hk']].
    assert (k' = k) by (eapply Hu; eauto). subst k'. congruence.
  - rewrite getProductBySku_None in E. now apply E in Hk.
Qed.

(** X3.  In a well-formed catalog a created product can be read back by
    id and by sku, its sku was free before, and a second [createProduct]
    with the same sku is rejected. *)
Theorem createProduct_lookup now rid suffix data (db db' : gmap string Product) p :
  catalog_ok db ->
  createProduct now rid suffix data db = Some (db', p) ->
  getProduct rid db' = Some p /\
  getProductBySku (d_sku data) db' = Some p /\
  getProductBySku (d_sku data) db = None /\
  forall now' rid' suffix' data',
    d_sku data' = d_sku data ->
    createProduct now' rid' suffix' data' db' = None.
Proof.
  intros Hok H.
  assert (Hok' : catalog_ok db') by (eapply createProduct_keeps_ok; eauto).
  assert (Hfree : row_free rid (d_sku data) (Some ("product_" +:+ suffix)) db = true).
  { unfold createProduct in H. destruct (row_free _ _ _ _); [reflexivity|discriminate]. }
  apply row_free_spec in Hfree as [Hnone Hskus].
  destruct (createProduct_Some _ _ _ _ _ _ _ H) as [Hdb Hp].
  assert (Hsku : sku p = d_sku data) by (rewrite Hp; reflexivity).
  clear Hp. subst db'.
  assert (Hrow : <[rid := p]> db !! rid = Some p) by apply lookup_insert_eq.
  split; [exact Hrow|]. split.
  { rewrite <- Hsku. eapply getProductBySku_found; [apply Hok'|exact Hrow]. }
  split; [now apply getProductBySku_None|].
  intros now' rid' suffix' data' E.
  unfold createProduct.
  destruct (row_free rid' _ _ _) eqn:Hfree'; [|reflexivity].
  apply row_free_spec in Hfree' as [_ Hskus'].
  apply Hskus' in Hrow. congruence.
Qed.

Lemma createProduct_lookup_witness :
  getProduct "p1" {[ "p1" := lamp_row ]} = Some lamp_row /\
  getProductBySku "LAMP-1" {[ "p1" := lamp_row ]} = Some lamp_row /\
  getProductBySku "LAMP-1" ∅ = None /\
  forall now' rid' suffix' data',
    d_sku data' = "LAMP-1" ->
    createProduct now' rid' suffix' data' {[ "p1" := lamp_row ]} = None.
Proof.
  apply (createProduct_lookup 0 "p1" "1_abc" lamp ∅ {[ "p1" := lamp_row ]} lamp_row
           catalog_ok_empty).
  vm_compute. reflexivity.
Defined.

(** X4.  A product whose quantity is set to zero or less by
    [updateInventory] is in the out-of-stock list, and no row with its id
    is in the low-stock list or in a listing that does not ask for
    inactive products. *)
Theorem sold_out_row_listings now rid q threshold (db db' : gmap string Product) p :
  keyed_by_id db -> q <= 0 ->
  updateInventory now rid q db = Some (db', p) ->
  p ∈ getOutOfStockProducts db' /\
  Forall (fun r => id r <> rid) (getLowStockProducts threshold db') /\
  forall o, lo_isActive o <> Some false ->
            Forall (fun r => id r <> rid) (getAllProducts o db').
Proof.
  intros Hid Hq H.
  unfold updateInventory in H.
  apply prisma_update_Some in H as (p0 & Hrow & -> & ->).
  assert (Hid' : keyed_by_id (<[rid := set_inventory now q p0]> db)).
  { intros k r Hk. destruct (decide (rid = k)) as [<-|Hne].
    - rewrite lookup_insert_eq in Hk. injection Hk as <-. cbn. eauto.
    - rewrite lookup_insert_ne in Hk by done. eauto. }
  assert (Hinactive : forall k r,
             <[rid := set_inventory now q p0]> db !! k = Some r ->
             id r = rid -> isActive r = false).
  { intros k r Hk E. pose proof (Hid' _ _ Hk) as E'.
    rewrite E in E'. subst k. rewrite lookup_insert_eq in Hk.
    injection Hk as <-. cbn. apply Z.ltb_ge. lia. }
  split; [|split].
  - apply list_elem_of_filter. split; [cbn; lia|].
    apply elem_of_rows. exists rid. apply lookup_insert_eq.
  - apply Forall_forall. intros r Hr E.
    apply list_elem_of_filter in Hr as [[_ Hact] Hr].
    apply elem_of_rows in Hr as [k Hk].
    rewrite (Hinactive _ _ Hk E) in Hact. discriminate.
  - intros o Ho. apply Forall_forall. intros r Hr E.
    apply getAllProducts_sound in Hr as [[k Hk] Hw].
    unfold list_where in Hw. rewrite (Hinactive _ _ Hk E) in Hw.
    destruct (lo_isActive o) as [[]|]; cbn in Hw; try discriminate.
    now apply Ho.
Qed.

Lemma sold_out_row_listings_witness :
  lamp_sold_out ∈ getOutOfStockProducts {[ "p1" := lamp_sold_out ]} /\
  Forall (fun r => id r <> "p1")
    (getLowStockProducts 5 {[ "p1" := lamp_sold_out ]}) /\
  forall o, lo_isActive o <> Some false ->
            Forall (fun r => id r <> "p1")
              (getAllProducts o {[ "p1" := lamp_sold_out ]}).
Proof.
  apply (sold_out_row_listings 1 "p1" 0 5 {[ "p1" := lamp_row ]}
           {[ "p1" := lamp_sold_out ]} lamp_sold_out).
  - apply lamp_catalog_ok.
  - lia.
  - vm_compute. reflexivity.
Defined.

Lemma length_filter_disjoint {A} (P Q : A -> Prop)
    `{!forall x, Decision (P x)} `{!forall x, Decision (Q x)} (l : list A) :
  (forall x, P x -> Q x -> False) ->
  (length (filter P l) + length (filter Q l) <= length l)%nat.
Proof.
  intros Hd. induction l as [|x l IH]; [cbn; lia|].
  rewrite !filter_cons.
  destruct (decide (P x)), (decide (Q x)); cbn; try lia.
  exfalso. eauto.
Qed.

(** X5.  In the statistics the active, the embedded, and the low-stock
    plus out-of-stock counts never exceed the total; the embedding
    coverage lies between 0 and 100, and is 0 (no division) for an empty
    catalog. *)
Theorem getProductStats_bounds threshold (db : gmap string Product) :
  let s := getProductStats threshold db in
  (activeProducts s <= totalProducts s)%nat /\
  (productsWithEmbeddings s <= totalProducts s)%nat /\
  (lowStockProducts s + outOfStockProducts s <= totalProducts s)%nat /\
  (0 <= embeddingCoverage s)%Q /\ (embeddingCoverage s <= 100)%Q /\
  (totalProducts s = 0%nat -> embeddingCoverage s = 0%Q).
Proof.
  cbn. split; [apply length_filter|]. split; [apply length_filter|].
  split.
  { apply length_filter_disjoint. intros x [_ H1] H2. lia. }
  pose proof (length_filter (fun p => hasEmbedding p = true) (rows db)) as Hle.
  set (n := length (filter _ (rows db))) in *.
  set (t := length (rows db)) in *.
  destruct t as [|t]; cbn.
  { split; [discriminate|]. split; [discriminate|reflexivity]. }
  split; [|split; [|discriminate]].
  - clearbody n. unfold Qle, Qdiv, Qmult, Qinv.
    change (Z.of_nat (S t)) with (Z.pos (Pos.of_succ_nat t)). cbn. lia.
  - clearbody n. unfold Qle, Qdiv, Qmult, Qinv.
    change (Z.of_nat (S t)) with (Z.pos (Pos.of_succ_nat t)). cbn. lia.
Qed.

#[local] Instance str_le_total : Total str_le.
Proof. intros a b. apply String.leb_total. Qed.

(** X6.  [getCategories] lists exactly the non-empty categories of the
    active products, each once, in ascending order; [getBrands] does the
    same for brands. *)
Theorem distinct_values_spec field (db : gmap string Product) :
  (forall s, s ∈ distinct_values field db <->
             s <> "" /\ exists k p, db !! k = Some p /\ isActive p = true /\
                                    field p = Some s) /\
  NoDup (distinct_values field db) /\
  Sorted str_le (distinct_values field db).
Proof.
  unfold distinct_values. split; [|split].
  - intros s. rewrite merge_sort_Permutation, list_elem_of_filter,
      elem_of_remove_dups, list_elem_of_omap.
    split.
    + intros (Hne & p & Hp & Hf). split; [exact Hne|].
      apply list_elem_of_filter in Hp as [Hact Hp].
      apply elem_of_rows in Hp as [k Hk]. eauto.
    + intros (Hne & k & p & Hk & Hact & Hf). split; [exact Hne|].
      exists p. split; [|exact Hf].
      apply list_elem_of_filter. split; [exact Hact|].
      apply elem_of_rows. eauto.
  - rewrite merge_sort_Permutation. apply NoDup_filter, NoDup_remove_dups.
  - apply Sorted_merge_sort. apply _.
Qed.
End CatalogQueryFacts.

Section IndexQueryFacts.
Import Catalog Pinecone Services PineconeQueries Examples.

Variable similarity : list Q -> list Q -> Q.

#[local] Instance better_trans : Transitive better.
Proof. intros a b c H1 H2. unfold better in *. eapply Qle_trans; eauto. Qed.

#[local] Instance better_total : Total better.
Proof.
  intros a b. unfold better.
  destruct (Qlt_le_dec (m_score a) (m_score b)) as [H|H]; [|auto].
  right. now apply Qlt_le_weak.
Qed.

Lemma StronglySorted_sublist {A} (R : relation A) (l k : list A) :
  k `sublist_of` l -> StronglySorted R l -> StronglySorted R k.
Proof.
  induction 1 as [|x k l Hs IH|x k l Hs IH]; intros Hl.
  - constructor.
  - apply StronglySorted_inv in Hl as [Hl Hx]. constructor; [auto|].
    eapply Forall_impl; [|intros y Hy; exact Hy].
    rewrite Forall_forall in Hx |- *. intros y Hy. apply Hx.
    eapply sublist_subseteq; eauto.
  - apply StronglySorted_inv in Hl as [Hl _]. auto.
Qed.

Lemma sublist_fmap_1 {A B} (f : A -> B) (l k : list A) :
  k `sublist_of` l -> (f <$> k) `sublist_of` (f <$> l).
Proof. induction 1; cbn; constructor; auto. Qed.

(** X7.  A successful [searchProducts] returns at most [topK] results (10
    by default), each with a score of at least [minScore] (0.7 by
    default), best score first, and no vector id twice. *)
Theorem searchProducts_results F vector options w :
  match snd (searchProducts similarity F vector options w) with
  | Some rs =>
      (length rs <= default 10 (o_topK options))%nat /\
      Forall (fun r => (default (7 # 10) (o_minScore options) <= sr_score r)%Q) rs /\
      StronglySorted (fun a b => (sr_score b <= sr_score a)%Q) rs /\
      NoDup (sr_id <$> rs)
  | None => query_throws F = true
  end.
Proof.
  unfold searchProducts. destruct (query_throws F); [reflexivity|]. cbn.
  set (flt := queryFilter _).
  set (incl := default true _).
  set (ms := index_query _ _ _ _ _ _).
  assert (Hsorted : StronglySorted better ms).
  { subst ms. unfold index_query.
    eapply StronglySorted_sublist; [apply sublist_take|].
    apply StronglySorted_merge_sort; apply _. }
  assert (Hnodup : NoDup (m_id <$> ms)).
  { subst ms. unfold index_query.
    eapply sublist_NoDup; [|apply sublist_fmap_1, sublist_take].
    rewrite merge_sort_Permutation, <- list_fmap_compose.
    eapply sublist_NoDup; [|apply sublist_fmap_1, sublist_filter].
    apply NoDup_fst_map_to_list. }
  split; [|split; [|split]].
  - rewrite length_fmap.
    etransitivity; [apply length_filter|].
    subst ms. unfold index_query. rewrite length_take. lia.
  - apply Forall_fmap, Forall_forall. intros m Hm.
    apply list_elem_of_filter in Hm as [Hs _]. cbn.
    now apply Qle_bool_iff.
  - apply (StronglySorted_fmap _ better); [auto|].
    eapply StronglySorted_sublist; [apply sublist_filter|exact Hsorted].
  - rewrite <- list_fmap_compose.
    eapply sublist_NoDup; [exact Hnodup|]. apply sublist_fmap_1, sublist_filter.
Qed.

Lemma active_condition md :
  entry_holds md "isActive" (cond_eq (VBool true)) = true ->
  exists m, md = Some m /\ md_isActive m = true.
Proof.
  destruct md as [m|]; [|discriminate]. cbn.
  unfold cond_holds. cbn. rewrite !andb_true_r.
  intros H. exists m. split; [reflexivity|].
  now destruct (md_isActive m).
Qed.

Lemma text_condition md key (field : ProductMetadata -> option string) c :
  (forall m, meta_field m key = VStr <$> field m) ->
  entry_holds md key (cond_eq (VStr c)) = true ->
  exists m, md = Some m /\ field m = Some c.
Proof.
  intros Hkey. destruct md as [m|]; [|discriminate]. cbn. rewrite Hkey.
  destruct (field m) as [s|] eqn:Hf; [|discriminate]. cbn.
  unfold cond_holds. cbn. rewrite !andb_true_r.
  intros H. apply String.eqb_eq in H. subst. eauto.
Qed.

Lemma price_condition md lo hi :
  entry_holds md "price" (cond_range (Some lo) (Some hi)) = true ->
  exists m, md = Some m /\ (lo <= md_price m)%Q /\ (md_price m <= hi)%Q.
Proof.
  destruct md as [m|]; [|discriminate]. cbn.
  unfold cond_holds. cbn. intros H.
  apply andb_true_iff in H as [H1 H2].
  apply Qle_bool_iff in H1, H2. eauto.
Qed.

(** The default stock filter survives a caller filter on another field. *)
Lemma default_filter_kept key c :
  key <> "quantity" -> key <> "isActive" ->
  queryFilter {[ key := c ]} !! "quantity" = Some (cond_gt 0%Q) /\
  queryFilter {[ key := c ]} !! "isActive" = Some (cond_eq (VBool true)) /\
  queryFilter {[ key := c ]} !! key = Some c.
Proof.
  intros H1 H2. unfold queryFilter.
  rewrite !lookup_union_r by (now apply lookup_singleton_ne).
  split; [reflexivity|]. split; [reflexivity|].
  apply lookup_union_Some_l, lookup_singleton_eq.
Qed.

Lemma single_filter_results F vector key c topK w :
  key <> "quantity" -> key <> "isActive" ->
  match snd (searchProducts similarity F vector
               (mkSearchOptions (Some topK) None (Some {[ key := c ]}) None) w) with
  | Some rs =>
      Forall (fun r => entry_holds (sr_metadata r) key c = true /\
                       exists m, sr_metadata r = Some m /\
                                 0 < md_quantity m /\ md_isActive m = true) rs
  | None => query_throws F = true
  end.
Proof.
  intros H1 H2.
  destruct (default_filter_kept key c H1 H2) as (Hq & Ha & Hk).
  destruct (snd (searchProducts _ _ _ _ _)) as [rs|] eqn:Hs.
  - apply Forall_forall. intros r Hr.
    destruct (searchProducts_sound _ _ _ _ _ _ _ Hs Hr)
      as (vid & rec & _ & _ & Hmd & Hflt).
    cbn in Hmd, Hflt. rewrite Hmd.
    pose proof (filter_matches_entry _ _ _ _ Hflt Hq) as Hq'.
    pose proof (filter_matches_entry _ _ _ _ Hflt Ha) as Ha'.
    pose proof (filter_matches_entry _ _ _ _ Hflt Hk) as Hk'.
    split; [exact Hk'|].
    apply stock_condition in Hq' as (m & Hm & Hpos).
    apply active_condition in Ha' as (m' & Hm' & Hact).
    exists m. rewrite Hm in Hm'. injection Hm' as <-. auto.
  - unfold searchProducts in Hs. destruct (query_throws F); [reflexivity|discriminate].
Qed.

(** X8.  Every result of [searchByCategory] (of [searchByBrand]) carries
    metadata with exactly that category (brand); the default filter still
    applies, so the product is active and has stock. *)
Theorem searchByCategory_results F vector value topK w :
  match snd (searchByCategory similarity F vector value topK w) with
  | Some rs =>
      Forall (fun r => exists m, sr_metadata r = Some m /\
                                 md_category m = Some value /\
                                 0 < md_quantity m /\ md_isActive m = true) rs
  | None => query_throws F = true
  end /\
  match snd (searchByBrand similarity F vector value topK w) with
  | Some rs =>
      Forall (fun r => exists m, sr_metadata r = Some m /\
                                 md_brand m = Some value /\
                                 0 < md_quantity m /\ md_isActive m = true) rs
  | None => query_throws F = true
  end.
Proof.
  split.
  - unfold searchByCategory.
    pose proof (single_filter_results F vector "category" (cond_eq (VStr value))
                  (default 10%nat topK) w) as H.
    destruct (snd _) as [rs|]; [|apply H; discriminate].
    eapply Forall_impl; [apply H; discriminate|].
    intros r [Hk (m & Hm & Hq & Ha)]. exists m. split; [exact Hm|].
    split; [|auto].
    apply (text_condition _ _ md_category) in Hk as (m' & Hm' & Hc); [|reflexivity].
    congruence.
  - unfold searchByBrand.
    pose proof (single_filter_results F vector "brand" (cond_eq (VStr value))
                  (default 10%nat topK) w) as H.
    destruct (snd _) as [rs|]; [|apply H; discriminate].
    eapply Forall_impl; [apply H; discriminate|].
    intros r [Hk (m & Hm & Hq & Ha)]. exists m. split; [exact Hm|].
    split; [|auto].
    apply (text_condition _ _ md_brand) in Hk as (m' & Hm' & Hc); [|reflexivity].
    congruence.
Qed.

(** X9.  Every result of [searchByPriceRange] carries metadata whose price
    lies between the two bounds, and the product is active and has
    stock. *)
Theorem searchByPriceRange_results F vector lo hi topK w :
  match snd (searchByPriceRange similarity F vector lo hi topK w) with
  | Some rs =>
      Forall (fun r => exists m, sr_metadata r = Some m /\
                                 (lo <= md_price m)%Q /\ (md_price m <= hi)%Q /\
                                 0 < md_quantity m /\ md_isActive m = true) rs
  | None => query_throws F = true
  end.
Proof.
  unfold searchByPriceRange.
  pose proof (single_filter_results F vector "price" (cond_range (Some lo) (Some hi))
                (default 10%nat topK) w) as H.
  destruct (snd _) as [rs|]; [|apply H; discriminate].
  eapply Forall_impl; [apply H; discriminate|].
  intros r [Hk (m & Hm & Hq & Ha)]. exists m. split; [exact Hm|].
  apply price_condition in Hk as (m' & Hm' & Hlo & Hhi).
  assert (m' = m) by congruence. subst m'. auto.
Qed.
End IndexQueryFacts.

Section IndexQueryExamples.
Import Catalog Pinecone Services PineconeQueries Examples.

(** On the shelf, a search by the lamp's category or price range returns
    the record in stock and not the one without stock. *)
Example shelf_by_category :
  (sr_id <$> default [] (snd (searchByCategory demo_similarity no_faults
                                [1%Q; 0%Q] "Home" None shelf))) = ["v1"] /\
  (sr_id <$> default [] (snd (searchByPriceRange demo_similarity no_faults
                                [1%Q; 0%Q] (20 # 1) (30 # 1) None shelf))) = ["v1"] /\
  (sr_id <$> default [] (snd (searchByCategory demo_similarity no_faults
                                [1%Q; 0%Q] "Garden" None shelf))) = [].
Proof. vm_compute. repeat split. Qed.
End IndexQueryExamples.

Section SearchToolFacts.
Import Catalog Pinecone Services Search SearchExtras CatalogQueries Examples.

Variable similarity : list Q -> list Q -> Q.
Variable ollama_embeddings : string -> list Q.
Variable extractSearchIntent : string -> SearchIntent.

(** The category, brand and price entries are laid over the stock
    entries, so merging with the default filter gives the same map with
    and without them. *)
Lemma queryFilter_buildSearchFilters b input intent :
  queryFilter (buildSearchFilters (with_inStockOnly b input) intent)
  = queryFilter (buildSearchFilters (with_inStockOnly true input) intent).
Proof.
  destruct b; [reflexivity|].
  unfold queryFilter, buildSearchFilters. cbn.
  fold defaultFilter.
  repeat match goal with
         | |- context [if ?c then _ else _] => destruct c
         end;
    rewrite <- ?insert_union_l, ?(left_id_L ∅ (∪)), ?(idemp_L (∪)); reflexivity.
Qed.

(** X10.  The [inStockOnly] flag has no effect: with the flag cleared the
    filter sent to the index and the whole outcome of
    [executeProductSearch] are the same as with the flag set, because
    [searchProducts] merges its default stock filter into every query. *)
Theorem inStockOnly_has_no_effect F input w :
  queryFilter (buildSearchFilters (with_inStockOnly false input)
                 (extractSearchIntent (query input)))
  = queryFilter (buildSearchFilters (with_inStockOnly true input)
                   (extractSearchIntent (query input))) /\
  executeProductSearch similarity ollama_embeddings extractSearchIntent F
    (with_inStockOnly false input) w
  = executeProductSearch similarity ollama_embeddings extractSearchIntent F
      (with_inStockOnly true input) w.
Proof.
  pose proof (queryFilter_buildSearchFilters false input
                (extractSearchIntent (query input))) as H.
  split; [exact H|].
  unfold executeProductSearch, productSearch, bind, searchProducts.
  cbn -[queryFilter buildSearchFilters index_query generateEmbedding].
  rewrite H. reflexivity.
Qed.

(** X11.  When [minPrice] is given as 0 and the inferred price range has a
    non-zero minimum [m], the filter sent to the index uses the explicit
    bound ([price >= 0]) while the filters echoed in the result report
    the inferred minimum [m]. *)
Theorem zero_minPrice_is_misreported input intent z pr m :
  minPrice input = Some z -> truthy_num (Some z) = false ->
  si_priceRange intent = Some pr -> pr_min pr = Some m ->
  truthy_num (Some m) = true ->
  (exists hi, buildSearchFilters input intent !! "price"
              = Some (cond_range (Some z) hi)) /\
  (exists hi, a_priceRange (appliedFilters input intent) = Some (Some m, hi)).
Proof.
  intros Hmin Hz Hpr Hm Hmt. split.
  - unfold buildSearchFilters. rewrite Hmin, Hpr. cbn.
    eexists. apply lookup_insert_eq.
  - unfold appliedFilters, num_or. rewrite Hmin, Hpr, Hz. cbn.
    rewrite Hm. eauto.
Qed.
End SearchToolFacts.

Section SuggestionFacts.
Import Catalog Pinecone Services Search SearchExtras CatalogQueries Examples MoreExamples.

Lemma zero_minPrice_is_misreported_witness :
  (exists hi, buildSearchFilters zero_floor_search budget_intent !! "price"
              = Some (cond_range (Some 0%Q) hi)) /\
  (exists hi, a_priceRange (appliedFilters zero_floor_search budget_intent)
              = Some (Some (50 # 1)%Q, hi)).
Proof.
  apply (zero_minPrice_is_misreported zero_floor_search budget_intent 0%Q
           (mkPriceRange (Some (50 # 1)%Q) (Some (100 # 1)%Q)) (50 # 1)%Q);
    reflexivity.
Defined.

(** X12.  [generateSearchSuggestions] gives at most five suggestions; when
    the intent names neither category nor brand and the catalog has at
    least three categories and two brands, these are the first three
    category suggestions and the first two brand suggestions, and no
    price suggestion is left, whatever the price intent. *)
Theorem price_suggestions_squeezed_out q intent (db : gmap string Product) :
  Js.truthy (si_category intent) = false ->
  Js.truthy (si_brand intent) = false ->
  (3 <= length (getCategories db))%nat ->
  (2 <= length (getBrands db))%nat ->
  (forall throws i, (length (generateSearchSuggestions throws q i db) <= 5)%nat) /\
  generateSearchSuggestions false q intent db
  = (((fun cat => q +:+ " in " +:+ cat) <$> take 3 (getCategories db))
     ++ ((fun brand => brand +:+ " " +:+ q) <$> take 2 (getBrands db)))%list.
Proof.
  intros Hc Hb Hcs Hbs. split.
  - intros throws i. unfold generateSearchSuggestions.
    destruct throws; [cbn; lia|]. rewrite length_take. lia.
  - unfold generateSearchSuggestions. rewrite Hc, Hb. cbn [negb andb].
    replace (0 <? length (getCategories db))%nat with true
      by (symmetry; apply Nat.ltb_lt; lia).
    replace (0 <? length (getBrands db))%nat with true
      by (symmetry; apply Nat.ltb_lt; lia).
    rewrite app_assoc. apply take_app_length'.
    rewrite length_app, !length_fmap, !length_take. lia.
Qed.

Lemma price_suggestions_squeezed_out_witness :
  (forall throws i,
      (length (generateSearchSuggestions throws "lamp" i bazaar) <= 5)%nat) /\
  generateSearchSuggestions false "lamp" (no_intent "lamp") bazaar
  = (((fun cat => "lamp" +:+ " in " +:+ cat) <$> take 3 (getCategories bazaar))
     ++ ((fun brand => brand +:+ " " +:+ "lamp") <$> take 2 (getBrands bazaar)))%list.
Proof.
  apply (price_suggestions_squeezed_out "lamp" (no_intent "lamp") bazaar);
    vm_compute; try reflexivity; lia.
Defined.

Example bazaar_suggestions :
  getCategories bazaar = ["Garden"; "Home"; "Toys"] /\
  getBrands bazaar = ["Acme"; "Lumo"] /\
  generateSearchSuggestions false "lamp" (no_intent "lamp") bazaar
  = ["lamp in Garden"; "lamp in Home"; "lamp in Toys"; "Acme lamp"; "Lumo lamp"].
Proof. vm_compute. repeat split. Qed.
End SuggestionFacts.

Section InventoryCheckFacts.
Import Catalog Pinecone Services Inventory CatalogQueries InventoryCheck Examples MoreExamples.

(** X13.  An active row without stock is in the low-stock list of
    [executeInventoryCheck], while the check of that very product says
    it is out of stock and not low on stock. *)
Theorem out_of_stock_row_is_listed_as_low_stock (db : gmap string Product) k p threshold :
  db !! k = Some p -> id p = k -> Js.truthy (Some k) = true ->
  isActive p = true -> quantity p <= 0 -> 0 < threshold ->
  (exists l,
      ck_lowStockProducts
        (executeInventoryCheck false (mkCheckInput None None threshold) db) = Some l /\
      mkLowStock k (name p) (sku p) (quantity p) ∈ l) /\
  (exists c,
      ck_product
        (executeInventoryCheck false (mkCheckInput (Some k) None threshold) db) = Some c /\
      cp_id c = k /\ isLowStock c = false /\ isOutOfStock c = true).
Proof.
  intros Hrow Hid Hk Hact Hq Hthr. split.
  - unfold executeInventoryCheck. cbn. eexists. split; [reflexivity|].
    apply list_elem_of_fmap. exists p. split; [now rewrite Hid|].
    unfold getLowStockProducts. apply list_elem_of_filter. split; [split; [lia|easy]|].
    unfold rows. apply list_elem_of_fmap. exists (k, p). split; [reflexivity|].
    now apply elem_of_map_to_list.
  - unfold executeInventoryCheck. cbn [c_productId c_sku c_threshold].
    rewrite Hk. cbn [orb]. unfold getProduct. cbn [Js.or_empty]. rewrite Hrow.
    eexists. split; [reflexivity|]. cbn. split; [easy|]. split.
    + apply andb_false_iff. right. apply Z.ltb_ge. lia.
    + apply Z.leb_le. lia.
Qed.

Lemma out_of_stock_row_is_listed_as_low_stock_witness :
  (exists l,
      ck_lowStockProducts
        (executeInventoryCheck false (mkCheckInput None None 5) (db shop)) = Some l /\
      mkLowStock "p1" "Desk Lamp" "LAMP-1" 0 ∈ l) /\
  (exists c,
      ck_product
        (executeInventoryCheck false (mkCheckInput (Some "p1") None 5) (db shop)) = Some c /\
      cp_id c = "p1" /\ isLowStock c = false /\ isOutOfStock c = true).
Proof.
  apply (out_of_stock_row_is_listed_as_low_stock (db shop) "p1" lamp_row 5);
    try reflexivity; cbn; lia.
Defined.

Lemma foldl_count {A} (f : list A -> nat) (l : list (list A)) (n : nat) :
  foldl (fun acc batch => (acc + f batch)%nat) n l
  = (n + foldr (fun batch acc => (f batch + acc)%nat) 0%nat l)%nat.
Proof.
  revert n. induction l as [|b l IH]; intros n; cbn; [lia|]. rewrite IH. lia.
Qed.

Lemma length_filter_concat {A} (P : A -> Prop) `{forall x, Decision (P x)}
    (l : list (list A)) :
  length (filter P (concat l))
  = foldr (fun batch acc => (length (filter P batch) + acc)%nat) 0%nat l.
Proof.
  induction l as [|b l IH]; cbn; [reflexivity|].
  now rewrite filter_app, length_app, IH.
Qed.

Lemma settled_result_shape r :
  settled_result r ->
  (success r = true /\ is_Some (statusChange r))
  \/ (success r = false /\ statusChange r = None).
Proof.
  intros (emb & thr & F & now & input & w & ->).
  destruct (exec_cases F input w) as [(p & Hg & Hu & Hrow)|Hno].
  - rewrite (exec_committed emb thr F now input w p Hg Hu Hrow). left. cbn. eauto.
  - destruct (exec_uncommitted emb thr F now input w Hno) as [msg ->].
    right. now cbn.
Qed.

(** X14.  In the summary of a bulk update, successful and failed results
    add up to the total, and [embeddingsUpdated] counts every failed
    result in addition to the results that report an embedding action. *)
Theorem bulk_summary_counts batchResults :
  Forall (Forall settled_result) batchResults ->
  let s := bulk_summary batchResults in
  (b_successful s + b_failed s = b_total s)%nat /\
  (b_embeddingsUpdated s
   = b_failed s
     + length (filter (fun r => action_of r <> none) (concat batchResults)))%nat.
Proof.
  intros Hall. cbn zeta. unfold bulk_summary. cbn [b_successful b_failed b_total
    b_embeddingsUpdated].
  rewrite foldl_count, <- length_filter_concat, Nat.add_0_l.
  assert (Hres : Forall settled_result (concat batchResults)).
  { apply Forall_concat, Hall. }
  clear Hall. induction Hres as [|r l Hr _ IH]; [now cbn|].
  rewrite !filter_cons. destruct IH as [IH1 IH2].
  assert (Hc : counts_as_embedding_update r = true
               <-> success r = false \/ action_of r <> none).
  { unfold counts_as_embedding_update, action_of.
    destruct (settled_result_shape r Hr) as [[Hs [sc Hsc]]|[Hs Hsc]];
      rewrite Hs, Hsc; [|tauto].
    destruct (embeddingAction sc); intuition congruence. }
  assert (Hx : success r = false -> action_of r = none).
  { unfold action_of.
    destruct (settled_result_shape r Hr) as [[Hs [sc Hsc]]|[Hs Hsc]];
      rewrite Hsc; congruence. }
  destruct (success r) eqn:Hs;
    repeat case_decide; cbn [length]; try (split; lia);
    exfalso; try congruence; tauto.
Qed.

Lemma bulk_summary_counts_witness :
  let s := bulk_summary mixed_batch in
  (b_successful s + b_failed s = b_total s)%nat /\
  (b_embeddingsUpdated s
   = b_failed s
     + length (filter (fun r => action_of r <> none) (concat mixed_batch)))%nat.
Proof.
  apply (bulk_summary_counts mixed_batch).
  repeat constructor.
  - exists demo_embed, 5, no_faults, 7, (mkUpdateInput "p2" 20 true), shop. reflexivity.
  - exists demo_embed, 5, no_faults, 8, (mkUpdateInput "nope" 3 true), shop. reflexivity.
Defined.

Example mixed_batch_summary :
  bulk_summary mixed_batch = mkBulkSummary 2 1 1 1 /\
  action_of <$> concat mixed_batch = [none; none].
Proof. vm_compute. split; reflexivity. Qed.
End InventoryCheckFacts.

Section InventoryUpdateFacts.
Import Catalog Pinecone Services Inventory Examples.

Variable ollama_embeddings : string -> list Q.
Variable threshold : Z.

Lemma row_after_flags F now input p u row :
  let r := row_after ollama_embeddings threshold F now input p u row in
  (action_after ollama_embeddings threshold F input p u = none -> r = row) /\
  (action_after ollama_embeddings threshold F input p u = removed ->
   r = set_not_embedded now row) /\
  (action_after ollama_embeddings threshold F input p u = added
   \/ action_after ollama_embeddings threshold F input p u = updated ->
   r = set_embedded now (pineconeId u) row).
Proof.
  unfold row_after, action_after.
  destruct (updateEmbedding input); [|cbn; intuition congruence].
  destruct (chosen_action _ _ _ _);
    repeat match goal with
           | |- context [if ?b then _ else _] => destruct b
           end; cbn; intuition congruence.
Qed.

(** X15.  [executeInventoryUpdate] is all-or-nothing on the catalog: a
    failed update leaves catalog, index and jobs as they were and reports
    neither a status change nor the previous quantity; a successful one
    has stored the new quantity with [isActive = (quantity > 0)] in the
    row it names, reports the quantity that row had, and touches no
    other row. *)
Theorem update_is_all_or_nothing F now input w :
  let w' := fst (executeInventoryUpdate ollama_embeddings threshold F now input w) in
  let r := snd (executeInventoryUpdate ollama_embeddings threshold F now input w) in
  (success r = false ->
   w' = w /\ statusChange r = None /\ previousQuantity r = 0) /\
  (success r = true ->
   exists p row,
     db w !! productId input = Some p /\
     db w' !! productId input = Some row /\
     quantity row = in_quantity input /\
     isActive row = (0 <? in_quantity input) /\
     previousQuantity r = quantity p /\
     newQuantity r = in_quantity input /\
     forall k, k <> productId input -> db w' !! k = db w !! k).
Proof.
  cbn zeta.
  destruct (exec_cases F input w) as [(p & Hg & Hu & Hrow)|Hno].
  - rewrite (exec_committed ollama_embeddings threshold F now input w p Hg Hu Hrow).
    cbn [fst snd success db]. split; [discriminate|]. intros _.
    eexists p, _. split; [exact Hrow|]. split; [apply lookup_insert_eq|].
    destruct (row_after_committed ollama_embeddings threshold F now input p
                (set_inventory now (in_quantity input) p)) as [Hq Ha].
    cbn zeta in Hq, Ha. rewrite Hq, Ha. cbn.
    repeat split. intros k Hk. now apply lookup_insert_ne.
  - destruct (exec_uncommitted ollama_embeddings threshold F now input w Hno)
      as [msg ->].
    cbn. split; [easy|discriminate].
Qed.

Lemma action_after_inv F input p u :
  match action_after ollama_embeddings threshold F input p u with
  | removed =>
      updateEmbedding input = true /\
      chosen_action threshold input p u = removed /\
      delete_throws F = false /\ mark_throws F = false
  | added =>
      updateEmbedding input = true /\
      chosen_action threshold input p u = added /\
      upload_lands ollama_embeddings F u = true /\ mark_throws F = false
  | updated =>
      updateEmbedding input = true /\
      chosen_action threshold input p u = updated /\
      upload_lands ollama_embeddings F u = true /\ mark_throws F = false
  | none => True
  end.
Proof.
  unfold action_after.
  destruct (updateEmbedding input); [|exact I].
  destruct (chosen_action _ _ _ _);
    repeat match goal with
           | |- context [if ?b then _ else _] => destruct b eqn:?
           end; cbn in *; try exact I;
    repeat match goal with
           | H : _ && _ = true |- _ => apply andb_true_iff in H; destruct H
           | H : negb _ = true |- _ => apply negb_true_iff in H
           end; auto.
Qed.

Lemma chosen_action_inv input p u :
  match chosen_action threshold input p u with
  | removed => in_quantity input <= 0 \/ in_quantity input < threshold
  | added | updated =>
      0 < in_quantity input /\ threshold <= in_quantity input /\ isActive u = true
  | none => True
  end.
Proof.
  unfold chosen_action.
  destruct (in_quantity input <=? 0) eqn:H0; cbn [orb].
  { apply Z.leb_le in H0. destruct (_ && _); [now left|exact I]. }
  destruct (in_quantity input <? threshold) eqn:H1.
  { apply Z.ltb_lt in H1. destruct (_ && _); [now right|exact I]. }
  apply Z.leb_gt in H0. apply Z.ltb_ge in H1.
  destruct (negb (isActive p) && isActive u) eqn:Ha.
  { apply andb_true_iff in Ha as [_ Ha]. auto. }
  destruct (isActive u && hasEmbedding p) eqn:Hb; [|exact I].
  apply andb_true_iff in Hb as [Hb _]. auto.
Qed.

Lemma vector_id_set_embedded now u :
  vector_id (set_embedded now (pineconeId u) u) = vector_id u.
Proof.
  unfold vector_id, set_embedded. cbn [pineconeId id].
  destruct (Js.truthy (pineconeId u)) eqn:H; rewrite ?H; reflexivity.
Qed.

(** X16.  The embedding action a result reports has happened: after
    ['removed'] the index has no vector under the row's [pineconeId] and
    the row is flagged as not embedded; after ['added'] or ['updated']
    the row is flagged as embedded and the index holds the vector of its
    embedding text under [pineconeId || id]; after a successful update
    reporting ['none'] the row is the old one with the new quantity. *)
Theorem reported_action_has_happened F now input w :
  let w' := fst (executeInventoryUpdate ollama_embeddings threshold F now input w) in
  let r := snd (executeInventoryUpdate ollama_embeddings threshold F now input w) in
  match action_of r with
  | removed =>
      exists p row,
        db w !! productId input = Some p /\
        db w' !! productId input = Some row /\
        hasEmbedding row = false /\
        index w' !! Js.or_empty (pineconeId p) = None /\
        (in_quantity input <= 0 \/ in_quantity input < threshold)
  | added | updated =>
      exists row,
        db w' !! productId input = Some row /\
        hasEmbedding row = true /\ isActive row = true /\
        0 < quantity row /\ threshold <= quantity row /\
        index w' !! vector_id row
        = Some (mkRecord (ollama_embeddings (createProductEmbeddingText row)) None)
  | none =>
      success r = true ->
      exists p,
        db w !! productId input = Some p /\
        db w' !! productId input = Some (set_inventory now (in_quantity input) p)
  end.
Proof.
  cbn zeta.
  destruct (exec_cases F input w) as [(p & Hg & Hu & Hrow)|Hno].
  2:{ destruct (exec_uncommitted ollama_embeddings threshold F now input w Hno)
        as [msg ->]. cbn. discriminate. }
  rewrite (exec_committed ollama_embeddings threshold F now input w p Hg Hu Hrow).
  cbn [fst snd action_of statusChange embeddingAction db index success].
  set (u := set_inventory now (in_quantity input) p).
  pose proof (row_after_flags F now input p u u) as (Hn & Hr & Hau).
  cbn zeta in Hn, Hr, Hau.
  destruct (action_after ollama_embeddings threshold F input p u) eqn:Hact.
  all: pose proof (action_after_inv F input p u) as Hinv; rewrite Hact in Hinv.
  all: pose proof (chosen_action_inv input p u) as Hch.
  - destruct Hinv as (Hupd & Hc & Hup & Hm). rewrite Hc in Hch.
    destruct Hch as (Hq & Ht & Ha).
    rewrite (Hau (or_introl eq_refl)).
    eexists. split; [apply lookup_insert_eq|].
    rewrite vector_id_set_embedded, text_set_embedded.
    unfold index_after. rewrite Hupd, Hc, Hup.
    cbn [hasEmbedding isActive quantity set_embedded].
    repeat split; try easy. apply lookup_insert_eq.
  - destruct Hinv as (Hupd & Hc & Hdel & Hm). rewrite Hc in Hch.
    rewrite (Hr eq_refl).
    eexists p, _. split; [exact Hrow|]. split; [apply lookup_insert_eq|].
    split; [reflexivity|]. split; [|exact Hch].
    unfold index_after. rewrite Hupd, Hc, Hdel. apply lookup_delete_eq.
  - destruct Hinv as (Hupd & Hc & Hup & Hm). rewrite Hc in Hch.
    destruct Hch as (Hq & Ht & Ha).
    rewrite (Hau (or_intror eq_refl)).
    eexists. split; [apply lookup_insert_eq|].
    rewrite vector_id_set_embedded, text_set_embedded.
    unfold index_after. rewrite Hupd, Hc, Hup.
    cbn [hasEmbedding isActive quantity set_embedded].
    repeat split; try easy. apply lookup_insert_eq.
  - intros _. exists p. split; [exact Hrow|].
    rewrite (Hn eq_refl). apply lookup_insert_eq.
Qed.
End InventoryUpdateFacts.

Section ConversationFacts.
Import Agent Conversations.

Variable respond : Handler -> string -> string.




(** X18.  Whatever the query, the message the search endpoint builds is
    dispatched to the product-search handler, also when the query asks
    about stock levels. *)
Theorem search_endpoint_dispatch query :
  requiresProductSearch (search_endpoint_message query) = true /\
  dispatch (search_endpoint_message query) = handleProductSearch.
Proof.
  assert (H : requiresProductSearch (search_endpoint_message query) = true).
  { unfold requiresProductSearch, search_endpoint_message, searchKeywords.
    cbn [existsb]. apply orb_true_iff. left. reflexivity. }
  split; [exact H|]. unfold dispatch. now rewrite H.
Qed.
End ConversationFacts.

Section LoopFacts.
Import Catalog Pinecone Services CatalogQueries InventoryAgent.
Context {C : Type}.
Variable body : nat -> Product -> C -> World -> World * C.

Lemma for_each_app n l1 l2 c w :
  for_each body n (l1 ++ l2) c w
  = for_each body (n + length l1) l2
      (snd (for_each body n l1 c w)) (fst (for_each body n l1 c w)).
Proof.
  revert n c w. induction l1 as [|p l1 IH]; intros n c w; cbn.
  - now rewrite Nat.add_0_r.
  - destruct (body n p c w) as [w' c']. rewrite IH.
    now replace (S n + length l1)%nat with (n + S (length l1))%nat by lia.
Qed.

(** With a positive batch size the batch loop ends within
    [length products] turns, and has run the body on every product in
    order. *)
Lemma in_batches_flat fuel bs base i l c w :
  (0 < bs)%nat -> (length l - i <= fuel)%nat ->
  in_batches body fuel bs base i l c w
  = Some (for_each body (base + i) (drop i l) c w).
Proof.
  intros Hbs. revert i c w.
  induction fuel as [|fuel IH]; intros i c w Hf; cbn [in_batches].
  - destruct (i <? length l)%nat eqn:H.
    + apply Nat.ltb_lt in H. lia.
    + apply Nat.ltb_ge in H. now rewrite drop_ge by lia.
  - destruct (i <? length l)%nat eqn:H.
    + apply Nat.ltb_lt in H.
      rewrite <- (take_drop bs (drop i l)) at 2. rewrite for_each_app.
      destruct (for_each body (base + i) (take bs (drop i l)) c w) as [w' c'].
      cbn [fst snd]. rewrite IH by lia. rewrite drop_drop.
      destruct (decide (i + bs <= length l)%nat) as [Hle|Hgt].
      * rewrite length_take, length_drop.
        now replace (base + i + bs `min` (length l - i))%nat
          with (base + (i + bs))%nat by lia.
      * now rewrite drop_ge by lia.
    + apply Nat.ltb_ge in H. now rewrite drop_ge by lia.
Qed.

Lemma for_each_preserves (R : World -> World -> Prop)
    `{!Reflexive R} `{!Transitive R} :
  (forall n p c w, R w (fst (body n p c w))) ->
  forall l n c w, R w (fst (for_each body n l c w)).
Proof.
  intros Hstep l. induction l as [|p l IH]; intros n c w; cbn; [reflexivity|].
  specialize (Hstep n p c w). destruct (body n p c w) as [w' c'].
  etransitivity; [exact Hstep|apply IH].
Qed.

Lemma for_each_counts (m : C -> nat) :
  (forall n p c w, (m c <= m (snd (body n p c w)) <= S (m c))%nat) ->
  forall l n c w,
    (m c <= m (snd (for_each body n l c w)) <= m c + length l)%nat.
Proof.
  intros Hstep l. induction l as [|p l IH]; intros n c w; cbn; [lia|].
  specialize (Hstep n p c w). destruct (body n p c w) as [w' c'].
  specialize (IH (S n) c' w'). cbn [snd] in Hstep. lia.
Qed.

(** When the body, run on the stored row, rewrites just that row, the
    loop over rows with distinct ids rewrites each of them once and
    leaves the other rows alone. *)
Lemma for_each_rows (g : nat -> Product -> Product) :
  (forall n p c w, db w !! id p = Some p ->
                   db (fst (body n p c w)) = <[id p := g n p]> (db w)) ->
  forall l n c w,
    NoDup (id <$> l) ->
    (forall p, p ∈ l -> db w !! id p = Some p) ->
    (forall p, p ∈ l ->
               exists m, db (fst (for_each body n l c w)) !! id p = Some (g m p)) /\
    (forall k, k ∉ id <$> l ->
               db (fst (for_each body n l c w)) !! k = db w !! k).
Proof.
  intros Hstep l. induction l as [|p l IH]; intros n c w Hnd Hrows.
  { split; [intros p Hp; inversion Hp|reflexivity]. }
  cbn [for_each]. apply NoDup_cons in Hnd as [Hp Hnd].
  pose proof (Hstep n p c w (Hrows p (list_elem_of_here _ _))) as Hdb.
  destruct (body n p c w) as [w' c']. cbn [fst] in Hdb.
  destruct (IH (S n) c' w' Hnd) as [IH1 IH2].
  { intros q Hq. rewrite Hdb, lookup_insert_ne.
    - apply Hrows. now right.
    - intros Heq. apply Hp. rewrite Heq. now apply list_elem_of_fmap_2. }
  split.
  - intros q Hq. apply elem_of_cons in Hq as [->|Hq]; [|auto].
    exists n. rewrite IH2 by exact Hp. rewrite Hdb. apply lookup_insert_eq.
  - intros k Hk. rewrite fmap_cons in Hk. apply not_elem_of_cons in Hk as [Hk1 Hk2].
    rewrite IH2 by exact Hk2. rewrite Hdb. now apply lookup_insert_ne.
Qed.
(** When the body also steps the counters by [f], the loop folds [f]
    over the list. *)
Lemma for_each_exact (g : nat -> Product -> Product) (f : Product -> C -> C) :
  (forall n p c w, db w !! id p = Some p ->
                   db (fst (body n p c w)) = <[id p := g n p]> (db w) /\
                   snd (body n p c w) = f p c) ->
  forall l n c w,
    NoDup (id <$> l) ->
    (forall p, p ∈ l -> db w !! id p = Some p) ->
    snd (for_each body n l c w) = foldl (fun c p => f p c) c l.
Proof.
  intros Hstep l. induction l as [|p l IH]; intros n c w Hnd Hrows;
    [reflexivity|].
  cbn [for_each foldl]. apply NoDup_cons in Hnd as [Hp Hnd].
  destruct (Hstep n p c w (Hrows p (list_elem_of_here _ _))) as [Hdb Hc].
  destruct (body n p c w) as [w' c']. cbn [fst snd] in Hdb, Hc. subst c'.
  apply IH; [exact Hnd|].
  intros q Hq. rewrite Hdb, lookup_insert_ne.
  - apply Hrows. now right.
  - intros Heq. apply Hp. rewrite Heq. now apply list_elem_of_fmap_2.
Qed.

(** When no step adds a vector, a vector deleted by the step of a
    selected product is absent after the loop. *)
Lemma for_each_deleted (g : nat -> Product -> Product)
    (sel : Product -> bool) (key : Product -> string) :
  (forall n p c w, index (fst (body n p c w)) ⊆ index w) ->
  (forall n p c w, db w !! id p = Some p ->
                   db (fst (body n p c w)) = <[id p := g n p]> (db w) /\
                   (sel p = true -> index (fst (body n p c w)) !! key p = None)) ->
  forall l n c w,
    NoDup (id <$> l) ->
    (forall p, p ∈ l -> db w !! id p = Some p) ->
    forall p, p ∈ l -> sel p = true ->
              index (fst (for_each body n l c w)) !! key p = None.
Proof.
  intros Hsub Hstep l. induction l as [|p l IH]; intros n c w Hnd Hrows q Hq Hsel;
    [inversion Hq|].
  cbn [for_each]. apply NoDup_cons in Hnd as [Hp Hnd].
  destruct (Hstep n p c w (Hrows p (list_elem_of_here _ _))) as [Hdb Hdel].
  assert (Hrefl : Reflexive (fun w w' : World => index w' ⊆ index w))
    by (intros ?; reflexivity).
  assert (Htrans : Transitive (fun w w' : World => index w' ⊆ index w))
    by (intros w1 w2 w3 H1 H2; now transitivity (index w2)).
  pose proof (for_each_preserves (fun w w' => index w' ⊆ index w) Hsub l (S n)
                (snd (body n p c w)) (fst (body n p c w))) as Hrest.
  destruct (body n p c w) as [w' c']. cbn [fst snd] in *.
  apply elem_of_cons in Hq as [->|Hq].
  - eapply lookup_weaken_None; [apply Hdel, Hsel|exact Hrest].
  - apply IH; try assumption.
    intros r Hr. rewrite Hdb, lookup_insert_ne.
    + apply Hrows. now right.
    + intros Heq. apply Hp. rewrite Heq. now apply list_elem_of_fmap_2.
Qed.
End LoopFacts.

Section CatalogRows.
Import Catalog CatalogQueries.

Lemma NoDup_ids_rows (db : gmap string Product) :
  keyed_by_id db -> NoDup (id <$> rows db).
Proof.
  intros Hk. unfold rows. rewrite <- list_fmap_compose.
  erewrite list_fmap_ext; [apply NoDup_fst_map_to_list|].
  intros i [k p] Hi. cbn. apply list_elem_of_lookup_2 in Hi.
  apply elem_of_map_to_list in Hi. now apply Hk.
Qed.

Lemma keyed_row (db : gmap string Product) p :
  keyed_by_id db -> p ∈ rows db -> db !! id p = Some p.
Proof.
  intros Hk Hp. apply elem_of_rows in Hp as [k Hp].
  now rewrite (Hk k p Hp).
Qed.

Lemma getAllProducts_sublist o (db : gmap string Product) :
  exists l, getAllProducts o db `sublist_of` l /\ l ≡ₚ rows db.
Proof.
  unfold getAllProducts.
  exists (merge_sort newer (filter (fun p => list_where o p = true) (rows db)) ++
          filter (fun p => ~ list_where o p = true) (rows db))%list.
  split.
  - etransitivity; [apply sublist_take|]. etransitivity; [apply sublist_drop|].
    apply sublist_inserts_r. reflexivity.
  - rewrite merge_sort_Permutation. apply filter_app_complement.
Qed.

Lemma NoDup_ids_getAllProducts o (db : gmap string Product) :
  keyed_by_id db -> NoDup (id <$> getAllProducts o db).
Proof.
  intros Hk. destruct (getAllProducts_sublist o db) as (l & Hs & Hp).
  eapply sublist_NoDup; [|apply sublist_fmap_1, Hs].
  rewrite Hp. now apply NoDup_ids_rows.
Qed.
Lemma keyed_by_id_decide (db : gmap string Product) :
  bool_decide (map_Forall (fun k p => id p = k) db) = true -> keyed_by_id db.
Proof. intros H k p Hp. apply bool_decide_eq_true_1 in H. exact (H k p Hp). Qed.
End CatalogRows.

Section MaintenanceFacts.
Import Catalog Pinecone Services CatalogQueries InventoryAgent Examples.

Variable show_count : nat -> string.

Ltac branch_step :=
  match goal with
  | |- context [match ?x with _ => _ end] =>
      lazymatch x with
      | context [match _ with _ => _ end] => fail
      | _ => destruct x eqn:?
      end
  end.

Ltac run_step :=
  unfold db_updateProduct, db_markProductNotEmbedded, db_markProductEmbedded,
    db_write, deleteProduct, upsertProduct, updateProduct, markProductNotEmbedded,
    markProductEmbedded, prisma_update, generateEmbedding, bind, ret,
    record_call, with_index, with_db, index_deleteOne, index_upsert;
  cbn.

#[local] Instance only_unembeds_refl : Reflexive only_unembeds.
Proof. intros w. split; [intros k; reflexivity|split; reflexivity]. Qed.

#[local] Instance only_unembeds_trans : Transitive only_unembeds.
Proof.
  intros w1 w2 w3 (Q1 & I1 & J1) (Q2 & I2 & J2). split; [|split].
  - intros k. now rewrite Q2, Q1.
  - now transitivity (index w2).
  - congruence.
Qed.

Lemma maintain_product_only_unembeds threshold env n p c w :
  only_unembeds w (fst (maintain_product threshold env n p c w)).
Proof.
  unfold maintain_product. destruct c as [d r]. destruct w as [dbw idx js cs].
  run_step.
  repeat (branch_step; cbn in *; simplify_eq);
    (split; [|split; [|reflexivity]]); cbn;
    try (intros k; reflexivity); try reflexivity;
    try apply delete_subseteq.
  all: intros k; cbn [db];
    repeat match goal with
           | H : <[_:=_]> _ !! _ = Some _ |- _ =>
               rewrite lookup_insert_eq in H; simplify_eq
           end;
    destruct (decide (k = id p)) as [->|Hk];
    rewrite ?lookup_insert_eq, ?lookup_insert_ne by congruence;
    try reflexivity;
    match goal with H : _ !! _ = Some _ |- _ => now rewrite H end.
Qed.

Lemma maintain_product_counts threshold env n p c w :
  let c' := snd (maintain_product threshold env n p c w) in
  (fst c <= fst c' <= S (fst c))%nat /\ (snd c <= snd c' <= S (snd c))%nat.
Proof.
  unfold maintain_product. destruct c as [d r]. run_step.
  repeat (branch_step; cbn in *; simplify_eq); lia.
Qed.

(** X19.  Whatever fails on the way, [performLowStockMaintenance] with a
    positive batch size comes to an end; it changes no quantity, adds no
    vector to the index, and neither counter exceeds the number of
    products processed; when it reports failure nothing was changed. *)
Theorem maintenance_only_unembeds config env w :
  (0 < batchSize config)%nat ->
  exists w' r,
    performLowStockMaintenance show_count config env w = Some (w', r) /\
    (mt_deactivated r <= mt_processed r)%nat /\
    (mt_embeddingsRemoved r <= mt_processed r)%nat /\
    (forall k, quantity <$> (db w' !! k) = quantity <$> (db w !! k)) /\
    index w' ⊆ index w /\
    (mt_success r = false -> w' = w).
Proof.
  intros Hbs. unfold performLowStockMaintenance.
  destruct (read_throws env).
  { eexists _, _. split; [reflexivity|]. cbn. repeat split; try lia; reflexivity. }
  set (l := getLowStockProducts (lowStockThreshold config) (db w)).
  rewrite in_batches_flat by (exact Hbs || lia). rewrite drop_0.
  pose proof (for_each_preserves _ only_unembeds
                (maintain_product_only_unembeds (lowStockThreshold config) env)
                l 0%nat (0%nat, 0%nat) w) as (HQ & HI & _).
  pose proof (for_each_counts (maintain_product (lowStockThreshold config) env) fst
                (fun n p c w => proj1 (maintain_product_counts _ env n p c w))
                l 0%nat (0%nat, 0%nat) w) as Hd.
  pose proof (for_each_counts (maintain_product (lowStockThreshold config) env) snd
                (fun n p c w => proj2 (maintain_product_counts _ env n p c w))
                l 0%nat (0%nat, 0%nat) w) as Hr.
  cbn [Nat.add] in *.
  destruct (for_each _ _ _ _ _) as [w' [d r]]. cbn [fst snd] in *.
  eexists _, _. split; [reflexivity|]. cbn.
  split; [lia|]. split; [lia|]. split; [exact HQ|]. split; [exact HI|discriminate].
Qed.

Lemma maintain_product_calm threshold env n p c w :
  item_faults env n = no_faults -> db w !! id p = Some p ->
  db (fst (maintain_product threshold env n p c w))
  = <[id p := maintained threshold (clock env n) p]> (db w) /\
  index (fst (maintain_product threshold env n p c w))
  = (if to_unembed threshold p
     then delete (Js.or_empty (pineconeId p)) (index w) else index w) /\
  snd (maintain_product threshold env n p c w)
  = ((if to_deactivate p then S (fst c) else fst c),
     (if to_unembed threshold p then S (snd c) else snd c)).
Proof.
  intros HF Hrow. unfold maintain_product, maintained. destruct c as [d r].
  rewrite HF. destruct w as [dbw idx js cs]. cbn in Hrow.
  destruct (to_deactivate p); destruct (to_unembed threshold p);
    run_step; rewrite ?Hrow; cbn; rewrite ?lookup_insert_eq, ?Hrow; cbn;
    rewrite ?insert_insert_eq;
    repeat split; try reflexivity;
    symmetry; now apply insert_id.
Qed.

Lemma count_foldl {A} (P : A -> bool) (l : list A) (n : nat) :
  foldl (fun c p => if P p then S c else c) n l
  = (n + length (filter (fun p => P p = true) l))%nat.
Proof.
  revert n. induction l as [|p l IH]; intros n; cbn [foldl]; [cbn; lia|].
  rewrite IH, filter_cons. destruct (P p); case_decide; try congruence;
    cbn [length]; lia.
Qed.

Lemma foldl_pair {A B1 B2} (f1 : A -> B1 -> B1) (f2 : A -> B2 -> B2) l a b :
  foldl (fun c p => (f1 p (fst c), f2 p (snd c))) (a, b) l
  = (foldl (fun c p => f1 p c) a l, foldl (fun c p => f2 p c) b l).
Proof.
  revert a b. induction l as [|p l IH]; intros a b; cbn [foldl]; [reflexivity|].
  apply IH.
Qed.

(** X20.  A fault-free [performLowStockMaintenance] on a catalog whose
    rows are stored under their ids, with a positive threshold: afterwards
    every active row has stock, no active row below the threshold is marked
    as embedded under a vector id, the vectors of the rows that were so
    marked are gone from the index, and [deactivated] is the number of
    active rows that had no stock. *)
Theorem maintenance_deactivates_sold_out config env w :
  keyed_by_id (db w) -> 0 < lowStockThreshold config ->
  (0 < batchSize config)%nat ->
  read_throws env = false -> (forall n, item_faults env n = no_faults) ->
  exists w' r,
    performLowStockMaintenance show_count config env w = Some (w', r) /\
    mt_success r = true /\
    mt_deactivated r
    = length (filter (fun p => to_deactivate p = true) (rows (db w))) /\
    (forall k row, db w' !! k = Some row -> isActive row = true ->
                   0 < quantity row /\
                   (quantity row < lowStockThreshold config ->
                    hasEmbedding row && Js.truthy (pineconeId row) = false)) /\
    (forall k p, db w !! k = Some p -> isActive p = true ->
                 to_unembed (lowStockThreshold config) p = true ->
                 index w' !! Js.or_empty (pineconeId p) = None).
Proof.
  intros Hkey Hthr Hbs Hread Hcalm. unfold performLowStockMaintenance.
  rewrite Hread.
  set (thr := lowStockThreshold config) in *.
  set (l := getLowStockProducts thr (db w)).
  rewrite in_batches_flat by (exact Hbs || lia). rewrite drop_0. cbn [Nat.add].
  assert (Hl : forall p, p ∈ l <-> (quantity p < thr /\ isActive p = true) /\ p ∈ rows (db w)).
  { intros p. unfold l, getLowStockProducts. now rewrite list_elem_of_filter. }
  assert (Hnd : NoDup (id <$> l)).
  { eapply sublist_NoDup; [apply NoDup_ids_rows, Hkey|].
    apply sublist_fmap_1, sublist_filter. }
  assert (Hrows : forall p, p ∈ l -> db w !! id p = Some p).
  { intros p Hp. apply keyed_row; [exact Hkey|]. now apply Hl. }
  pose proof (for_each_rows (maintain_product thr env) (fun n => maintained thr (clock env n))
                (fun n p c w H => proj1 (maintain_product_calm thr env n p c w (Hcalm n) H))
                l 0%nat (0%nat, 0%nat) w Hnd Hrows) as [Hin Hout].
  pose proof (for_each_exact (maintain_product thr env)
                (fun n => maintained thr (clock env n))
                (fun p c => ((if to_deactivate p then S (fst c) else fst c),
                             (if to_unembed thr p then S (snd c) else snd c)))
                (fun n p c w H =>
                   let '(conj a (conj _ b)) := maintain_product_calm thr env n p c w (Hcalm n) H
                   in conj a b)
                l 0%nat (0%nat, 0%nat) w Hnd Hrows) as Hcnt.
  pose proof (for_each_deleted (maintain_product thr env)
                (fun n => maintained thr (clock env n))
                (to_unembed thr) (fun p => Js.or_empty (pineconeId p))
                (fun n p c w =>
                   proj1 (proj2 (maintain_product_only_unembeds thr env n p c w)))) as Hdel.
  specialize (Hdel (fun n p c w H =>
     let '(conj a (conj b _)) := maintain_product_calm thr env n p c w (Hcalm n) H in
     conj a (fun Hs : to_unembed thr p = true =>
               eq_trans (f_equal (fun m => m !! Js.or_empty (pineconeId p))
                           (eq_trans b (f_equal (fun t : bool => if t then _ else _) Hs)))
                        (lookup_delete_eq _ _)))
     l 0%nat (0%nat, 0%nat) w Hnd Hrows).
  destruct (for_each _ _ _ _ _) as [w' [d r]]. cbn [fst snd] in *.
  eexists _, _. split; [reflexivity|]. cbn [mt_success mt_deactivated].
  split; [reflexivity|]. split; [|split].
  - assert (Hd : d = length (filter (fun p => to_deactivate p = true) l)).
    { rewrite (foldl_pair (fun p c => if to_deactivate p then S c else c)
                 (fun p c => if to_unembed thr p then S c else c)) in Hcnt.
      injection Hcnt as -> _. now rewrite count_foldl. }
    rewrite Hd. unfold l, getLowStockProducts. rewrite list_filter_filter.
    f_equal. apply list_filter_iff. intros p. unfold to_deactivate.
    rewrite andb_true_iff, Z.leb_le. intuition lia.
  - intros k row Hrow Hact.
    destruct (decide (k ∈ id <$> l)) as [Hk|Hk].
    + apply list_elem_of_fmap in Hk as (p & -> & Hp).
      destruct (Hin p Hp) as [m Hm]. rewrite Hm in Hrow. simplify_eq.
      apply Hl in Hp as [[Hq Ha] _].
      unfold maintained, to_deactivate, to_unembed in *. rewrite Ha in *.
      rewrite andb_true_r in *.
      destruct (quantity p <=? 0) eqn:H0;
        destruct ((quantity p <? thr) && hasEmbedding p && Js.truthy (pineconeId p)) eqn:Hu;
        cbn in Hact |- *; try discriminate.
      * apply Z.leb_gt in H0. split; [lia|]. reflexivity.
      * apply Z.leb_gt in H0. split; [lia|]. intros _.
        apply Z.ltb_lt in Hq. rewrite Hq in Hu. exact Hu.
    + rewrite (Hout k Hk) in Hrow.
      assert (Hnot : ~ (quantity row < thr /\ isActive row = true)).
      { intros Hc. apply Hk. rewrite <- (Hkey k row Hrow).
        apply list_elem_of_fmap_2, Hl. split; [exact Hc|].
        apply elem_of_rows. eauto. }
      assert (thr <= quantity row).
      { destruct (Z.lt_ge_cases (quantity row) thr); [|lia].
        exfalso. apply Hnot. now split. }
      split; [lia|]. intros Hq. lia.
  - intros k p Hp Ha Hu. apply Hdel; [|exact Hu].
    apply Hl. unfold to_unembed in Hu.
    apply andb_true_iff in Hu as [Hu _]. apply andb_true_iff in Hu as [Hu _].
    apply Z.ltb_lt in Hu. repeat split; try assumption. apply elem_of_rows. eauto.
Qed.

End MaintenanceFacts.

Section MaintenanceExamples.
Import Catalog Pinecone Services CatalogQueries InventoryAgent Examples.

Lemma maintenance_only_unembeds_witness :
  exists w' r,
    performLowStockMaintenance demo_count (initial_config 5) calm shop = Some (w', r) /\
    (mt_deactivated r <= mt_processed r)%nat /\
    (mt_embeddingsRemoved r <= mt_processed r)%nat /\
    (forall k, quantity <$> (db w' !! k) = quantity <$> (db shop !! k)) /\
    index w' ⊆ index shop /\
    (mt_success r = false -> w' = shop).
Proof.
  apply (maintenance_only_unembeds demo_count (initial_config 5) calm shop). cbn. lia.
Defined.

Lemma maintenance_deactivates_sold_out_witness :
  exists w' r,
    performLowStockMaintenance demo_count (initial_config 5) calm shop = Some (w', r) /\
    mt_success r = true /\
    mt_deactivated r
    = length (filter (fun p => to_deactivate p = true) (rows (db shop))) /\
    (forall k row, db w' !! k = Some row -> isActive row = true ->
                   0 < quantity row /\
                   (quantity row < 5 ->
                    hasEmbedding row && Js.truthy (pineconeId row) = false)) /\
    (forall k p, db shop !! k = Some p -> isActive p = true ->
                 to_unembed 5 p = true ->
                 index w' !! Js.or_empty (pineconeId p) = None).
Proof.
  apply (maintenance_deactivates_sold_out demo_count (initial_config 5) calm shop);
    try reflexivity; try (cbn; lia).
  apply keyed_by_id_decide. vm_compute. reflexivity.
Defined.

Example shop_maintenance :
  (snd <$> performLowStockMaintenance demo_count (initial_config 5) calm shop)
  = Some (mkMaintenance true 2 1 0
            "Processed n low stock products. Deactivated: n, Embeddings removed: n").
Proof. vm_compute. reflexivity. Qed.

End MaintenanceExamples.

Section SyncFacts.
Import Catalog Pinecone Services CatalogQueries InventoryAgent Examples.

Variable show_count : nat -> string.
Variable ollama_embeddings : string -> list Q.

Local Arguments createProductEmbeddingText : simpl never.
Local Arguments Inventory.createProductEmbeddingText : simpl never.

Ltac branch_step :=
  match goal with
  | |- context [match ?x with _ => _ end] =>
      lazymatch x with
      | context [match _ with _ => _ end] => fail
      | _ => destruct x eqn:?
      end
  end.

Ltac run_step :=
  unfold db_updateProduct, db_markProductNotEmbedded, db_markProductEmbedded,
    db_write, deleteProduct, upsertProduct, updateProduct, markProductNotEmbedded,
    markProductEmbedded, prisma_update, generateEmbedding, bind, ret,
    record_call, with_index, with_db, index_deleteOne, index_upsert;
  cbn.

Ltac settle_rows p :=
  intros k; cbn [db];
  repeat match goal with
         | H : <[_:=_]> _ !! _ = Some _ |- _ =>
             rewrite lookup_insert_eq in H; simplify_eq
         end;
  destruct (decide (k = id p)) as [->|Hk];
  rewrite ?lookup_insert_eq, ?lookup_insert_ne by congruence;
  try reflexivity;
  match goal with H : _ !! _ = Some _ |- _ => now rewrite H end.

#[local] Instance same_stock_refl : Reflexive same_stock.
Proof. intros w k. reflexivity. Qed.

#[local] Instance same_stock_trans : Transitive same_stock.
Proof. intros w1 w2 w3 H1 H2 k. now rewrite H2, H1. Qed.

Lemma sync_active_same_stock env n p c w :
  same_stock w (fst (sync_active ollama_embeddings env n p c w)).
Proof.
  unfold sync_active, createProductEmbeddingText. destruct c as [a u].
  destruct w as [dbw idx js cs]. run_step.
  repeat (branch_step; cbn in *; simplify_eq); try (intros k; reflexivity);
    settle_rows p.
Qed.

Lemma sync_inactive_same_stock env n p c w :
  same_stock w (fst (sync_inactive env n p c w)).
Proof.
  unfold sync_inactive. destruct w as [dbw idx js cs]. run_step.
  repeat (branch_step; cbn in *; simplify_eq); try (intros k; reflexivity);
    settle_rows p.
Qed.

Lemma sync_active_counts env n p c w :
  let c' := snd (sync_active ollama_embeddings env n p c w) in
  (fst c + snd c <= fst c' + snd c' <= S (fst c + snd c))%nat.
Proof.
  unfold sync_active. destruct c as [a u]. run_step.
  repeat (branch_step; cbn in *; simplify_eq); lia.
Qed.

Lemma sync_inactive_counts env n p (c : nat) w :
  (c <= snd (sync_inactive env n p c w) <= S c)%nat.
Proof.
  unfold sync_inactive. run_step.
  repeat (branch_step; cbn in *; simplify_eq); lia.
Qed.

Lemma length_getAllProducts_default o (db : gmap string Product) :
  lo_limit o = None -> (length (getAllProducts o db) <= 100)%nat.
Proof.
  intros H. unfold getAllProducts. rewrite H, length_take. cbn [default]. lia.
Qed.

(** X21.  Whatever fails on the way, [syncAllEmbeddings] with a positive
    batch size comes to an end; it handles at most 100 active and 100
    inactive products however large the catalog is, [added + updated] and
    [removed] stay within these numbers, and no quantity or activity flag
    is changed; when it reports failure nothing was changed. *)
Theorem syncAllEmbeddings_is_capped config env w :
  (0 < batchSize config)%nat ->
  exists w' r,
    syncAllEmbeddings show_count ollama_embeddings config env w = Some (w', r) /\
    (sy_processed r <= 200)%nat /\
    (sy_added r + sy_updated r <= 100)%nat /\
    (sy_removed r <= 100)%nat /\
    (sy_added r + sy_updated r + sy_removed r <= sy_processed r)%nat /\
    (forall k, (fun p => (quantity p, isActive p)) <$> (db w' !! k)
               = (fun p => (quantity p, isActive p)) <$> (db w !! k)) /\
    (sy_success r = false -> w' = w).
Proof.
  intros Hbs. unfold syncAllEmbeddings.
  destruct (read_throws env).
  { eexists _, _. split; [reflexivity|]. cbn.
    split; [lia|]. split; [lia|]. split; [lia|]. split; [lia|].
    split; reflexivity. }
  pose proof (length_getAllProducts_default active_options (db w) eq_refl) as Ha.
  pose proof (length_getAllProducts_default inactive_options (db w) eq_refl) as Hi.
  set (act := getAllProducts active_options (db w)) in *.
  set (ina := getAllProducts inactive_options (db w)) in *.
  rewrite in_batches_flat by (exact Hbs || lia). rewrite drop_0.
  pose proof (for_each_preserves _ same_stock (sync_active_same_stock env)
                act 0%nat (0%nat, 0%nat) w) as HS1.
  pose proof (for_each_counts (sync_active ollama_embeddings env)
                (fun c => (fst c + snd c)%nat) (sync_active_counts env)
                act 0%nat (0%nat, 0%nat) w) as Hc1.
  cbn [Nat.add] in *.
  destruct (for_each _ _ _ _ _) as [w1 [a u]]. cbn [fst snd] in *.
  rewrite in_batches_flat by (exact Hbs || lia). rewrite drop_0.
  pose proof (for_each_preserves _ same_stock (sync_inactive_same_stock env)
                ina (length act + 0)%nat 0%nat w1) as HS2.
  pose proof (for_each_counts (sync_inactive env) (fun c => c)
                (sync_inactive_counts env) ina (length act + 0)%nat 0%nat w1) as Hc2.
  destruct (for_each _ _ _ _ _) as [w2 r]. cbn [fst snd] in *.
  eexists _, _. split; [reflexivity|].
  cbn [sy_processed sy_added sy_updated sy_removed sy_success].
  split; [lia|]. split; [lia|]. split; [lia|]. split; [lia|].
  split; [|discriminate].
  intros k. now rewrite HS2, HS1.
Qed.
Lemma sync_active_calm env n p c w :
  item_faults env n = no_faults ->
  ollama_embeddings (createProductEmbeddingText p) <> [] ->
  db w !! id p = Some p ->
  db (fst (sync_active ollama_embeddings env n p c w))
  = <[id p := set_embedded (clock env n) (pineconeId p) p]> (db w) /\
  snd (sync_active ollama_embeddings env n p c w)
  = ((if negb (hasEmbedding p) then S (fst c) else fst c),
     (if negb (hasEmbedding p) then snd c else S (snd c))).
Proof.
  intros HF Hemb Hrow. unfold sync_active. destruct c as [a u].
  rewrite HF. destruct w as [dbw idx js cs]. cbn in Hrow. run_step.
  destruct (ollama_embeddings (createProductEmbeddingText p)) eqn:He;
    [congruence|].
  cbn. rewrite Hrow. cbn. split; [reflexivity|].
  now destruct (hasEmbedding p).
Qed.

(** [product.hasEmbedding && product.pineconeId] *)
Lemma sync_inactive_calm env n p (c : nat) w :
  item_faults env n = no_faults -> db w !! id p = Some p ->
  let sel := hasEmbedding p && Js.truthy (pineconeId p) in
  db (fst (sync_inactive env n p c w))
  = <[id p := if sel then set_not_embedded (clock env n) p else p]> (db w) /\
  (sel = true ->
   index (fst (sync_inactive env n p c w)) !! Js.or_empty (pineconeId p) = None) /\
  snd (sync_inactive env n p c w) = (if sel then S c else c).
Proof.
  intros HF Hrow. unfold sync_inactive. rewrite HF.
  destruct w as [dbw idx js cs]. cbn in Hrow.
  destruct (hasEmbedding p && Js.truthy (pineconeId p)); run_step.
  - rewrite Hrow. cbn. repeat split. intros _. apply lookup_delete_eq.
  - repeat split; [|discriminate]. symmetry. now apply insert_id.
Qed.

Lemma sync_inactive_shrinks env n p (c : nat) w :
  index (fst (sync_inactive env n p c w)) ⊆ index w.
Proof.
  unfold sync_inactive. destruct w as [dbw idx js cs]. run_step.
  repeat (branch_step; cbn in *; simplify_eq); try reflexivity;
    apply delete_subseteq.
Qed.

Lemma listed_isActive o (db : gmap string Product) p :
  p ∈ getAllProducts o db -> isActive p = default true (lo_isActive o).
Proof.
  intros Hp. apply getAllProducts_sound in Hp as [_ Hw].
  unfold list_where in Hw. apply andb_true_iff in Hw as [Hw _].
  apply andb_true_iff in Hw as [Hw _]. now apply Bool.eqb_prop in Hw.
Qed.

Lemma count_foldl_else {A} (P : A -> bool) (l : list A) (n : nat) :
  foldl (fun c p => if P p then c else S c) n l
  = (n + length (filter (fun p => P p = false) l))%nat.
Proof.
  revert n. induction l as [|p l IH]; intros n; cbn [foldl]; [cbn; lia|].
  rewrite IH, filter_cons. destruct (P p); case_decide; try congruence;
    cbn [length]; lia.
Qed.

(** X22.  A fault-free [syncAllEmbeddings] on a catalog whose rows are
    stored under their ids, with a provider that answers every text:
    [added] and [updated] count the listed active products without and
    with an embedding, [removed] the listed inactive products marked as
    embedded under a vector id; afterwards every listed active product
    is marked as embedded, no listed inactive product is marked as
    embedded under a vector id, and the vectors of the latter are gone
    from the index. *)
Theorem syncAllEmbeddings_fault_free config env w :
  keyed_by_id (db w) -> (0 < batchSize config)%nat ->
  read_throws env = false -> (forall n, item_faults env n = no_faults) ->
  (forall text, ollama_embeddings text <> []) ->
  let act := getAllProducts active_options (db w) in
  let ina := getAllProducts inactive_options (db w) in
  exists w' r,
    syncAllEmbeddings show_count ollama_embeddings config env w = Some (w', r) /\
    sy_success r = true /\
    sy_added r = length (filter (fun p => negb (hasEmbedding p) = true) act) /\
    sy_updated r = length (filter (fun p => hasEmbedding p = true) act) /\
    sy_removed r
    = length (filter (fun p => hasEmbedding p && Js.truthy (pineconeId p) = true) ina) /\
    (forall p, p ∈ act ->
               exists row, db w' !! id p = Some row /\ hasEmbedding row = true /\
                           quantity row = quantity p /\ isActive row = true) /\
    (forall p, p ∈ ina ->
               exists row, db w' !! id p = Some row /\
                           hasEmbedding row && Js.truthy (pineconeId row) = false) /\
    (forall p, p ∈ ina ->
               hasEmbedding p && Js.truthy (pineconeId p) = true ->
               index w' !! Js.or_empty (pineconeId p) = None).
Proof.
  intros Hkey Hbs Hread Hcalm Hemb act ina. unfold syncAllEmbeddings.
  rewrite Hread. fold act ina.
  assert (Hnd1 : NoDup (id <$> act)) by now apply NoDup_ids_getAllProducts.
  assert (Hnd2 : NoDup (id <$> ina)) by now apply NoDup_ids_getAllProducts.
  assert (Hrows1 : forall p, p ∈ act -> db w !! id p = Some p).
  { intros p Hp. apply getAllProducts_sound in Hp as [[k Hk] _].
    now rewrite (Hkey k p Hk). }
  assert (Hrows2 : forall p, p ∈ ina -> db w !! id p = Some p).
  { intros p Hp. apply getAllProducts_sound in Hp as [[k Hk] _].
    now rewrite (Hkey k p Hk). }
  assert (Hdisj : forall p q, p ∈ act -> q ∈ ina -> id p <> id q).
  { intros p q Hp Hq Heq.
    pose proof (Hrows1 p Hp) as H1. pose proof (Hrows2 q Hq) as H2.
    rewrite Heq, H2 in H1. injection H1 as ->.
    apply listed_isActive in Hp, Hq. cbn in Hp, Hq. congruence. }
  rewrite in_batches_flat by (exact Hbs || lia). rewrite drop_0. cbn [Nat.add].
  pose proof (for_each_rows (sync_active ollama_embeddings env)
                (fun n p => set_embedded (clock env n) (pineconeId p) p)
                (fun n p c w H =>
                   proj1 (sync_active_calm env n p c w (Hcalm n) (Hemb _) H))
                act 0%nat (0%nat, 0%nat) w Hnd1 Hrows1) as [Hin1 Hout1].
  pose proof (for_each_exact (sync_active ollama_embeddings env)
                (fun n p => set_embedded (clock env n) (pineconeId p) p)
                (fun p c => ((if negb (hasEmbedding p) then S (fst c) else fst c),
                             (if negb (hasEmbedding p) then snd c else S (snd c))))
                (fun n p c w H => sync_active_calm env n p c w (Hcalm n) (Hemb _) H)
                act 0%nat (0%nat, 0%nat) w Hnd1 Hrows1) as Hcnt1.
  destruct (for_each _ _ _ _ _) as [w1 [a u]]. cbn [fst snd] in *.
  assert (Hrows2' : forall p, p ∈ ina -> db w1 !! id p = Some p).
  { intros q Hq. rewrite Hout1; [now apply Hrows2|].
    intros Hc. apply list_elem_of_fmap in Hc as (p & Heq & Hp).
    exact (Hdisj p q Hp Hq (eq_sym Heq)). }
  rewrite in_batches_flat by (exact Hbs || lia). rewrite drop_0.
  set (sel := fun p : Product => hasEmbedding p && Js.truthy (pineconeId p)).
  pose proof (for_each_rows (sync_inactive env)
                (fun n p => if sel p then set_not_embedded (clock env n) p else p)
                (fun n p c w H =>
                   proj1 (sync_inactive_calm env n p c w (Hcalm n) H))
                ina (length act + 0)%nat 0%nat w1 Hnd2 Hrows2') as [Hin2 Hout2].
  pose proof (for_each_exact (sync_inactive env)
                (fun n p => if sel p then set_not_embedded (clock env n) p else p)
                (fun p c => if sel p then S c else c)
                (fun n p c w H =>
                   let '(conj a (conj _ b)) :=
                     sync_inactive_calm env n p c w (Hcalm n) H in conj a b)
                ina (length act + 0)%nat 0%nat w1 Hnd2 Hrows2') as Hcnt2.
  pose proof (for_each_deleted (sync_inactive env)
                (fun n p => if sel p then set_not_embedded (clock env n) p else p)
                sel (fun p => Js.or_empty (pineconeId p))
                (sync_inactive_shrinks env)
                (fun n p c w H =>
                   let '(conj a (conj b _)) :=
                     sync_inactive_calm env n p c w (Hcalm n) H in conj a b)
                ina (length act + 0)%nat 0%nat w1 Hnd2 Hrows2') as Hdel.
  destruct (for_each _ _ _ _ _) as [w2 r]. cbn [fst snd] in *.
  eexists _, _. split; [reflexivity|].
  cbn [sy_success sy_added sy_updated sy_removed].
  rewrite (foldl_pair (fun p c => if negb (hasEmbedding p) then S c else c)
             (fun p c => if negb (hasEmbedding p) then c else S c)) in Hcnt1.
  injection Hcnt1 as -> ->.
  split; [reflexivity|]. split; [now rewrite count_foldl|]. split.
  { rewrite (count_foldl_else (fun p => negb (hasEmbedding p))).
    cbn [Nat.add]. f_equal. apply list_filter_iff. intros p.
    now destruct (hasEmbedding p). }
  split; [subst r; now rewrite count_foldl|].
  split; [|split].
  - intros p Hp. destruct (Hin1 p Hp) as [m Hm].
    exists (set_embedded (clock env m) (pineconeId p) p).
    split; [|split; [reflexivity|split; [reflexivity|]]].
    + rewrite Hout2; [exact Hm|].
      intros Hc. apply list_elem_of_fmap in Hc as (q & Heq & Hq).
      exact (Hdisj p q Hp Hq Heq).
    + cbn. apply listed_isActive in Hp. exact Hp.
  - intros p Hp. destruct (Hin2 p Hp) as [m Hm]. eexists. split; [exact Hm|].
    unfold sel. destruct (hasEmbedding p && Js.truthy (pineconeId p)) eqn:Hs;
      [reflexivity|exact Hs].
  - intros p Hp Hs. now apply Hdel.
Qed.
End SyncFacts.

Section SyncExamples.
Import Catalog Pinecone Services CatalogQueries InventoryAgent Examples.

Lemma syncAllEmbeddings_is_capped_witness :
  exists w' r,
    syncAllEmbeddings demo_count demo_embed (initial_config 5) calm warehouse
    = Some (w', r) /\
    (sy_processed r <= 200)%nat /\
    (sy_added r + sy_updated r <= 100)%nat /\
    (sy_removed r <= 100)%nat /\
    (sy_added r + sy_updated r + sy_removed r <= sy_processed r)%nat /\
    (forall k, (fun p => (quantity p, isActive p)) <$> (db w' !! k)
               = (fun p => (quantity p, isActive p)) <$> (db warehouse !! k)) /\
    (sy_success r = false -> w' = warehouse).
Proof.
  apply (syncAllEmbeddings_is_capped demo_count demo_embed (initial_config 5)
           calm warehouse).
  cbn. lia.
Defined.

Lemma syncAllEmbeddings_fault_free_witness :
  let act := getAllProducts active_options (db warehouse) in
  let ina := getAllProducts inactive_options (db warehouse) in
  exists w' r,
    syncAllEmbeddings demo_count demo_embed (initial_config 5) calm warehouse
    = Some (w', r) /\
    sy_success r = true /\
    sy_added r = length (filter (fun p => negb (hasEmbedding p) = true) act) /\
    sy_updated r = length (filter (fun p => hasEmbedding p = true) act) /\
    sy_removed r
    = length (filter (fun p => hasEmbedding p && Js.truthy (pineconeId p) = true) ina) /\
    (forall p, p ∈ act ->
               exists row, db w' !! id p = Some row /\ hasEmbedding row = true /\
                           quantity row = quantity p /\ isActive row = true) /\
    (forall p, p ∈ ina ->
               exists row, db w' !! id p = Some row /\
                           hasEmbedding row && Js.truthy (pineconeId row) = false) /\
    (forall p, p ∈ ina ->
               hasEmbedding p && Js.truthy (pineconeId p) = true ->
               index w' !! Js.or_empty (pineconeId p) = None).
Proof.
  apply (syncAllEmbeddings_fault_free demo_count demo_embed (initial_config 5)
           calm warehouse).
  - apply keyed_by_id_decide. vm_compute. reflexivity.
  - cbn. lia.
  - reflexivity.
  - intros n. reflexivity.
  - intros text. discriminate.
Defined.

Example warehouse_sync :
  (snd <$> syncAllEmbeddings demo_count demo_embed (initial_config 5) calm warehouse)
  = Some (mkSync true 2 1 0 1
            "Embedding sync complete. Processed: n, Added: n, Updated: n, Removed: n") /\
  (index <$> (fst <$> syncAllEmbeddings demo_count demo_embed (initial_config 5)
                        calm warehouse))
  = Some {[ "product_1_abc" := mkRecord (demo_embed "Desk Lamp Warm light Home Lumo lamp") None ]}.
Proof. vm_compute. split; reflexivity. Qed.
End SyncExamples.

Section JobRowFacts.
Import Catalog Pinecone Services BulkJob JobRows.

Variable ollama_embeddings : string -> list Q.
Variable show_number : Q -> string.





End JobRowFacts.

Section SeedFacts.
Import Catalog CatalogQueries Seed.

Lemma getProductBySku_is_Some s (db : gmap string Product) :
  is_Some (getProductBySku s db) <-> exists k p, db !! k = Some p /\ sku p = s.
Proof.
  split.
  - intros [p Hp]. apply getProductBySku_Some in Hp as [Hs [k Hk]]. eauto.
  - intros (k & p & Hk & Hs).
    destruct (getProductBySku s db) eqn:E; [eauto|].
    rewrite getProductBySku_None in E. now apply E in Hk.
Qed.

Ltac settle :=
  split; [now auto|]; split; [lia|]; split; [lia|]; split; [lia|];
  split; [|now auto].

(** One item: rows are kept, at most one counter goes up by one, and when
    one does the item's sku has a row. *)
Lemma seed_product_step env n d c (db : gmap string Product) :
  let db' := fst (seed_product env n d c db) in
  let c' := snd (seed_product env n d c db) in
  (forall k p, db !! k = Some p -> db' !! k = Some p) /\
  (fst c <= fst c')%nat /\ (snd c <= snd c')%nat /\
  (fst c' + snd c' <= S (fst c + snd c))%nat /\
  ((fst c' + snd c')%nat = S (fst c + snd c) -> is_Some (getProductBySku (d_sku d) db')) /\
  (catalog_ok db -> catalog_ok db').
Proof.
  unfold seed_product. destruct c as [created skipped].
  destruct (lookup_throws env n); [cbn [fst snd]; settle; intros; lia|].
  destruct (getProductBySku (d_sku d) db) as [existing|] eqn:Hex.
  { cbn [fst snd]. settle. intros _. rewrite Hex. eauto. }
  destruct (create_throws env n); [cbn [fst snd]; settle; intros; lia|].
  destruct (createProduct _ _ _ _ _) as [[db' p]|] eqn:Hc;
    [|cbn [fst snd]; settle; intros; lia].
  cbn [fst snd]. pose proof Hc as Hok.
  apply createProduct_Some in Hc as [-> Hp].
  unfold createProduct in Hok.
  destruct (row_free _ _ _ _) eqn:Hfree; [|discriminate].
  pose proof Hfree as Hfree'. apply row_free_spec in Hfree' as [Hnone _].
  split; [|split; [lia|split; [lia|split; [lia|split]]]].
  - intros k q Hk. rewrite lookup_insert_ne; [exact Hk|]. congruence.
  - intros _. apply getProductBySku_is_Some. exists (new_id env n), p.
    split; [apply lookup_insert_eq|]. now rewrite Hp.
  - intros Hcat. eapply createProduct_keeps_ok; [exact Hcat|].
    unfold createProduct. rewrite Hfree. rewrite <- Hp. reflexivity.
Qed.

Lemma is_Some_sku_kept s (db db' : gmap string Product) :
  (forall k p, db !! k = Some p -> db' !! k = Some p) ->
  is_Some (getProductBySku s db) -> is_Some (getProductBySku s db').
Proof.
  intros Hkeep H. apply getProductBySku_is_Some in H as (k & p & Hk & Hs).
  apply getProductBySku_is_Some. eauto.
Qed.

Lemma seed_loop_run env data : forall n c (db : gmap string Product),
  let db' := fst (seed_loop env n data c db) in
  let c' := snd (seed_loop env n data c db) in
  (forall k p, db !! k = Some p -> db' !! k = Some p) /\
  (fst c <= fst c')%nat /\ (snd c <= snd c')%nat /\
  (fst c' + snd c' <= fst c + snd c + length data)%nat /\
  ((fst c' + snd c')%nat = (fst c + snd c + length data)%nat ->
   forall d, d ∈ data -> is_Some (getProductBySku (d_sku d) db')) /\
  (catalog_ok db -> catalog_ok db').
Proof.
  induction data as [|d data IH]; intros n c db; cbn zeta.
  { cbn [seed_loop fst snd length]. settle. intros _ d Hd. inversion Hd. }
  cbn [seed_loop length].
  pose proof (seed_product_step env n d c db) as (K1 & A1 & B1 & C1 & P1 & O1).
  destruct (seed_product env n d c db) as [db1 c1]. cbn [fst snd] in *.
  pose proof (IH (S n) c1 db1) as (K2 & A2 & B2 & C2 & P2 & O2).
  destruct (seed_loop env (S n) data c1 db1) as [db2 c2]. cbn [fst snd] in *.
  split; [auto|]. split; [lia|]. split; [lia|]. split; [lia|]. split; [|auto].
  intros Hfull q Hq. apply elem_of_cons in Hq as [->|Hq].
  - eapply is_Some_sku_kept; [exact K2|]. apply P1. lia.
  - apply P2; [lia|exact Hq].
Qed.

(** On a catalog that has a row for every sku of the data, the loop
    creates nothing and changes nothing. *)
Lemma seed_loop_saturated env data : forall n c (db : gmap string Product),
  (forall d, d ∈ data -> is_Some (getProductBySku (d_sku d) db)) ->
  fst (seed_loop env n data c db) = db /\
  fst (snd (seed_loop env n data c db)) = fst c /\
  (snd c <= snd (snd (seed_loop env n data c db)) <= snd c + length data)%nat /\
  ((forall m, lookup_throws env m = false) ->
   snd (snd (seed_loop env n data c db)) = (snd c + length data)%nat).
Proof.
  induction data as [|d data IH]; intros n c db Hall.
  { cbn. repeat split; lia. }
  cbn [seed_loop length]. unfold seed_product. destruct c as [created skipped].
  destruct (Hall d (list_elem_of_here _ _)) as [p Hp]. rewrite Hp.
  assert (Hrest : forall q, q ∈ data -> is_Some (getProductBySku (d_sku q) db)).
  { intros q Hq. apply Hall. now right. }
  destruct (lookup_throws env n) eqn:Hl.
  - destruct (IH (S n) (created, skipped) db Hrest) as (E1 & E2 & E3 & E4).
    cbn [fst snd] in *. repeat split; try assumption; try lia.
    intros Hno. rewrite Hno in Hl. discriminate.
  - destruct (IH (S n) (created, S skipped) db Hrest) as (E1 & E2 & E3 & E4).
    cbn [fst snd] in *. repeat split; try assumption; try lia.
    intros Hno. rewrite (E4 Hno). lia.
Qed.

(** X24.  Seeding keeps every row that was there and keeps a well-formed
    catalog well formed; and once a run has created or skipped every item
    of the seed data, a later run over the same data creates nothing and
    leaves the catalog as it is, whatever fails on the way. *)
Theorem seeding_is_repeatable env1 env2 data (db : gmap string Product) :
  let db1 := fst (seedDatabase env1 data db) in
  (forall k p, db !! k = Some p -> db1 !! k = Some p) /\
  (catalog_ok db -> catalog_ok db1) /\
  match snd (seedDatabase env1 data db) with
  | Some (created, skipped) =>
      (created + skipped <= length data)%nat /\
      ((created + skipped)%nat = length data ->
       fst (seedDatabase env2 data db1) = db1 /\
       match snd (seedDatabase env2 data db1) with
       | Some (created2, skipped2) =>
           created2 = 0%nat /\ (skipped2 <= length data)%nat /\
           ((forall m, lookup_throws env2 m = false) -> skipped2 = length data)
       | None => summary_throws env2 = true
       end)
  | None => summary_throws env1 = true
  end.
Proof.
  cbn zeta. unfold seedDatabase.
  pose proof (seed_loop_run env1 data 0%nat (0%nat, 0%nat) db)
    as (K & _ & _ & C & P & O).
  destruct (seed_loop env1 0 data (0%nat, 0%nat) db) as [db1 [c s]].
  cbn [fst snd] in *.
  assert (Hgoal :
    (forall k p, db !! k = Some p -> db1 !! k = Some p) /\
    (catalog_ok db -> catalog_ok db1) /\
    (c + s <= length data)%nat /\
    ((c + s)%nat = length data ->
     fst (seed_loop env2 0 data (0%nat, 0%nat) db1) = db1 /\
     fst (snd (seed_loop env2 0 data (0%nat, 0%nat) db1)) = 0%nat /\
     (snd (snd (seed_loop env2 0 data (0%nat, 0%nat) db1)) <= length data)%nat /\
     ((forall m, lookup_throws env2 m = false) ->
      snd (snd (seed_loop env2 0 data (0%nat, 0%nat) db1)) = length data))).
  { split; [exact K|]. split; [exact O|]. split; [lia|]. intros Hfull.
    destruct (seed_loop_saturated env2 data 0%nat (0%nat, 0%nat) db1)
      as (E1 & E2 & E3 & E4); [apply P; lia|].
    cbn [fst snd] in *. repeat split; try assumption; lia. }
  destruct Hgoal as (G1 & G2 & G3 & G4).
  destruct (summary_throws env1) eqn:Hs1; cbn [fst snd].
  { split; [exact G1|]. split; [exact G2|reflexivity]. }
  split; [exact G1|]. split; [exact G2|]. split; [exact G3|].
  intros Hfull. destruct (G4 Hfull) as (E1 & E2 & E3 & E4).
  destruct (seed_loop env2 0 data (0%nat, 0%nat) db1) as [db2 [c2 s2]].
  cbn [fst snd] in *.
  destruct (summary_throws env2); cbn [fst snd]; auto.
Qed.

Example seed_twice :
  let data := [Examples.lamp; mug; Examples.lamp] in
  let db1 := fst (seedDatabase (smooth "a") data ∅) in
  snd (seedDatabase (smooth "a") data ∅) = Some (2%nat, 1%nat) /\
  seedDatabase (smooth "b") data db1 = (db1, Some (0%nat, 3%nat)).
Proof. vm_compute. split; reflexivity. Qed.
End SeedFacts.
